(** * Crypto analytics pipeline: producer, validator, enricher, writer

    A shallow embedding of the streaming core of the repository:
    - [src/ingestion/producers/kinesis_producer.py]: [MarketData],
      [KinesisProducer], the exchange connectors and [MarketDataStreamer];
    - [src/lambda/stream_processor/handler.py]: [DataQualityValidator],
      [DataEnricher], [S3Writer], [CloudWatchMetrics], [lambda_handler] and
      [_send_alert].

    Conventions of the embedding.
    - A Python [dict] with string keys is a [gmap string _].
    - Python exceptions are the constructors of [exn]; a function that can
      raise returns a [result].
    - Python [int] is [Z].  Python [float] is idealised as a real number
      ([R]): rounding, infinities and NaN are not represented, so every
      statement about a score or an average is a statement of exact
      arithmetic.  Comparisons of reals are decided by [Rle_dec]/[Rlt_dec].
    - The wall clock, the websocket and the Kinesis client are inputs of
      the functions that read them; so are the S3, CloudWatch and SNS
      clients of the handler, each given by what it answers to its
      successive calls. *)

From Stdlib Require Import ZArith Reals Lra Lia List Ascii String.
From stdpp Require Import gmap strings list.

Local Open Scope Z_scope.
Local Open Scope string_scope.

(** ** Python values, exceptions, conversions *)

Module Py.

Inductive exn : Set :=
| KeyError | ValueError | TypeError | AttributeError
| OverflowError | OSError | ClientError | JSONDecodeError.

Inductive result (A : Type) : Type :=
| Ok (a : A)
| Raise (e : exn).
Arguments Ok {A} a.
Arguments Raise {A} e.

Definition bind {A B : Type} (m : result A) (k : A -> result B) : result B :=
  match m with
  | Ok a => k a
  | Raise e => Raise e
  end.

(** [result] is a monad; stdpp's [x ← m; k] notation sequences it. *)
Global Instance result_ret : MRet result := fun A a => Ok a.
Global Instance result_bind : MBind result := fun A B k m => bind m k.

(** [exn] has decidable equality; [try_except] below uses it through lists of
    caught exceptions. *)
Global Instance exn_eq_dec : EqDecision exn.
Proof. solve_decision. Defined.

(** [try: body except (e1, e2, ...): handler].  An exception of [body] that
    is not in [caught] propagates. *)
Definition try_except {A : Type} (body : result A) (caught : list exn)
    (handler : result A) : result A :=
  match body with
  | Ok a => Ok a
  | Raise e => if bool_decide (e ∈ caught) then handler else Raise e
  end.

(** A value as [json.loads] produces it.  A nested list or dict is kept
    only as its printed form: no function of the embedding looks inside. *)
Inductive pyval : Type :=
| PNone
| PBool (b : bool)
| PInt (z : Z)
| PFloat (x : R)
| PStr (s : string)
| PContainer (printed : string).

Definition dict : Type := gmap string pyval.

(** Boolean comparisons of reals. *)
Definition Rleb (x y : R) : bool := if Rle_dec x y then true else false.
Definition Rltb (x y : R) : bool := if Rlt_dec x y then true else false.

(** The parts of the Python runtime that turn text into numbers and floats
    into text.  They are library code, not code of the repository, and the
    embedding is parametric in them. *)
Record runtime : Type := {
  (** [float(s)] for a string [s]; [None] is [ValueError]. *)
  float_of_str : string -> option R;
  (** [int(s)] for a string [s]; [None] is [ValueError]. *)
  int_of_str : string -> option Z;
  (** [str(x)] for a float [x]. *)
  repr_float : R -> string
}.

(** [int(x)] for a float [x]: truncation toward zero. *)
Definition trunc (x : R) : Z :=
  if Rle_dec 0 x then Int_part x else - Int_part (- x).

(** [str(n)] for an int [n]: decimal digits, with a minus sign when
    negative.  [fuel] bounds the number of digits. *)
Definition digit (d : Z) : ascii := ascii_of_nat (48 + Z.to_nat d).

Fixpoint digits (fuel : nat) (n : Z) (acc : string) : string :=
  match fuel with
  | O => acc
  | S fuel' =>
      let acc' := String (digit (n mod 10)) acc in
      if (n / 10 =? 0)%Z then acc' else digits fuel' (n / 10) acc'
  end.

Definition repr_nonneg (n : Z) : string :=
  digits (S (Z.to_nat (Z.log2 n))) n "".

Definition repr_int (n : Z) : string :=
  if (n <? 0)%Z then String "-" (repr_nonneg (- n)) else repr_nonneg n.

Section Conversions.
Context (rt : runtime).

(** [float(v)] *)
Definition float_ (v : pyval) : result R :=
  match v with
  | PFloat x => Ok x
  | PInt z => Ok (IZR z)
  | PBool b => Ok (if b then 1%R else 0%R)
  | PStr s => match float_of_str rt s with
              | Some x => Ok x
              | None => Raise ValueError
              end
  | PNone | PContainer _ => Raise TypeError
  end.

(** [int(v)] *)
Definition int_ (v : pyval) : result Z :=
  match v with
  | PInt z => Ok z
  | PBool b => Ok (if b then 1 else 0)
  | PFloat x => Ok (trunc x)
  | PStr s => match int_of_str rt s with
              | Some z => Ok z
              | None => Raise ValueError
              end
  | PNone | PContainer _ => Raise TypeError
  end.

(** [str(v)], also what an f-string field [{v}] prints. *)
Definition str_ (v : pyval) : string :=
  match v with
  | PStr s => s
  | PInt z => repr_int z
  | PFloat x => repr_float rt x
  | PBool true => "True"
  | PBool false => "False"
  | PNone => "None"
  | PContainer printed => printed
  end.
End Conversions.

(** [s.lower()] on the ASCII range. *)
Definition lower_ascii (c : ascii) : ascii :=
  let n := nat_of_ascii c in
  if ((65 <=? n) && (n <=? 90))%nat then ascii_of_nat (n + 32) else c.

Fixpoint lower (s : string) : string :=
  match s with
  | EmptyString => EmptyString
  | String c s' => String (lower_ascii c) (lower s')
  end.

(** [v.lower()]: only a [str] has the method. *)
Definition lower_ (v : pyval) : result string :=
  match v with
  | PStr s => Ok (lower s)
  | _ => Raise AttributeError
  end.

(** Truthiness of a value, as [if v:] and [all([...])] test it. *)
Definition truthy (v : pyval) : bool :=
  match v with
  | PNone => false
  | PBool b => b
  | PInt z => negb (z =? 0)%Z
  | PFloat x => if Req_dec_T x 0%R then false else true
  | PStr s => negb (String.eqb s "")
  | PContainer printed =>
      negb (String.eqb printed "[]" || String.eqb printed "{}")
  end.

End Py.
Import Py.

(** A runtime for records that carry their numbers as numbers: no text
    parses.  Used where a concrete runtime is needed to run an example. *)
Definition plain_runtime : runtime :=
  {| float_of_str := fun _ => None;
     int_of_str := fun _ => None;
     repr_float := fun _ => "" |}.

(** ** handler.py: [DataQualityValidator] *)

Module Validator.

Record DataQualityValidator : Type := {
  min_price : R;
  max_price : R;
  min_volume : R;
  timestamp_tolerance : Z;
  quality_threshold : R
}.

(** [__init__] with no environment variable set. *)
Definition default_validator : DataQualityValidator :=
  {| min_price := 0.01;
     max_price := 1000000.0;
     min_volume := 0.0;
     timestamp_tolerance := 300;
     quality_threshold := 0.8 |}.

(** The entries of [errors].  An f-string is kept as its constructor and
    the values it prints. *)
Inductive reason : Type :=
| MissingField (field : string)
| PriceOutOfRange (price lo hi : R)
| InvalidPriceFormat
| VolumeBelowMin (volume lo : R)
| InvalidVolumeFormat
| TimestampTooOld (timestamp : Z)
| InvalidTimestampFormat
| InvalidExchange (exchange : string).

Definition required_fields : list string :=
  ["exchange"; "symbol"; "timestamp"; "price"; "volume"].

Definition valid_exchanges : list string := ["binance"; "coinbase"; "kraken"].

(** The two locals the function updates as it goes: [errors] and [score]. *)
Definition acc : Type := list reason * R.

(** [errors.append(r); score -= penalty] *)
Definition push (a : acc) (r : reason) (penalty : R) : acc :=
  ((a.1 ++ [r])%list, (a.2 - penalty)%R).

Section ValidateRecord.
Context (rt : runtime).
Context (self : DataQualityValidator).
(** [int(time.time() * 1000)] as the call reads it. *)
Context (current_time : Z).
Context (record : dict).

(** One turn of [for field in required_fields]. *)
Definition check_field (a : acc) (field : string) : acc :=
  match record !! field with
  | Some _ => a
  | None => push a (MissingField field) 0.2
  end.

Definition check_required (a : acc) : acc :=
  foldl check_field a required_fields.

Definition check_price (a : acc) : result acc :=
  match record !! "price" with
  | None => Ok a
  | Some v =>
      try_except
        (price ← float_ rt v;
         if negb (Rleb (min_price self) price && Rleb price (max_price self))
         then Ok (push a (PriceOutOfRange price (min_price self) (max_price self)) 0.3)
         else Ok a)
        [ValueError; TypeError]
        (Ok (push a InvalidPriceFormat 0.3))
  end.

Definition check_volume (a : acc) : result acc :=
  match record !! "volume" with
  | None => Ok a
  | Some v =>
      try_except
        (volume ← float_ rt v;
         if Rltb volume (min_volume self)
         then Ok (push a (VolumeBelowMin volume (min_volume self)) 0.2)
         else Ok a)
        [ValueError; TypeError]
        (Ok (push a InvalidVolumeFormat 0.2))
  end.

Definition check_timestamp (a : acc) : result acc :=
  match record !! "timestamp" with
  | None => Ok a
  | Some v =>
      try_except
        (timestamp ← int_ rt v;
         if (timestamp_tolerance self * 1000 <? Z.abs (current_time - timestamp))%Z
         then Ok (push a (TimestampTooOld timestamp) 0.1)
         else Ok a)
        [ValueError; TypeError]
        (Ok (push a InvalidTimestampFormat 0.1))
  end.

Definition check_exchange (a : acc) : result acc :=
  match record !! "exchange" with
  | None => Ok a
  | Some v =>
      e ← lower_ v;
      if negb (bool_decide (e ∈ valid_exchanges))
      then Ok (push a (InvalidExchange (str_ rt v)) 0.2)
      else Ok a
  end.

(** [validate_record]: [(is_valid, quality_score, error_messages)]. *)
Definition validate_record : result (bool * R * list reason) :=
  let a := check_required ([], 1.0%R) in
  a ← check_price a;
  a ← check_volume a;
  a ← check_timestamp a;
  a ← check_exchange a;
  Ok (Rleb (quality_threshold self) a.2, Rmax 0.0 a.2, a.1).
End ValidateRecord.

End Validator.

(** ** handler.py: [DataEnricher] *)

Module Enricher.

(** Keys of [price_history].  [record.get('symbol', 'unknown')] may be any
    JSON scalar; a list or a dict is unhashable.  Two keys are the same
    entry when Python's [==] says so: text by its characters, numbers (and
    booleans) by their value, [None] only with itself. *)
Definition number (v : pyval) : option R :=
  match v with
  | PBool b => Some (if b then 1%R else 0%R)
  | PInt z => Some (IZR z)
  | PFloat x => Some x
  | _ => None
  end.

Definition key_eqb (a b : pyval) : bool :=
  match a, b with
  | PStr s, PStr t => String.eqb s t
  | PNone, PNone => true
  | _, _ =>
      match number a, number b with
      | Some x, Some y => if Req_dec_T x y then true else false
      | _, _ => false
      end
  end.

Definition hashable (v : pyval) : bool :=
  match v with
  | PContainer _ => false
  | _ => true
  end.

(** [Dict[str, List[float]]], in insertion order. *)
Definition history : Type := list (pyval * list R).

Fixpoint hist_get (h : history) (k : pyval) : option (list R) :=
  match h with
  | [] => None
  | (k', ps) :: h' => if key_eqb k' k then Some ps else hist_get h' k
  end.

Fixpoint hist_set (h : history) (k : pyval) (ps : list R) : history :=
  match h with
  | [] => [(k, ps)]
  | (k', ps') :: h' =>
      if key_eqb k' k then (k', ps) :: h' else (k', ps') :: hist_set h' k ps
  end.

Record DataEnricher : Type := {
  price_history : history;
  max_history_size : nat
}.

(** [DataEnricher()] *)
Definition new_enricher : DataEnricher :=
  {| price_history := []; max_history_size := 100 |}.

(** [sum(l)]: the fold from [0] that Python's [sum] performs. *)
Definition sum (l : list R) : R := foldl Rplus 0%R l.

(** [l[-n:]] for [0 < n]. *)
Definition last_n {A : Type} (n : nat) (l : list A) : list A :=
  drop (length l - n) l.

(** [l.append(x)] followed by [if len(l) > cap: l.pop(0)]. *)
Definition append_bounded (cap : nat) (l : list R) (x : R) : list R :=
  let l' := (l ++ [x])%list in
  if (cap <? length l')%nat then tail l' else l'.

Definition mean (prices : list R) : R := (sum prices / INR (length prices))%R.

Definition variance (prices : list R) : R :=
  (sum (map (fun p => (p - mean prices) ^ 2) prices) / INR (length prices))%R.

Section EnrichRecord.
Context (rt : runtime).

(** The [bid]/[ask] block; [ValueError] and [TypeError] are passed over. *)
Definition add_spread (record enriched : dict) : result dict :=
  match record !! "bid", record !! "ask" with
  | Some vb, Some va =>
      try_except
        (bid ← float_ rt vb;
         ask ← float_ rt va;
         if Rltb 0 bid && Rltb 0 ask
         then Ok (<["spread_percentage" := PFloat ((ask - bid) / bid * 100)]>
                  (<["spread" := PFloat (ask - bid)]> enriched))
         else Ok enriched)
        [ValueError; TypeError]
        (Ok enriched)
  | _, _ => Ok enriched
  end.

(** The price-change block, against the last price of the history. *)
Definition add_price_change (h : option (list R)) (price : R)
    (enriched : dict) : dict :=
  match h with
  | Some ps =>
      match last ps with
      | Some previous_price =>
          if Rltb 0 previous_price
          then <["price_change_percentage" :=
                   PFloat ((price - previous_price) / previous_price * 100)]>
               (<["price_change" := PFloat (price - previous_price)]> enriched)
          else enriched
      | None => enriched
      end
  | None => enriched
  end.

(** The moving averages and the volatility, from the updated history. *)
Definition add_indicators (ps : list R) (enriched : dict) : dict :=
  let enriched :=
    if (5 <=? length ps)%nat
    then <["sma_5" := PFloat (sum (last_n 5 ps) / 5)]> enriched
    else enriched in
  let enriched :=
    if (10 <=? length ps)%nat
    then <["sma_10" := PFloat (sum (last_n 10 ps) / 10)]> enriched
    else enriched in
  if (10 <=? length ps)%nat
  then <["volatility" := PFloat (sqrt (variance (last_n 10 ps)))]> enriched
  else enriched.

(** [enrich_record]: the enriched copy and the enricher after the call.
    [processed_at] is [datetime.now(timezone.utc).isoformat()] as the call
    reads it.  When the call raises, the enricher is as it was. *)
Definition enrich_record (processed_at : string) (self : DataEnricher)
    (record : dict) : result (dict * DataEnricher) :=
  let enriched := <["processed_at" := PStr processed_at]> record in
  enriched ← add_spread record enriched;
  let symbol := default (PStr "unknown") (record !! "symbol") in
  price ← float_ rt (default (PInt 0) (record !! "price"));
  if negb (hashable symbol) then Raise TypeError else
  let h := hist_get (price_history self) symbol in
  let enriched := add_price_change h price enriched in
  let ps := append_bounded (max_history_size self) (default [] h) price in
  let self' := {| price_history := hist_set (price_history self) symbol ps;
                  max_history_size := max_history_size self |} in
  Ok (add_indicators ps enriched, self').

(** Successive calls on one enricher, each with its clock reading. *)
Fixpoint enrich_all (self : DataEnricher) (calls : list (string * dict))
    : result (list dict * DataEnricher) :=
  match calls with
  | [] => Ok ([], self)
  | (processed_at, record) :: calls' =>
      '(out, self') ← enrich_record processed_at self record;
      '(outs, self'') ← enrich_all self' calls';
      Ok (out :: outs, self'')
  end.
End EnrichRecord.

End Enricher.

(** ** handler.py: [S3Writer._get_partition_key] *)

Module Writer.

(** The fields of a [datetime] that the partition key prints. *)
Record datetime : Type := {
  year : Z;
  month : Z;
  day : Z;
  hour : Z
}.

(** *** The proleptic Gregorian calendar of [datetime]

    Day 1 is 0001-01-01; 1970-01-01 is day 719163. *)
Definition is_leap (y : Z) : bool :=
  ((y mod 4 =? 0) && (negb (y mod 100 =? 0) || (y mod 400 =? 0)))%Z.

Definition days_in_month (y m : Z) : Z :=
  if (m =? 2)%Z then (if is_leap y then 29 else 28)
  else if ((m =? 4) || (m =? 6) || (m =? 9) || (m =? 11))%Z then 30
  else 31.

(** Days in the months of a common year before month [m] (1 to 12). *)
Definition days_before_month_common (m : Z) : Z :=
  nth (Z.to_nat m) [0; 0; 31; 59; 90; 120; 151; 181; 212; 243; 273; 304; 334] 0.

Definition days_before_month (y m : Z) : Z :=
  days_before_month_common m + (if ((2 <? m)%Z && is_leap y) then 1 else 0).

Definition days_before_year (y : Z) : Z :=
  let y' := y - 1 in
  y' * 365 + y' / 4 - y' / 100 + y' / 400.

(** The ordinal of a date, [date(y, m, d).toordinal()]. *)
Definition ymd2ord (y m d : Z) : Z :=
  days_before_year y + days_before_month y m + d.

(** The date of an ordinal, [date.fromordinal(n)]: first the 400-, 100-,
    4- and 1-year cycles, then the month from an estimate that is at most
    one too large. *)
Definition ord2ymd (n : Z) : Z * Z * Z :=
  let n := n - 1 in
  let n400 := n / 146097 in
  let n := n mod 146097 in
  let n100 := n / 36524 in
  let n := n mod 36524 in
  let n4 := n / 1461 in
  let n := n mod 1461 in
  let n1 := n / 365 in
  let n := n mod 365 in
  let y := n400 * 400 + 1 + n100 * 100 + n4 * 4 + n1 in
  if ((n1 =? 4) || (n100 =? 4))%Z then (y - 1, 12, 31)
  else
    let leapyear := ((n1 =? 3) && (negb (n4 =? 24) || (n100 =? 3)))%Z in
    let m := Z.shiftr (n + 50) 5 in
    let preceding :=
      days_before_month_common m + (if ((2 <? m)%Z && leapyear) then 1 else 0) in
    if (n <? preceding)%Z
    then
      let m' := m - 1 in
      let dim :=
        if (m' =? 2)%Z then (if leapyear then 29 else 28)
        else if ((m' =? 4) || (m' =? 6) || (m' =? 9) || (m' =? 11))%Z then 30
        else 31 in
      (y, m', n - (preceding - dim) + 1)
    else (y, m, n - preceding + 1).

(** The UTC fields of the instant [s] seconds after the epoch. *)
Definition utc_fields (s : Z) : datetime :=
  let '(y, m, d) := ord2ymd (s / 86400 + 719163) in
  {| year := y; month := m; day := d; hour := (s / 3600) mod 24 |}.

(** The first and the last second that [datetime] represents:
    0001-01-01T00:00:00 and 9999-12-31T23:59:59. *)
Definition min_second : Z := -62135596800.
Definition max_second : Z := 253402300799.

(** The seconds that the C library's [gmtime] converts (64-bit [time_t],
    32-bit [tm_year]). *)
Definition gmtime_min : Z := -67768040609740800.
Definition gmtime_max : Z := 67768036191676799.

(** [datetime.fromtimestamp(timestamp / 1000, tz=timezone.utc)] for an int
    [timestamp].  The quotient is taken exactly, so the whole seconds are
    the floor of the division.  An instant outside years 1 to 9999 raises
    [ValueError] ("year ... is out of range") as long as [gmtime] converts
    it, and [OSError] or [OverflowError] beyond. *)
Definition fromtimestamp_ms (timestamp : Z) : result datetime :=
  let s := timestamp / 1000 in
  if ((min_second <=? s) && (s <=? max_second))%Z then Ok (utc_fields s)
  else if ((gmtime_min <=? s) && (s <=? gmtime_max))%Z then Raise ValueError
  else if ((- 2 ^ 63 <=? s) && (s <? 2 ^ 63))%Z then Raise OSError
  else Raise OverflowError.

(** [f"{n:02d}"] for [0 <= n]. *)
Definition fmt_02d (n : Z) : string :=
  if (n <? 10)%Z then "0" ++ repr_int n else repr_int n.

Section PartitionKey.
Context (rt : runtime).
(** The clock, in whole seconds since the epoch, as
    [datetime.now(timezone.utc)] reads it. *)
Context (now : Z).

Definition format_key (exchange symbol : pyval) (dt : datetime) : string :=
  str_ rt exchange ++ "/" ++ str_ rt symbol
    ++ "/year=" ++ repr_int (year dt)
    ++ "/month=" ++ fmt_02d (month dt)
    ++ "/day=" ++ fmt_02d (day dt)
    ++ "/hour=" ++ fmt_02d (hour dt).

(** [_get_partition_key] *)
Definition _get_partition_key (record : dict) : result string :=
  let exchange := default (PStr "unknown") (record !! "exchange") in
  let symbol := default (PStr "unknown") (record !! "symbol") in
  dt ← try_except
         (timestamp ← int_ rt (default (PInt 0) (record !! "timestamp"));
          fromtimestamp_ms timestamp)
         [ValueError; TypeError]
         (Ok (utc_fields now));
  Ok (format_key exchange symbol dt).
End PartitionKey.

End Writer.

(** ** kinesis_producer.py *)

Module Producer.

(** *** [MarketData] *)

(** The dataclass.  The annotations are not enforced: [timestamp] holds
    whatever the connector stored ([str(data['T'])] for Binance, the raw
    [data['time']] for Coinbase), [trade_id] the raw [data.get(...)]. *)
Record MarketData : Type := {
  exchange : string;
  symbol : string;
  timestamp : pyval;
  price : R;
  volume : R;
  bid : option R;
  ask : option R;
  trade_id : pyval;
  quality_score : option R
}.

(** The three bounds [validate] reads from the environment. *)
Record bounds : Type := {
  PRICE_VALIDATION_MIN : R;
  PRICE_VALIDATION_MAX : R;
  VOLUME_VALIDATION_MIN : R
}.

Definition default_bounds : bounds :=
  {| PRICE_VALIDATION_MIN := 0.01;
     PRICE_VALIDATION_MAX := 1000000.0;
     VOLUME_VALIDATION_MIN := 0.0 |}.

(** [MarketData.validate] *)
Definition validate (env : bounds) (self : MarketData) : bool :=
  if negb (truthy (PStr (exchange self)) && truthy (PStr (symbol self))
           && truthy (timestamp self) && Rltb 0 (price self))
  then false
  else if negb (Rleb (PRICE_VALIDATION_MIN env) (price self)
                && Rleb (price self) (PRICE_VALIDATION_MAX env))
  then false
  else if Rltb (volume self) (VOLUME_VALIDATION_MIN env)
  then false
  else true.

(** *** [KinesisProducer] *)

(** An entry of [records_buffer].  [Data] is the JSON text of the trade;
    it is kept as the trade it encodes. *)
Record kinesis_record : Type := {
  Data : MarketData;
  PartitionKey : string
}.

Record KinesisProducer : Type := {
  batch_size : Z;
  max_retries : Z;
  records_buffer : list kinesis_record;
  total_records_sent : Z;
  failed_records : Z
}.

(** What one call of [client.put_records] does: it answers with a
    [FailedRecordCount], or raises. *)
Inductive put_response : Type :=
| Response (FailedRecordCount : Z)
| Raises (e : exn).

(** The producer with what surrounds it: the stream, which answers the
    [i]-th call of [put_records] with [stream i], the batches sent so far,
    the arguments of [time.sleep] so far, and the number of calls of the
    public [flush]. *)
Record world : Type := {
  producer : KinesisProducer;
  stream : nat -> put_response;
  put_calls : list (list kinesis_record);
  slept : list Z;
  flush_calls : nat
}.

Definition set_producer (w : world) (p : KinesisProducer) : world :=
  {| producer := p; stream := stream w; put_calls := put_calls w;
     slept := slept w; flush_calls := flush_calls w |}.

(** [self.client.put_records(Records=self.records_buffer, ...)] *)
Definition put_records (w : world) : put_response * world :=
  (stream w (length (put_calls w)),
   {| producer := producer w; stream := stream w;
      put_calls := (put_calls w ++ [records_buffer (producer w)])%list;
      slept := slept w; flush_calls := flush_calls w |}).

(** [time.sleep(seconds)] *)
Definition sleep (seconds : Z) (w : world) : world :=
  {| producer := producer w; stream := stream w; put_calls := put_calls w;
     slept := (slept w ++ [seconds])%list; flush_calls := flush_calls w |}.

Definition len {A : Type} (l : list A) : Z := Z.of_nat (length l).

(** The body of [for attempt in range(self.max_retries)], over the
    attempts that remain. *)
Fixpoint flush_attempts (attempts : list Z) (w : world) : result bool * world :=
  match attempts with
  | [] => (Ok false, w)
  | attempt :: attempts' =>
      let '(response, w) := put_records w in
      let p := producer w in
      match response with
      | Response failed_count =>
          let failed :=
            if (0 <? failed_count)%Z then failed_records p + failed_count
            else failed_records p in
          (Ok true,
           set_producer w
             {| batch_size := batch_size p; max_retries := max_retries p;
                records_buffer := [];
                total_records_sent :=
                  total_records_sent p + (len (records_buffer p) - failed_count);
                failed_records := failed |})
      | Raises ClientError =>
          if (attempt =? max_retries p - 1)%Z
          then
            (Ok false,
             set_producer w
               {| batch_size := batch_size p; max_retries := max_retries p;
                  records_buffer := [];
                  total_records_sent := total_records_sent p;
                  failed_records := failed_records p + len (records_buffer p) |})
          else flush_attempts attempts' (sleep (2 ^ attempt) w)
      | Raises e => (Raise e, w)
      end
  end.

(** [_flush_buffer] *)
Definition _flush_buffer (w : world) : result bool * world :=
  match records_buffer (producer w) with
  | [] => (Ok true, w)
  | _ => flush_attempts (seqZ 0 (max_retries (producer w))) w
  end.

(** [flush] *)
Definition flush (w : world) : result bool * world :=
  _flush_buffer
    {| producer := producer w; stream := stream w; put_calls := put_calls w;
       slept := slept w; flush_calls := S (flush_calls w) |}.

(** [put_record].  [except Exception] catches whatever the flush raises. *)
Definition put_record (market_data : MarketData) (w : world) : bool * world :=
  let p := producer w in
  let record := {| Data := market_data; PartitionKey := symbol market_data |} in
  let w :=
    set_producer w
      {| batch_size := batch_size p; max_retries := max_retries p;
         records_buffer := (records_buffer p ++ [record])%list;
         total_records_sent := total_records_sent p;
         failed_records := failed_records p |} in
  if (batch_size p <=? len (records_buffer (producer w)))%Z
  then
    match _flush_buffer w with
    | (Ok b, w) => (b, w)
    | (Raise _, w) =>
        let p := producer w in
        (false,
         set_producer w
           {| batch_size := batch_size p; max_retries := max_retries p;
              records_buffer := records_buffer p;
              total_records_sent := total_records_sent p;
              failed_records := failed_records p + 1 |})
    end
  else (true, w).

(** [KinesisProducer(stream_name)] with no environment variable set, once
    [_validate_stream] has passed. *)
Definition new_producer : KinesisProducer :=
  {| batch_size := 500; max_retries := 3; records_buffer := [];
     total_records_sent := 0; failed_records := 0 |}.

Definition new_world (stream : nat -> put_response) : world :=
  {| producer := new_producer; stream := stream; put_calls := [];
     slept := []; flush_calls := 0 |}.

(** *** Exchange connectors *)

(** [data[key]] *)
Definition getitem (data : dict) (key : string) : result pyval :=
  match data !! key with
  | Some v => Ok v
  | None => Raise KeyError
  end.

(** [data.get(key)] *)
Definition get (data : dict) (key : string) : pyval :=
  default PNone (data !! key).

(** [v == s] for a string literal [s] *)
Definition eq_str (v : pyval) (s : string) : bool :=
  match v with
  | PStr t => String.eqb t s
  | _ => false
  end.

(** [s.replace('-', '')] *)
Fixpoint remove_dashes (s : string) : string :=
  match s with
  | EmptyString => EmptyString
  | String c s' =>
      if Ascii.eqb c "-"%char then remove_dashes s'
      else String c (remove_dashes s')
  end.

Section Connectors.
Context (rt : runtime).

(** The body shared by the two [_calculate_quality_score] methods, which
    differ in the names of the fields.  [data[price_field]] is read
    outside any handler of [KeyError]. *)
Definition calculate_quality_score (required_fields : list string)
    (price_field : string) (data : dict) : result R :=
  let score :=
    foldl (fun score field =>
             match data !! field with
             | Some _ => score
             | None => (score - 0.2)%R
             end) 1.0%R required_fields in
  score ← try_except
            (v ← getitem data price_field;
             price ← float_ rt v;
             if Rleb price 0 then Ok (score - 0.3)%R else Ok score)
            [ValueError; TypeError]
            (Ok (score - 0.3)%R);
  Ok (Rmax 0.0 score).

(** [BinanceConnector._calculate_quality_score] *)
Definition binance_calculate_quality_score : dict -> result R :=
  calculate_quality_score ["s"; "p"; "q"; "T"] "p".

(** [CoinbaseConnector._calculate_quality_score] *)
Definition coinbase_calculate_quality_score : dict -> result R :=
  calculate_quality_score ["product_id"; "price"; "size"; "time"] "price".

(** A message as [json.loads] returns it.  Both exchanges send JSON
    objects, and the embedding takes the message decoded:
    [Raise JSONDecodeError] is a text that is not JSON. *)
Definition message : Type := result dict.

(** [BinanceConnector.process_message].  The keyword arguments of
    [MarketData(...)] are evaluated in the order written. *)
Definition binance_process_message (message : message)
    : result (option MarketData) :=
  try_except
    (data ← message;
     if match data !! "e" with
        | None => true
        | Some e => negb (eq_str e "trade")
        end
     then Ok None
     else
       s ← getitem data "s";
       symbol ← lower_ s;
       T ← getitem data "T";
       p ← getitem data "p";
       price ← float_ rt p;
       q ← getitem data "q";
       volume ← float_ rt q;
       quality_score ← binance_calculate_quality_score data;
       Ok (Some {| exchange := "binance"; symbol := symbol;
                   timestamp := PStr (str_ rt T);
                   price := price; volume := volume;
                   bid := None; ask := None;
                   trade_id := get data "t";
                   quality_score := Some quality_score |}))
    [JSONDecodeError; KeyError; ValueError]
    (Ok None).

(** [CoinbaseConnector.process_message] *)
Definition coinbase_process_message (message : message)
    : result (option MarketData) :=
  try_except
    (data ← message;
     if negb (eq_str (get data "type") "match")
     then Ok None
     else
       product_id ← getitem data "product_id";
       symbol ← lower_ product_id;
       time ← getitem data "time";
       p ← getitem data "price";
       price ← float_ rt p;
       q ← getitem data "size";
       volume ← float_ rt q;
       quality_score ← coinbase_calculate_quality_score data;
       Ok (Some {| exchange := "coinbase"; symbol := remove_dashes symbol;
                   timestamp := time;
                   price := price; volume := volume;
                   bid := None; ask := None;
                   trade_id := get data "trade_id";
                   quality_score := Some quality_score |}))
    [JSONDecodeError; KeyError; ValueError]
    (Ok None).
End Connectors.

(** The interface of [ExchangeConnector] that the streamer uses. *)
Record ExchangeConnector : Type := {
  exchange_name : string;
  max_reconnect_delay : Z;
  process_message : message -> result (option MarketData)
}.

Definition BinanceConnector (rt : runtime) : ExchangeConnector :=
  {| exchange_name := "binance"; max_reconnect_delay := 60;
     process_message := binance_process_message rt |}.

Definition CoinbaseConnector (rt : runtime) : ExchangeConnector :=
  {| exchange_name := "coinbase"; max_reconnect_delay := 60;
     process_message := coinbase_process_message rt |}.

(** *** [MarketDataStreamer] *)

(** What a task meets, in order.  A websocket either fails to open (or to
    subscribe) or opens and then yields [items] before it ends: closed by
    the peer, or broken, in which case the iteration raises.  A shutdown
    signal may arrive between two reads, or while the task is connecting
    or sleeping. *)
Inductive ws_item : Type :=
| Message (m : message)
| Signal.

Inductive ws_end : Type := Closed | Broken.

Inductive step : Type :=
| SignalArrives
| ConnectFails
| Connected (items : list ws_item) (fin : ws_end).

Record MarketDataStreamer : Type := {
  running : bool;
  kinesis : world;
  (** the arguments of [asyncio.sleep] so far *)
  reconnect_sleeps : list Z
}.

(** [_signal_handler] *)
Definition _signal_handler (self : MarketDataStreamer) : MarketDataStreamer :=
  {| running := false; kinesis := kinesis self;
     reconnect_sleeps := reconnect_sleeps self |}.

Definition set_kinesis (self : MarketDataStreamer) (w : world)
    : MarketDataStreamer :=
  {| running := running self; kinesis := w;
     reconnect_sleeps := reconnect_sleeps self |}.

Definition asyncio_sleep (delay : Z) (self : MarketDataStreamer)
    : MarketDataStreamer :=
  {| running := running self; kinesis := kinesis self;
     reconnect_sleeps := (reconnect_sleeps self ++ [delay])%list |}.

(** How [async for message in websocket] is left. *)
Inductive loop_exit : Type :=
| Exhausted
| Break
| Raised (e : exn).

(** How a task stands when its script is used up: returned from
    [stream_exchange], or still waiting on the network. *)
Inductive task_status : Type :=
| Returned
| Waiting.

Section StreamExchange.
Context (env : bounds).
Context (connector : ExchangeConnector).

(** [async for message in websocket: ...] *)
Fixpoint read_messages (items : list ws_item) (self : MarketDataStreamer)
    : loop_exit * MarketDataStreamer :=
  match items with
  | [] => (Exhausted, self)
  | Signal :: items' => read_messages items' (_signal_handler self)
  | Message m :: items' =>
      if negb (running self) then (Break, self)
      else
        match process_message connector m with
        | Raise e => (Raised e, self)
        | Ok None => read_messages items' self
        | Ok (Some market_data) =>
            if validate env market_data
            then read_messages items'
                   (set_kinesis self (put_record market_data (kinesis self)).2)
            else read_messages items' self
        end
  end.

Definition max_retries_ : Z := 10.

(** The [except Exception] branch: count the failure and back off. *)
Definition on_failure (retry_count : Z) (self : MarketDataStreamer)
    : Z * MarketDataStreamer :=
  let retry_count := retry_count + 1 in
  if (retry_count <? max_retries_)%Z
  then (retry_count,
        asyncio_sleep (Z.min (2 ^ retry_count) (max_reconnect_delay connector)) self)
  else (retry_count, self).

(** [stream_exchange], from the head of the [while] with the current
    [retry_count].  The result carries the last value of [retry_count]. *)
Fixpoint stream_exchange_from (script : list step) (retry_count : Z)
    (self : MarketDataStreamer) : task_status * Z * MarketDataStreamer :=
  if negb (running self && (retry_count <? max_retries_)%Z)
  then (Returned, retry_count, self)
  else
    match script with
    | [] => (Waiting, retry_count, self)
    | SignalArrives :: script' =>
        stream_exchange_from script' retry_count (_signal_handler self)
    | ConnectFails :: script' =>
        let '(retry_count, self) := on_failure retry_count self in
        stream_exchange_from script' retry_count self
    | Connected items fin :: script' =>
        match read_messages items self, fin with
        | (Break, self), _ | (Exhausted, self), Closed =>
            stream_exchange_from script' 0 self
        | (Raised _, self), _ | (Exhausted, self), Broken =>
            let '(retry_count, self) := on_failure retry_count self in
            stream_exchange_from script' retry_count self
        end
    end.

Definition stream_exchange (script : list step) (self : MarketDataStreamer)
    : task_status * Z * MarketDataStreamer :=
  stream_exchange_from script 0 self.
End StreamExchange.

(** [MarketDataStreamer()] *)
Definition new_streamer (stream : nat -> put_response) : MarketDataStreamer :=
  {| running := false; kinesis := new_world stream; reconnect_sleeps := [] |}.

(** [start]: one task per connector, each with what it meets.  The tasks
    are run one after the other; an interleaving changes the order of the
    records in the buffer, not which calls the orchestrator makes. *)
Fixpoint gather (env : bounds) (tasks : list (ExchangeConnector * list step))
    (self : MarketDataStreamer) : task_status * MarketDataStreamer :=
  match tasks with
  | [] => (Returned, self)
  | (connector, script) :: tasks' =>
      let '(status, _, self) := stream_exchange env connector script self in
      let '(status', self) := gather env tasks' self in
      (match status, status' with
       | Returned, Returned => Returned
       | _, _ => Waiting
       end, self)
  end.

Definition start (env : bounds) (tasks : list (ExchangeConnector * list step))
    (self : MarketDataStreamer) : task_status * MarketDataStreamer :=
  gather env tasks
    {| running := true; kinesis := kinesis self;
       reconnect_sleeps := reconnect_sleeps self |}.

(** [stop]: the tasks are cancelled, the buffer is flushed, the statistics
    are logged.  An exception of the flush propagates. *)
Definition stop (self : MarketDataStreamer) : result unit * MarketDataStreamer :=
  let self :=
    {| running := false; kinesis := kinesis self;
       reconnect_sleeps := reconnect_sleeps self |} in
  let '(r, w) := flush (kinesis self) in
  (_ ← r; Ok tt, set_kinesis self w).

(** [main], once the credentials have been found: it builds the streamer
    and awaits [start]. *)
Definition main (env : bounds) (stream : nat -> put_response)
    (tasks : list (ExchangeConnector * list step))
    : task_status * MarketDataStreamer :=
  start env tasks (new_streamer stream).

End Producer.
(** ** handler.py: the AWS clients and the clock *)

Module Aws.

(** The dict that [_write_partition] serialises as the body of a file. *)
Record file_data : Type := {
  records : list dict;
  count : Z;
  timestamp : Z;
  partition : string
}.

(** The arguments of a call of [s3_client.put_object].  [Body] is kept as
    the dict that [json.dumps] prints. *)
Record put_object_call : Type := {
  Bucket : string;
  Key : string;
  Body : file_data;
  ContentType : string
}.

(** A metric as [record_metric] builds it.  A dimension
    [{'Name': n, 'Value': v}] is the pair [(n, v)]; [Dimensions] is [None]
    when the key is not set. *)
Record metric : Type := {
  MetricName : string;
  Value : pyval;
  Unit : string;
  Timestamp : Z;
  Dimensions : option (list (string * pyval))
}.

(** The arguments of a call of [cloudwatch.put_metric_data]. *)
Record put_metric_data_call : Type := {
  Namespace : string;
  MetricData : list metric
}.

(** The two messages of [_send_alert], kept as their constructor and the
    values they print. *)
Inductive alert : Type :=
| HighErrorRate (invalid_records total_records : Z)
| FunctionFailed (e : exn).

(** The arguments of a call of [sns_client.publish]. *)
Record publish_call : Type := {
  TopicArn : string;
  Message : alert;
  Subject : string
}.

(** What the handler meets outside: the clock, in microseconds since the
    epoch at its [n]-th reading, and the answer of each service to its
    [n]-th call, [None] for a call that returns and [Some e] for one that
    raises [e]. *)
Record outside : Type := {
  clock : nat -> Z;
  s3 : nat -> option exn;
  cloudwatch : nat -> option exn;
  sns : nat -> option exn
}.

(** What the handler has done outside so far: the readings of the clock
    and the calls made, those that raised included. *)
Record world : Type := {
  clock_reads : nat;
  put_object_calls : list put_object_call;
  put_metric_data_calls : list put_metric_data_call;
  publish_calls : list publish_call
}.

Definition new_world : world :=
  {| clock_reads := 0; put_object_calls := []; put_metric_data_calls := [];
     publish_calls := [] |}.

(** What a call answers. *)
Definition answer (a : option exn) : result unit :=
  match a with
  | None => Ok tt
  | Some e => Raise e
  end.

Section Calls.
Context (out : outside).

(** The reading that the next look at the clock gives. *)
Definition now (w : world) : Z := clock out (clock_reads w).

(** The world after that look. *)
Definition tick (w : world) : world :=
  {| clock_reads := S (clock_reads w);
     put_object_calls := put_object_calls w;
     put_metric_data_calls := put_metric_data_calls w;
     publish_calls := publish_calls w |}.

(** [time.time()] and [datetime.now(timezone.utc)] *)
Definition read_clock (w : world) : Z * world := (now w, tick w).

(** [s3_client.put_object(...)] *)
Definition put_object (call : put_object_call) (w : world)
    : result unit * world :=
  (answer (s3 out (length (put_object_calls w))),
   {| clock_reads := clock_reads w;
      put_object_calls := (put_object_calls w ++ [call])%list;
      put_metric_data_calls := put_metric_data_calls w;
      publish_calls := publish_calls w |}).

(** [cloudwatch.put_metric_data(...)] *)
Definition put_metric_data (call : put_metric_data_call) (w : world)
    : result unit * world :=
  (answer (cloudwatch out (length (put_metric_data_calls w))),
   {| clock_reads := clock_reads w;
      put_object_calls := put_object_calls w;
      put_metric_data_calls := (put_metric_data_calls w ++ [call])%list;
      publish_calls := publish_calls w |}).

(** [sns_client.publish(...)] *)
Definition publish (call : publish_call) (w : world) : result unit * world :=
  (answer (sns out (length (publish_calls w))),
   {| clock_reads := clock_reads w;
      put_object_calls := put_object_calls w;
      put_metric_data_calls := put_metric_data_calls w;
      publish_calls := (publish_calls w ++ [call])%list |}).
End Calls.

End Aws.

(** ** handler.py: [S3Writer] *)

Module Storage.
Import Writer Aws.

Record S3Writer : Type := {
  bucket_name : string;
  raw_prefix : string;
  batch_size : Z;
  records_buffer : list dict
}.

(** [S3Writer()] with no environment variable set. *)
Definition new_writer : S3Writer :=
  {| bucket_name := "crypto-analytics-data"; raw_prefix := "raw/";
     batch_size := 100; records_buffer := [] |}.

Definition set_buffer (self : S3Writer) (buffer : list dict) : S3Writer :=
  {| bucket_name := bucket_name self; raw_prefix := raw_prefix self;
     batch_size := batch_size self; records_buffer := buffer |}.

(** [partitions]: a dict from partition key to records, in the order in
    which the keys were inserted. *)
Definition partitions : Type := list (string * list dict).

(** [if partition_key not in partitions: partitions[partition_key] = []]
    followed by [partitions[partition_key].append(record)]. *)
Fixpoint add_to_partition (p : partitions) (partition_key : string)
    (record : dict) : partitions :=
  match p with
  | [] => [(partition_key, [record])]
  | (key, records) :: p' =>
      if String.eqb key partition_key
      then (key, (records ++ [record])%list) :: p'
      else (key, records) :: add_to_partition p' partition_key record
  end.

Section S3Writer.
Context (rt : runtime) (out : outside).

(** Whether [_get_partition_key] takes its [except] branch, where it
    reads the clock. *)
Definition falls_back (record : dict) : bool :=
  match (timestamp ← int_ rt (default (PInt 0) (record !! "timestamp"));
         fromtimestamp_ms timestamp) with
  | Ok _ => false
  | Raise e => bool_decide (e ∈ [ValueError; TypeError])
  end.

(** [self._get_partition_key(record)], with the clock it may read. *)
Definition get_partition_key (record : dict) (w : world)
    : result string * world :=
  (_get_partition_key rt (now out w / 1000000) record,
   if falls_back record then tick w else w).

(** [_write_partition]: the [except ClientError] logs and raises again,
    so every exception of [put_object] leaves the method. *)
Definition _write_partition (self : S3Writer) (partition_key : string)
    (records : list dict) (w : world) : result unit * world :=
  let '(t, w) := read_clock out w in
  let timestamp := Z.quot t 1000000 in
  let file_key :=
    raw_prefix self ++ partition_key ++ "/data_" ++ repr_int timestamp
      ++ ".json" in
  let data :=
    {| Aws.records := records; count := Producer.len records;
       timestamp := timestamp; partition := partition_key |} in
  put_object out
    {| Bucket := bucket_name self; Key := file_key; Body := data;
       ContentType := "application/json" |} w.

(** [for record in self.records_buffer: ...], over the records that
    remain. *)
Fixpoint group (buffer : list dict) (p : partitions) (w : world)
    : result partitions * world :=
  match buffer with
  | [] => (Ok p, w)
  | record :: buffer' =>
      match get_partition_key record w with
      | (Ok partition_key, w) =>
          group buffer' (add_to_partition p partition_key record) w
      | (Raise e, w) => (Raise e, w)
      end
  end.

(** [for partition_key, records in partitions.items(): ...] *)
Fixpoint write_partitions (self : S3Writer) (p : partitions) (w : world)
    : result unit * world :=
  match p with
  | [] => (Ok tt, w)
  | (partition_key, records) :: p' =>
      match _write_partition self partition_key records w with
      | (Ok _, w) => write_partitions self p' w
      | (Raise e, w) => (Raise e, w)
      end
  end.

(** [_flush_buffer]: [except Exception] logs whatever the [try] raised;
    the buffer is cleared only at the end of the [try]. *)
Definition _flush_buffer (self : S3Writer) (w : world) : S3Writer * world :=
  match records_buffer self with
  | [] => (self, w)
  | _ =>
      match group (records_buffer self) [] w with
      | (Raise _, w) => (self, w)
      | (Ok p, w) =>
          match write_partitions self p w with
          | (Ok _, w) => (set_buffer self [], w)
          | (Raise _, w) => (self, w)
          end
      end
  end.

(** [add_record] *)
Definition add_record (record : dict) (self : S3Writer) (w : world)
    : S3Writer * world :=
  let self := set_buffer self (records_buffer self ++ [record])%list in
  if (batch_size self <=? Producer.len (records_buffer self))%Z
  then _flush_buffer self w
  else (self, w).

(** [flush] *)
Definition flush (self : S3Writer) (w : world) : S3Writer * world :=
  _flush_buffer self w.
End S3Writer.

End Storage.

(** ** handler.py: [CloudWatchMetrics] *)

Module Metrics.
Import Aws.

Record CloudWatchMetrics : Type := {
  namespace : string;
  metrics_buffer : list metric;
  max_buffer_size : Z
}.

(** [CloudWatchMetrics()] with no environment variable set. *)
Definition new_metrics : CloudWatchMetrics :=
  {| namespace := "CryptoAnalytics"; metrics_buffer := [];
     max_buffer_size := 20 |}.

Definition set_buffer (self : CloudWatchMetrics) (buffer : list metric)
    : CloudWatchMetrics :=
  {| namespace := namespace self; metrics_buffer := buffer;
     max_buffer_size := max_buffer_size self |}.

Section CloudWatchMetrics.
Context (out : outside).

(** [_publish_metrics]: only [ClientError] is caught; the buffer is
    cleared only when the call returned. *)
Definition _publish_metrics (self : CloudWatchMetrics) (w : world)
    : result unit * CloudWatchMetrics * world :=
  match metrics_buffer self with
  | [] => (Ok tt, self, w)
  | _ =>
      match put_metric_data out
              {| Namespace := namespace self;
                 MetricData := metrics_buffer self |} w with
      | (Ok _, w) => (Ok tt, set_buffer self [], w)
      | (Raise e, w) =>
          if bool_decide (e = ClientError) then (Ok tt, self, w)
          else (Raise e, self, w)
      end
  end.

(** [record_metric]; [dimensions] is [None] where the caller leaves the
    default. *)
Definition record_metric (metric_name : string) (value : pyval)
    (unit_ : string) (dimensions : option (list (string * pyval)))
    (self : CloudWatchMetrics) (w : world)
    : result unit * CloudWatchMetrics * world :=
  let '(t, w) := read_clock out w in
  let metric :=
    {| MetricName := metric_name; Value := value; Unit := unit_;
       Timestamp := t;
       Dimensions := match dimensions with
                     | Some (d :: ds) => Some (d :: ds)
                     | _ => None
                     end |} in
  let self := set_buffer self (metrics_buffer self ++ [metric])%list in
  if (max_buffer_size self <=? Producer.len (metrics_buffer self))%Z
  then _publish_metrics self w
  else (Ok tt, self, w).

(** [flush] *)
Definition flush (self : CloudWatchMetrics) (w : world)
    : result unit * CloudWatchMetrics * world :=
  _publish_metrics self w.
End CloudWatchMetrics.

End Metrics.

(** ** handler.py: [lambda_handler] and [_send_alert] *)

Module Handler.
Import Validator Enricher Aws.

(** An element of [event['Records']]: its [recordId], if it has one, and
    what [json.loads(base64.b64decode(record['kinesis']['data'])
    .decode('utf-8'))] gives: a JSON object, or the exception of the lookup
    or of the decoding. *)
Record event_record : Type := {
  recordId : option string;
  data : result dict
}.

(** The event: [Records] is [None] when the key is absent. *)
Record event : Type := {
  Records : option (list event_record)
}.

(** The environment variables that the handler and its components read,
    the numbers converted and the defaults applied as the constructors do;
    [DLQ_ENABLED] and [SNS_TOPIC_ARN] are kept as [os.getenv] returns
    them. *)
Record environment : Type := {
  validator_config : DataQualityValidator;
  S3_BUCKET_NAME : string;
  S3_RAW_DATA_PREFIX : string;
  S3_BATCH_SIZE : Z;
  CLOUDWATCH_METRIC_NAMESPACE : string;
  DLQ_ENABLED : option string;
  SNS_TOPIC_ARN : option string
}.

(** No variable set. *)
Definition default_environment : environment :=
  {| validator_config := default_validator;
     S3_BUCKET_NAME := "crypto-analytics-data";
     S3_RAW_DATA_PREFIX := "raw/";
     S3_BATCH_SIZE := 100;
     CLOUDWATCH_METRIC_NAMESPACE := "CryptoAnalytics";
     DLQ_ENABLED := None;
     SNS_TOPIC_ARN := None |}.

(** The [reason] of an entry of [failed_records]. *)
Inductive failure_reason : Type :=
| ValidationFailed (errors : list Validator.reason)
| ProcessingError (e : exn).

(** The locals of [lambda_handler].  An entry
    [{'recordId': i, 'reason': r}] of [failed_records] is the pair
    [(i, r)]. *)
Record locals : Type := {
  validator : DataQualityValidator;
  enricher : DataEnricher;
  s3_writer : Storage.S3Writer;
  metrics : Metrics.CloudWatchMetrics;
  total_records : Z;
  valid_records : Z;
  invalid_records : Z;
  failed_records : list (string * failure_reason)
}.

Definition set_enricher (l : locals) (e : DataEnricher) : locals :=
  {| validator := validator l; enricher := e; s3_writer := s3_writer l;
     metrics := metrics l; total_records := total_records l;
     valid_records := valid_records l; invalid_records := invalid_records l;
     failed_records := failed_records l |}.

Definition set_s3_writer (l : locals) (s : Storage.S3Writer) : locals :=
  {| validator := validator l; enricher := enricher l; s3_writer := s;
     metrics := metrics l; total_records := total_records l;
     valid_records := valid_records l; invalid_records := invalid_records l;
     failed_records := failed_records l |}.

Definition set_metrics (l : locals) (m : Metrics.CloudWatchMetrics) : locals :=
  {| validator := validator l; enricher := enricher l;
     s3_writer := s3_writer l; metrics := m;
     total_records := total_records l; valid_records := valid_records l;
     invalid_records := invalid_records l;
     failed_records := failed_records l |}.

(** [total_records += 1], [valid_records += 1], [invalid_records += 1] *)
Definition count_total (l : locals) : locals :=
  {| validator := validator l; enricher := enricher l;
     s3_writer := s3_writer l; metrics := metrics l;
     total_records := total_records l + 1; valid_records := valid_records l;
     invalid_records := invalid_records l;
     failed_records := failed_records l |}.

Definition count_valid (l : locals) : locals :=
  {| validator := validator l; enricher := enricher l;
     s3_writer := s3_writer l; metrics := metrics l;
     total_records := total_records l; valid_records := valid_records l + 1;
     invalid_records := invalid_records l;
     failed_records := failed_records l |}.

Definition count_invalid (l : locals) : locals :=
  {| validator := validator l; enricher := enricher l;
     s3_writer := s3_writer l; metrics := metrics l;
     total_records := total_records l; valid_records := valid_records l;
     invalid_records := invalid_records l + 1;
     failed_records := failed_records l |}.

(** [failed_records.append({'recordId': i, 'reason': r})] *)
Definition append_failure (l : locals) (i : string) (r : failure_reason)
    : locals :=
  {| validator := validator l; enricher := enricher l;
     s3_writer := s3_writer l; metrics := metrics l;
     total_records := total_records l; valid_records := valid_records l;
     invalid_records := invalid_records l;
     failed_records := (failed_records l ++ [(i, r)])%list |}.

(** [os.getenv("DLQ_ENABLED", "false").lower() == "true"] *)
Definition dlq_enabled (env : environment) : bool :=
  String.eqb (lower (default "false" (DLQ_ENABLED env))) "true".

(** Whether [validate_record] reaches [time.time()]: the record has a
    [timestamp] and [int] converts it. *)
Definition reads_clock (rt : runtime) (record : dict) : bool :=
  match record !! "timestamp" with
  | None => false
  | Some v => match int_ rt v with
              | Ok _ => true
              | Raise _ => false
              end
  end.

Section LambdaHandler.
Context (rt : runtime).
(** [datetime.isoformat] of a reading of the clock. *)
Context (isoformat : Z -> string).
Context (out : outside).
Context (env : environment).

(** [_send_alert]: [except Exception] logs whatever [publish] raised. *)
Definition _send_alert (message : alert) (w : world) : world :=
  match SNS_TOPIC_ARN env with
  | Some sns_topic_arn =>
      if truthy (PStr sns_topic_arn)
      then (publish out
              {| TopicArn := sns_topic_arn; Message := message;
                 Subject := "Crypto Analytics Alert" |} w).2
      else w
  | None => w
  end.

(** The components and the statistics as [lambda_handler] sets them up. *)
Definition initial : locals :=
  {| validator := validator_config env;
     enricher := new_enricher;
     s3_writer :=
       {| Storage.bucket_name := S3_BUCKET_NAME env;
          Storage.raw_prefix := S3_RAW_DATA_PREFIX env;
          Storage.batch_size := S3_BATCH_SIZE env;
          Storage.records_buffer := [] |};
     metrics :=
       {| Metrics.namespace := CLOUDWATCH_METRIC_NAMESPACE env;
          Metrics.metrics_buffer := [];
          Metrics.max_buffer_size := 20 |};
     total_records := 0; valid_records := 0; invalid_records := 0;
     failed_records := [] |}.

(** [metrics.record_metric(...)] on the local [metrics]. *)
Definition record (metric_name : string) (value : pyval) (unit_ : string)
    (dimensions : option (list (string * pyval))) (l : locals) (w : world)
    : result unit * locals * world :=
  let '(r, m, w) :=
    Metrics.record_metric out metric_name value unit_ dimensions
      (metrics l) w in
  (r, set_metrics l m, w).

(** The branch of a record that passed validation. *)
Definition process_valid (market_data : dict) (quality_score : R)
    (l : locals) (w : world) : result unit * locals * world :=
  let '(t, w) := read_clock out w in
  match enrich_record rt (isoformat t) (enricher l) market_data with
  | Raise e => (Raise e, l, w)
  | Ok (enriched_data, enricher') =>
      let l := set_enricher l enricher' in
      let enriched_data :=
        <["quality_score" := PFloat quality_score]> enriched_data in
      let '(s, w) :=
        Storage.add_record rt out enriched_data (s3_writer l) w in
      let l := set_s3_writer l s in
      let l := count_valid l in
      let dimensions :=
        Some [("Exchange",
               default (PStr "unknown") (market_data !! "exchange"))] in
      match record "RecordsProcessed" (PInt 1) "Count" dimensions l w with
      | (Raise e, l, w) => (Raise e, l, w)
      | (Ok _, l, w) =>
          record "DataQualityScore" (PFloat quality_score) "None"
            dimensions l w
      end
  end.

(** The branch of a record that failed validation. *)
Definition process_invalid (record_ : event_record)
    (errors : list Validator.reason) (l : locals) (w : world)
    : result unit * locals * world :=
  let l := count_invalid l in
  match record "InvalidRecords" (PInt 1) "Count" None l w with
  | (Raise e, l, w) => (Raise e, l, w)
  | (Ok _, l, w) =>
      if dlq_enabled env
      then match recordId record_ with
           | None => (Raise KeyError, l, w)
           | Some i => (Ok tt, append_failure l i (ValidationFailed errors), w)
           end
      else (Ok tt, l, w)
  end.

(** The body of the inner [try]. *)
Definition process (record_ : event_record) (l : locals) (w : world)
    : result unit * locals * world :=
  match data record_ with
  | Raise e => (Raise e, l, w)
  | Ok market_data =>
      let current_time := Z.quot (now out w) 1000 in
      let w := if reads_clock rt market_data then tick w else w in
      match validate_record rt (validator l) current_time market_data with
      | Raise e => (Raise e, l, w)
      | Ok (is_valid, quality_score, errors) =>
          if is_valid then process_valid market_data quality_score l w
          else process_invalid record_ errors l w
      end
  end.

(** One turn of [for record in event['Records']]: the inner [try] and
    its [except Exception], which reads [record['recordId']]. *)
Definition process_record (record_ : event_record) (l : locals) (w : world)
    : result locals * world :=
  let l := count_total l in
  match process record_ l w with
  | (Ok _, l, w) => (Ok l, w)
  | (Raise e, l, w) =>
      let l := count_invalid l in
      match recordId record_ with
      | None => (Raise KeyError, w)
      | Some i => (Ok (append_failure l i (ProcessingError e)), w)
      end
  end.

(** The [for] loop. *)
Fixpoint process_records (records : list event_record) (l : locals)
    (w : world) : result locals * world :=
  match records with
  | [] => (Ok l, w)
  | record_ :: records' =>
      match process_record record_ l w with
      | (Ok l, w) => process_records records' l w
      | (Raise e, w) => (Raise e, w)
      end
  end.

(** The four metrics recorded after the flushes. *)
Definition record_final (processing_time : R) (l : locals) (w : world)
    : result unit * locals * world :=
  match record "ProcessingTime" (PFloat processing_time) "Seconds" None
          l w with
  | (Raise e, l, w) => (Raise e, l, w)
  | (Ok _, l, w) =>
      match record "TotalRecords" (PInt (total_records l)) "Count" None
              l w with
      | (Raise e, l, w) => (Raise e, l, w)
      | (Ok _, l, w) =>
          match record "ValidRecords" (PInt (valid_records l)) "Count" None
                  l w with
          | (Raise e, l, w) => (Raise e, l, w)
          | (Ok _, l, w) =>
              record "InvalidRecords" (PInt (invalid_records l)) "Count"
                None l w
          end
      end
  end.

(** What follows the loop, to the [return]. *)
Definition finish (start_time : Z) (l : locals) (w : world)
    : result (list (string * failure_reason)) * world :=
  let '(s, w) := Storage.flush rt out (s3_writer l) w in
  let l := set_s3_writer l s in
  match Metrics.flush out (metrics l) w with
  | (Raise e, _, w) => (Raise e, w)
  | (Ok _, m, w) =>
      let l := set_metrics l m in
      let '(t, w) := read_clock out w in
      let processing_time := (IZR (t - start_time) / 1000000)%R in
      match record_final processing_time l w with
      | (Raise e, _, w) => (Raise e, w)
      | (Ok _, l, w) =>
          let w :=
            if (0 <? total_records l)%Z
               && Rltb 0.1 (IZR (invalid_records l) / IZR (total_records l))
            then _send_alert
                   (HighErrorRate (invalid_records l) (total_records l)) w
            else w in
          (Ok (failed_records l), w)
      end
  end.

(** [lambda_handler], once the components are built: the value of
    ['batchItemFailures'], or the exception that leaves the handler after
    the alert of the outer [except]. *)
Definition lambda_handler (event_ : event) (w : world)
    : result (list (string * failure_reason)) * world :=
  let '(start_time, w) := read_clock out w in
  let '(r, w) :=
    match Records event_ with
    | None => (Raise KeyError, w)
    | Some records =>
        match process_records records initial w with
        | (Raise e, w) => (Raise e, w)
        | (Ok l, w) => finish start_time l w
        end
    end in
  match r with
  | Ok failures => (Ok failures, w)
  | Raise e => (Raise e, _send_alert (FunctionFailed e) w)
  end.
End LambdaHandler.

End Handler.

(** * Vocabulary of the statements *)

Module ValidatorSpec.
Import Validator.

(** [field not in record] *)
Definition absent (record : dict) (field : string) : bool :=
  match record !! field with
  | None => true
  | Some _ => false
  end.

(** The required fields that [record] lacks, in the order checked. *)
Definition missing_fields (record : dict) : list string :=
  filter (fun field => absent record field = true) required_fields.

(** What each entry of [errors] costs. *)
Definition weight (r : reason) : R :=
  match r with
  | MissingField _ => 0.2
  | PriceOutOfRange _ _ _ | InvalidPriceFormat => 0.3
  | VolumeBelowMin _ _ | InvalidVolumeFormat => 0.2
  | TimestampTooOld _ | InvalidTimestampFormat => 0.1
  | InvalidExchange _ => 0.2
  end%R.

Definition total_weight (l : list reason) : R :=
  foldr (fun r s => (weight r + s)%R) 0%R l.

Definition is_missing (r : reason) : bool :=
  match r with
  | MissingField _ => true
  | _ => false
  end.

(** What a step of [validate_record] does to [(errors, score)]: it
    appends [extra] and subtracts its weight. *)
Definition extends (a a' : acc) (extra : list reason) : Prop :=
  a'.1 = (a.1 ++ extra)%list /\ a'.2 = (a.2 - total_weight extra)%R.

(** [exchange], when present, is text: [record['exchange'].lower()] does
    not raise. *)
Definition exchange_is_text (record : dict) : Prop :=
  match record !! "exchange" with
  | None | Some (PStr _) => True
  | Some _ => False
  end.

(** What the staleness test of [validate_record] answers at the clock
    reading [current_time]; [None] when the test is not reached. *)
Definition stale (rt : runtime) (self : DataQualityValidator)
    (current_time : Z) (record : dict) : option bool :=
  match record !! "timestamp" with
  | None => None
  | Some v =>
      match int_ rt v with
      | Ok timestamp =>
          Some (timestamp_tolerance self * 1000 <? Z.abs (current_time - timestamp))%Z
      | Raise _ => None
      end
  end.

End ValidatorSpec.

Module ValidatorExamples.

(** A fresh Binance trade that lacks its [symbol]. *)
Definition trade_without_symbol : dict :=
  <["volume" := PInt 1]>
    (<["price" := PInt 100]>
       (<["timestamp" := PInt 0]> (<["exchange" := PStr "binance"]> ∅))).

(** A trade with a negative price. *)
Definition trade_negative_price : dict :=
  <["volume" := PInt 1]>
    (<["price" := PInt (-5)]>
       (<["timestamp" := PInt 0]>
          (<["symbol" := PStr "btcusdt"]> (<["exchange" := PStr "binance"]> ∅)))).

(** The first component of a result of [validate_record]. *)
Definition accepted_of (res : result (bool * R * list Validator.reason))
    : option bool :=
  match res with
  | Ok (accepted, _, _) => Some accepted
  | Raise _ => None
  end.

End ValidatorExamples.

Module WriterSpec.
Import Writer.

(** [y]-[m]-[d] is a date of the calendar. *)
Definition valid_date (y m d : Z) : Prop :=
  1 <= m <= 12 /\ 1 <= d <= days_in_month y m.

(** The month and the day of the [n]-th day (from 0) of a year. *)
Definition month_day (leapyear : bool) (n : Z) : Z * Z :=
  let m := Z.shiftr (n + 50) 5 in
  let preceding :=
    days_before_month_common m + (if ((2 <? m)%Z && leapyear) then 1 else 0) in
  if (n <? preceding)%Z
  then
    let m' := m - 1 in
    let dim :=
      if (m' =? 2)%Z then (if leapyear then 29 else 28)
      else if ((m' =? 4) || (m' =? 6) || (m' =? 9) || (m' =? 11))%Z then 30
      else 31 in
    (m', n - (preceding - dim) + 1)
  else (m, n - preceding + 1).

(** The test that [month_day] returns a month, a day of that month, and
    the two that make the [n]-th day of the year. *)
Definition month_day_ok (leapyear : bool) (n : Z) : bool :=
  let '(m, d) := month_day leapyear n in
  ((1 <=? m) && (m <=? 12) && (1 <=? d)
   && (d <=? (if (m =? 2) then (if leapyear then 29 else 28)
              else if ((m =? 4) || (m =? 6) || (m =? 9) || (m =? 11)) then 30
              else 31))
   && (days_before_month_common m
       + (if ((2 <? m) && leapyear) then 1 else 0) + d =? n + 1))%Z.

(** [f lo && f (lo + 1) && ... && f (lo + n - 1)] *)
Fixpoint forall_from (f : Z -> bool) (lo : Z) (n : nat) : bool :=
  match n with
  | O => true
  | S n' => f lo && forall_from f (lo + 1) n'
  end.

End WriterSpec.

Module WriterExamples.

Definition binance_trade_at (timestamp : pyval) : dict :=
  <["timestamp" := timestamp]>
    (<["symbol" := PStr "btcusdt"]> (<["exchange" := PStr "binance"]> ∅)).

Definition trade_without_timestamp : dict :=
  <["symbol" := PStr "btcusdt"]> (<["exchange" := PStr "binance"]> ∅).

End WriterExamples.

Module WriterClaims.
Import Writer WriterSpec.

(** [key] is the partition key of [exchange] and [symbol] for the UTC hour
    that contains the instant [s] seconds after the epoch: the year, and
    month, day and hour on two digits, of the calendar date whose ordinal is
    the day of [s]. *)
Definition key_of_instant (exchange symbol : string) (s : Z) (key : string)
    : Prop :=
  exists Y M D H,
    key = exchange ++ "/" ++ symbol
            ++ "/year=" ++ repr_int Y
            ++ "/month=" ++ fmt_02d M
            ++ "/day=" ++ fmt_02d D
            ++ "/hour=" ++ fmt_02d H
    /\ valid_date Y M D
    /\ ymd2ord Y M D = s / 86400 + 719163
    /\ H = (s / 3600) mod 24.

End WriterClaims.

Module ProducerSpec.
Import Producer.

(** The world in which a flush leaves a batch that every attempt failed
    to send: [attempts] more calls of [put_records], each with the whole
    buffer, the back-off [sleeps], the batch counted as failed, the buffer
    empty. *)
Definition dropped (w : world) (attempts : nat) (sleeps : list Z) : world :=
  let p := producer w in
  {| producer :=
       {| batch_size := batch_size p; max_retries := max_retries p;
          records_buffer := [];
          total_records_sent := total_records_sent p;
          failed_records := failed_records p + len (records_buffer p) |};
     stream := stream w;
     put_calls := (put_calls w ++ replicate attempts (records_buffer p))%list;
     slept := (slept w ++ sleeps)%list;
     flush_calls := flush_calls w |}.

(** The two connectors, and what each calls the fields of a trade. *)
Inductive exchange_kind : Set := Binance | Coinbase.

Definition symbol_field (k : exchange_kind) : string :=
  match k with Binance => "s" | Coinbase => "product_id" end.

Definition time_field (k : exchange_kind) : string :=
  match k with Binance => "T" | Coinbase => "time" end.

Definition price_field (k : exchange_kind) : string :=
  match k with Binance => "p" | Coinbase => "price" end.

Definition volume_field (k : exchange_kind) : string :=
  match k with Binance => "q" | Coinbase => "size" end.

(** The message is of the type that carries a trade. *)
Definition is_trade (k : exchange_kind) (data : dict) : Prop :=
  match k with
  | Binance => data !! "e" = Some (PStr "trade")
  | Coinbase => data !! "type" = Some (PStr "match")
  end.

Definition decode (rt : runtime) (k : exchange_kind)
    : message -> result (option MarketData) :=
  match k with
  | Binance => binance_process_message rt
  | Coinbase => coinbase_process_message rt
  end.

(** The field is absent or text: [.lower()] does not raise on it. *)
Definition text_or_absent (data : dict) (field : string) : Prop :=
  match data !! field with
  | None | Some (PStr _) => True
  | Some _ => False
  end.

(** The field is absent, a number, or text: [float] does not raise
    [TypeError] on it. *)
Definition number_or_text (rt : runtime) (data : dict) (field : string)
    : Prop :=
  match data !! field with
  | None => True
  | Some v => float_ rt v <> Raise TypeError
  end.

(** The field holds text that [float] does not parse. *)
Definition unparsable (rt : runtime) (data : dict) (field : string) : Prop :=
  exists v, data !! field = Some v /\ float_ rt v = Raise ValueError.

(** A required field is absent, or the price or the volume does not
    parse. *)
Definition incomplete (rt : runtime) (k : exchange_kind) (data : dict) : Prop :=
  data !! symbol_field k = None \/ data !! time_field k = None
  \/ data !! price_field k = None \/ data !! volume_field k = None
  \/ unparsable rt data (price_field k) \/ unparsable rt data (volume_field k).

End ProducerSpec.

Module ProducerExamples.
Import Producer.

Definition binance_trade : dict :=
  <["T" := PInt 1640995200000]>
    (<["q" := PInt 1]>
       (<["p" := PInt 50000]>
          (<["s" := PStr "BTCUSDT"]> (<["e" := PStr "trade"]> ∅)))).

(** The same trade without its quantity [q]. *)
Definition binance_trade_without_quantity : dict :=
  <["T" := PInt 1640995200000]>
    (<["p" := PInt 50000]>
       (<["s" := PStr "BTCUSDT"]> (<["e" := PStr "trade"]> ∅))).

(** The trade that [binance_trade] decodes to. *)
Definition btc_trade : MarketData :=
  {| exchange := "binance"; symbol := "btcusdt";
     timestamp := PStr "1640995200000";
     price := 50000; volume := 1; bid := None; ask := None;
     trade_id := PNone; quality_score := Some 1%R |}.

(** A producer that holds one record, on a stream that refuses every
    call. *)
Definition refusing_world : world :=
  {| producer :=
       {| batch_size := 500; max_retries := 3;
          records_buffer := [{| Data := btc_trade; PartitionKey := "btcusdt" |}];
          total_records_sent := 0; failed_records := 0 |};
     stream := fun _ => Raises ClientError;
     put_calls := []; slept := []; flush_calls := 0 |}.

(** A stream that accepts every batch whole. *)
Definition accepting : nat -> put_response := fun _ => Response 0.

End ProducerExamples.

Module StreamerExamples.
Import Producer ProducerExamples.

(** One websocket session: a trade is delivered, the shutdown signal
    arrives, the next message makes the task leave its loop. *)
Definition signalled_after_one_trade : list step :=
  [Connected [Message (Ok binance_trade); Signal; Message (Ok binance_trade)]
     Closed].

(** Two failures to connect, then a session that delivers one trade and
    breaks. *)
Definition breaks_after_delivery : list step :=
  [ConnectFails; ConnectFails; Connected [Message (Ok binance_trade)] Broken].

(** The same, with a session that the peer closes, and a failure to
    connect after it. *)
Definition closes_after_delivery : list step :=
  [ConnectFails; ConnectFails; Connected [Message (Ok binance_trade)] Closed;
   ConnectFails].

Definition run_binance (script : list step)
    : task_status * MarketDataStreamer :=
  main default_bounds accepting [(BinanceConnector plain_runtime, script)].

End StreamerExamples.

Module EnricherSpec.
Import Enricher.

(** The sum of a list, without an order of evaluation. *)
Definition total (l : list R) : R := fold_right Rplus 0%R l.

Definition arithmetic_mean (l : list R) : R := (total l / INR (length l))%R.

(** The mean of the squared deviations from the arithmetic mean. *)
Definition mean_squared_deviation (l : list R) : R :=
  (total (map (fun p => Rsqr (p - arithmetic_mean l)) l) / INR (length l))%R.

(** A call of [enrich_record] is for the symbol [sym] and carries the
    price [p]. *)
Definition call_for (rt : runtime) (sym : pyval) (call : string * dict)
    (p : R) : Prop :=
  default (PStr "unknown") (call.2 !! "symbol") = sym
  /\ float_ rt (default (PInt 0) (call.2 !! "price")) = Ok p.

(** The history of [sym] in [self] is what a bounded history keeps of the
    prices [ps]. *)
Definition tracks (self : DataEnricher) (sym : pyval) (ps : list R) : Prop :=
  default [] (hist_get (price_history self) sym)
  = last_n (max_history_size self) ps.

End EnricherSpec.

Module EnricherExamples.

Definition btc_call (price : Z) : string * dict :=
  ("2024-01-01T00:00:00+00:00",
   <["price" := PInt price]> (<["symbol" := PStr "btcusdt"]> ∅)).

(** Ten calls for one symbol, with the prices 101 to 110. *)
Definition ten_prices : list Z := [101; 102; 103; 104; 105; 106; 107; 108; 109; 110].

Definition ten_calls : list (string * dict) := map btc_call ten_prices.

End EnricherExamples.

(** * Further vocabulary: the producer *)

Module ProducerMore.
Import Producer.

(** The buffer entry that [put_record] builds for a trade. *)
Definition to_record (market_data : MarketData) : kinesis_record :=
  {| Data := market_data; PartitionKey := symbol market_data |}.

(** Successive calls of [put_record], results dropped as the streamer
    drops them. *)
Definition put_all (trades : list MarketData) (w : world) : world :=
  foldl (fun w market_data => (put_record market_data w).2) w trades.

(** The stream answers every call or refuses it with [ClientError], and
    never reports a negative number of failed records. *)
Definition answers_or_refuses (stream : nat -> put_response) : Prop :=
  forall i,
    stream i = Raises ClientError
    \/ exists failed_count, stream i = Response failed_count /\ 0 <= failed_count.

(** The stream accepts every batch whole. *)
Definition accepts_all (stream : nat -> put_response) : Prop :=
  forall i, stream i = Response 0.

(** The records the producer has been given and still answers for: sent,
    failed, or waiting in the buffer. *)
Definition accounted (w : world) : Z :=
  total_records_sent (producer w) + failed_records (producer w)
  + len (records_buffer (producer w)).

(** The world after a flush whose [failures] first attempts were refused
    and whose next attempt was answered with [failed_count]. *)
Definition delivered (w : world) (failures : nat) (failed_count : Z) : world :=
  let p := producer w in
  {| producer :=
       {| batch_size := batch_size p; max_retries := max_retries p;
          records_buffer := [];
          total_records_sent :=
            total_records_sent p + (len (records_buffer p) - failed_count);
          failed_records :=
            if (0 <? failed_count)%Z then failed_records p + failed_count
            else failed_records p |};
     stream := stream w;
     put_calls :=
       (put_calls w ++ replicate (S failures) (records_buffer p))%list;
     slept := (slept w ++ map (Z.pow 2) (seqZ 0 (Z.of_nat failures)))%list;
     flush_calls := flush_calls w |}.

(** [get_stats]: the three counters and the success rate. *)
Record stats : Type := {
  stats_total_records_sent : Z;
  stats_failed_records : Z;
  stats_buffer_size : Z;
  stats_success_rate : R
}.

Definition get_stats (self : KinesisProducer) : stats :=
  {| stats_total_records_sent := total_records_sent self;
     stats_failed_records := failed_records self;
     stats_buffer_size := len (records_buffer self);
     stats_success_rate :=
       if (0 <? total_records_sent self + failed_records self)%Z
       then (IZR (total_records_sent self)
             / IZR (total_records_sent self + failed_records self))%R
       else 1.0%R |}.

End ProducerMore.

Module ProducerMoreExamples.
Import Producer ProducerExamples.

(** A producer that holds one record, on the stream [stream]. *)
Definition holding_one_record (stream : nat -> put_response) : world :=
  {| producer :=
       {| batch_size := 500; max_retries := 3;
          records_buffer := [{| Data := btc_trade; PartitionKey := "btcusdt" |}];
          total_records_sent := 0; failed_records := 0 |};
     stream := stream; put_calls := []; slept := []; flush_calls := 0 |}.

(** A stream that refuses the first call and accepts the others. *)
Definition one_refusal : nat -> put_response :=
  fun i => match i with O => Raises ClientError | S _ => Response 0 end.

(** A producer with a batch size of two that holds one record, on the
    stream [stream]. *)
Definition one_below_batch (stream : nat -> put_response) : world :=
  {| producer :=
       {| batch_size := 2; max_retries := 3;
          records_buffer := [{| Data := btc_trade; PartitionKey := "btcusdt" |}];
          total_records_sent := 0; failed_records := 0 |};
     stream := stream; put_calls := []; slept := []; flush_calls := 0 |}.

(** A stream whose every call breaks with an error of the connection. *)
Definition broken : nat -> put_response := fun _ => Raises OSError.

End ProducerMoreExamples.

(** * Further vocabulary: connectors and streamer *)

Module ConnectorMore.
Import Producer ProducerSpec.

(** The message is not of the type that carries a trade, as each
    connector tests it. *)
Definition not_a_trade (k : exchange_kind) (data : dict) : Prop :=
  match k with
  | Binance =>
      match data !! "e" with
      | None => True
      | Some e => eq_str e "trade" = false
      end
  | Coinbase => eq_str (get data "type") "match" = false
  end.

(** How each connector writes a symbol. *)
Definition normalize (k : exchange_kind) (s : string) : string :=
  match k with
  | Binance => lower s
  | Coinbase => remove_dashes (lower s)
  end.

Definition name_of (k : exchange_kind) : string :=
  match k with Binance => "binance" | Coinbase => "coinbase" end.

(** An upper-case ASCII letter. *)
Definition upper (c : ascii) : bool :=
  ((65 <=? nat_of_ascii c) && (nat_of_ascii c <=? 90))%nat.

(** No character of [s] is an upper-case ASCII letter, or a dash when
    [no_dash] is set. *)
Fixpoint plain (no_dash : bool) (s : string) : bool :=
  match s with
  | EmptyString => true
  | String c s' =>
      negb (upper c) && negb (no_dash && Ascii.eqb c "-"%char)
      && plain no_dash s'
  end.

(** A record of the buffer, or of a batch handed to [put_records]. *)
Definition handed_over (w : world) (r : kinesis_record) : Prop :=
  r ∈ records_buffer (producer w)
  \/ exists batch, batch ∈ put_calls w /\ r ∈ batch.

(** Every record that the producer holds or has sent carries a trade that
    passes [validate]. *)
Definition only_valid (env : bounds) (w : world) : Prop :=
  forall r, handed_over w r -> validate env (Data r) = true.

(** The waits of a task that fails to connect [n] times in a row. *)
Definition backoff (delay : Z) (n : nat) : list Z :=
  map (fun i => Z.min (2 ^ i) delay) (seqZ 1 (Z.of_nat n)).

(** The streamer after the waits [delays]. *)
Definition waited (self : MarketDataStreamer) (delays : list Z)
    : MarketDataStreamer :=
  {| running := running self; kinesis := kinesis self;
     reconnect_sleeps := (reconnect_sleeps self ++ delays)%list |}.

(** Whether a message is among the items of a session. *)
Definition has_message (items : list ws_item) : bool :=
  existsb (fun item => match item with Message _ => true | Signal => false end)
    items.

(** What [decode] is given: the text is not JSON, or it is a message that
    is not a trade. *)
Definition rejected (k : exchange_kind) (m : message) : Prop :=
  match m with
  | Ok data => not_a_trade k data
  | Raise e => e = JSONDecodeError
  end.

(** The connector object of each exchange. *)
Definition connector_of (rt : runtime) (k : exchange_kind)
    : ExchangeConnector :=
  match k with
  | Binance => BinanceConnector rt
  | Coinbase => CoinbaseConnector rt
  end.

End ConnectorMore.

Module ConnectorMoreExamples.
Import Producer.

(** A Binance message of another type than a trade. *)
Definition binance_kline : dict :=
  <["s" := PStr "BTCUSDT"]> (<["e" := PStr "kline"]> ∅).

(** A Coinbase match. *)
Definition coinbase_match : dict :=
  <["time" := PStr "2022-01-01T00:00:00.000Z"]>
    (<["size" := PInt 2]>
       (<["price" := PInt 50000]>
          (<["product_id" := PStr "BTC-USD"]> (<["type" := PStr "match"]> ∅)))).

(** A Binance trade whose symbol is a number. *)
Definition binance_numeric_symbol : dict :=
  <["s" := PInt 7]> (<["e" := PStr "trade"]> ∅).

End ConnectorMoreExamples.
Module ValidatorMore.
Import Validator ValidatorSpec.

(** The entries of [errors] that are about the price value. *)
Definition about_price (r : reason) : bool :=
  match r with
  | PriceOutOfRange _ _ _ | InvalidPriceFormat => true
  | _ => false
  end.

(** What the four value checks of [validate_record] look for; a field
    that is absent passes its value check. *)
Definition price_ok (rt : runtime) (self : DataQualityValidator)
    (record : dict) : Prop :=
  match record !! "price" with
  | None => True
  | Some v =>
      exists price,
        float_ rt v = Ok price
        /\ (min_price self <= price <= max_price self)%R
  end.

Definition volume_ok (rt : runtime) (self : DataQualityValidator)
    (record : dict) : Prop :=
  match record !! "volume" with
  | None => True
  | Some v =>
      exists volume, float_ rt v = Ok volume /\ (min_volume self <= volume)%R
  end.

Definition timestamp_ok (rt : runtime) (self : DataQualityValidator)
    (current_time : Z) (record : dict) : Prop :=
  match record !! "timestamp" with
  | None => True
  | Some v =>
      exists timestamp,
        int_ rt v = Ok timestamp
        /\ Z.abs (current_time - timestamp) <= timestamp_tolerance self * 1000
  end.

Definition exchange_ok (record : dict) : Prop :=
  match record !! "exchange" with
  | None => True
  | Some (PStr s) => lower s ∈ valid_exchanges
  | Some _ => False
  end.

(** A record without a defect: the five required fields and four values
    that pass. *)
Definition clean (rt : runtime) (self : DataQualityValidator)
    (current_time : Z) (record : dict) : Prop :=
  missing_fields record = []
  /\ price_ok rt self record
  /\ volume_ok rt self record
  /\ timestamp_ok rt self current_time record
  /\ exchange_ok record.

(** A value check adds nothing when its value passes, and one entry of
    its own weight otherwise. *)
Definition verdict (w : R) (passes : Prop) (extra : list reason) : Prop :=
  (extra = [] /\ passes)
  \/ (exists r,
        extra = [r] /\ weight r = w /\ is_missing r = false /\ ~ passes).

End ValidatorMore.

Module ValidatorMoreExamples.

(** A complete Binance trade, the exchange in capitals. *)
Definition complete_trade : dict :=
  <["volume" := PFloat 1.5]>
    (<["price" := PInt 100]>
       (<["timestamp" := PInt 1000]>
          (<["symbol" := PStr "btcusdt"]> (<["exchange" := PStr "BINANCE"]> ∅)))).

(** A trade whose exchange is a number. *)
Definition trade_numeric_exchange : dict :=
  <["price" := PInt 100]> (<["exchange" := PInt 7]> ∅).

(** A trade that lacks nothing but its price. *)
Definition trade_without_price : dict :=
  <["volume" := PInt 1]>
    (<["timestamp" := PInt 0]>
       (<["symbol" := PStr "btcusdt"]> (<["exchange" := PStr "binance"]> ∅))).

End ValidatorMoreExamples.
Module EnricherMore.
Import Enricher EnricherSpec.

(** [record.get('symbol', 'unknown')] and [float(record.get('price', 0))] *)
Definition symbol_of (record : dict) : pyval :=
  default (PStr "unknown") (record !! "symbol").

Definition price_of (rt : runtime) (record : dict) : result R :=
  float_ rt (default (PInt 0) (record !! "price")).

(** The prices of the calls whose symbol is the key [sym], in order. *)
Fixpoint prices_for (rt : runtime) (sym : pyval) (calls : list (string * dict))
    : list R :=
  match calls with
  | [] => []
  | (_, record) :: calls' =>
      (if key_eqb (symbol_of record) sym
       then match price_of rt record with
            | Ok price => [price]
            | Raise _ => []
            end
       else []) ++ prices_for rt sym calls'
  end%list.

(** The prices seen for the symbol of [record] once it is enriched after
    the calls [before]: those of the calls for its symbol, and its own. *)
Definition prices_seen (rt : runtime) (before : list (string * dict))
    (record : dict) (price : R) : list R :=
  (prices_for rt (symbol_of record) before ++ [price])%list.

(** A call whose price converts and whose symbol can be a key. *)
Definition callable (rt : runtime) (call : string * dict) : Prop :=
  (exists price, price_of rt call.2 = Ok price)
  /\ hashable (symbol_of call.2) = true.

(** The classes of keys that Python's [==] tells apart. *)
Inductive key_class : Type :=
| NoneKey
| TextKey (s : string)
| NumberKey (x : R).

Definition class_of (v : pyval) : option key_class :=
  match v with
  | PNone => Some NoneKey
  | PStr s => Some (TextKey s)
  | _ => NumberKey <$> number v
  end.

(** The fields that [enrich_record] may write. *)
Definition derived_keys : list string :=
  ["processed_at"; "spread"; "spread_percentage"; "price_change";
   "price_change_percentage"; "sma_5"; "sma_10"; "volatility"].

(** [bid] and [ask] are both present, convert, and are positive. *)
Definition quoted (rt : runtime) (record : dict) (bid ask : R) : Prop :=
  exists vb va,
    record !! "bid" = Some vb /\ record !! "ask" = Some va
    /\ float_ rt vb = Ok bid /\ float_ rt va = Ok ask
    /\ (0 < bid)%R /\ (0 < ask)%R.

(** The histories after a run of calls: for each key, the last
    [max_history_size] prices of the calls for that key. *)
Definition follows (rt : runtime) (self : DataEnricher)
    (calls : list (string * dict)) : Prop :=
  forall sym,
    hashable sym = true ->
    default [] (hist_get (price_history self) sym)
    = last_n (max_history_size self) (prices_for rt sym calls).

End EnricherMore.

Module EnricherMoreExamples.

Definition at_noon : string := "2024-01-01T12:00:00+00:00".

Definition call (symbol : string) (price : Z) : string * dict :=
  (at_noon, <["price" := PInt price]> (<["symbol" := PStr symbol]> ∅)).

(** Calls for two symbols, interleaved. *)
Definition two_symbols : list (string * dict) :=
  [call "btcusdt" 100; call "ethusdt" 7; call "btcusdt" 102;
   call "btcusdt" 104; call "ethusdt" 9; call "btcusdt" 106].

(** A quote with its bid and ask, and a field of the sender's own. *)
Definition quote : dict :=
  <["note" := PStr "kept"]>
    (<["ask" := PInt 103]>
       (<["bid" := PInt 100]>
          (<["price" := PInt 101]> (<["symbol" := PStr "btcusdt"]> ∅)))).

(** A record whose price is text that is not a number. *)
Definition unpriced : dict :=
  <["price" := PStr "n/a"]> (<["symbol" := PStr "btcusdt"]> ∅).

End EnricherMoreExamples.
Module StorageSpec.
Import Writer Aws Storage.

(** The [try] of [_get_partition_key]: the instant of the record. *)
Definition instant_of (rt : runtime) (record : dict) : result datetime :=
  timestamp ← int_ rt (default (PInt 0) (record !! "timestamp"));
  fromtimestamp_ms timestamp.

(** An exception leaves [_get_partition_key]: its [try] raises one that
    its [except] does not catch. *)
Definition key_fails (rt : runtime) (record : dict) : bool :=
  match instant_of rt record with
  | Ok _ => false
  | Raise e => negb (bool_decide (e ∈ [ValueError; TypeError]))
  end.

(** The record carries its own instant: the key is made without the
    clock. *)
Definition timely (rt : runtime) (record : dict) : Prop :=
  exists dt, instant_of rt record = Ok dt.

(** The key of a timely record. *)
Definition key_of (rt : runtime) (record : dict) : string :=
  match _get_partition_key rt 0 record with
  | Ok partition_key => partition_key
  | Raise _ => ""
  end.

(** The partitions that timely records make. *)
Definition grouped (rt : runtime) (buffer : list dict) : partitions :=
  foldl (fun p record => add_to_partition p (key_of rt record) record)
    [] buffer.

(** The records that a list of calls carries. *)
Definition records_of (calls : list put_object_call) : list dict :=
  concat (map (fun call => records (Body call)) calls).

(** [add_record] for each record in turn. *)
Definition add_records (rt : runtime) (out : outside) (records : list dict)
    (self : S3Writer) (w : world) : S3Writer * world :=
  foldl (fun sw record => add_record rt out record sw.1 sw.2) (self, w)
    records.

(** S3 accepts every call from the [n]-th on. *)
Definition s3_accepts_from (out : outside) (n : nat) : Prop :=
  forall i, (n <= i)%nat -> s3 out i = None.

(** Partitions whose keys differ and whose records have the key they are
    filed under. *)
Definition filed (rt : runtime) (p : partitions) : Prop :=
  NoDup (map fst p)
  /\ Forall (fun kr => forall r, r ∈ kr.2 ->
               exists now, _get_partition_key rt now r = Ok kr.1) p.

End StorageSpec.

Module StorageExamples.
Import Aws Storage.

Definition trade_at (symbol : string) (timestamp : Z) : dict :=
  <["timestamp" := PInt timestamp]>
    (<["symbol" := PStr symbol]> (<["exchange" := PStr "binance"]> ∅)).

(** Three trades of the first hour of 1970, of two symbols. *)
Definition three_trades : list dict :=
  [trade_at "btcusdt" 1000; trade_at "ethusdt" 2000; trade_at "btcusdt" 3000].

Definition holding (buffer : list dict) : S3Writer :=
  {| bucket_name := "crypto-analytics-data"; raw_prefix := "raw/";
     batch_size := 100; records_buffer := buffer |}.

(** A writer that flushes at every second record. *)
Definition pairing : S3Writer :=
  {| bucket_name := "crypto-analytics-data"; raw_prefix := "raw/";
     batch_size := 2; records_buffer := [] |}.

(** A clock that stands still, and services that accept every call. *)
Definition still : outside :=
  {| clock := fun _ => 5000000; s3 := fun _ => None;
     cloudwatch := fun _ => None; sns := fun _ => None |}.

(** The same, with an S3 that refuses its second call. *)
Definition refusing_second : outside :=
  {| clock := fun _ => 5000000;
     s3 := fun n => if (n =? 1)%nat then Some ClientError else None;
     cloudwatch := fun _ => None; sns := fun _ => None |}.

End StorageExamples.
Module MetricsSpec.
Import Aws Metrics.

(** The arguments of a call of [record_metric]: name, value, unit and
    dimensions. *)
Definition recording : Type :=
  string * pyval * string * option (list (string * pyval)).

(** The metric that [record_metric] builds from its arguments at the
    clock reading [t]. *)
Definition built (call : recording) (t : Z) : metric :=
  let '(metric_name, value, unit_, dimensions) := call in
  {| MetricName := metric_name; Value := value; Unit := unit_;
     Timestamp := t;
     Dimensions := match dimensions with
                   | Some (d :: ds) => Some (d :: ds)
                   | _ => None
                   end |}.

(** [record_metric] for each call in turn, as long as none raises. *)
Fixpoint record_all (out : outside) (calls : list recording)
    (self : CloudWatchMetrics) (w : world)
    : result unit * CloudWatchMetrics * world :=
  match calls with
  | [] => (Ok tt, self, w)
  | (metric_name, value, unit_, dimensions) :: calls' =>
      match record_metric out metric_name value unit_ dimensions self w with
      | (Ok _, self, w) => record_all out calls' self w
      | (Raise e, self, w) => (Raise e, self, w)
      end
  end.

(** Of the calls made, from the [i]-th call of the service on, those that
    returned. *)
Fixpoint accepted_from {A : Type} (answers : nat -> option exn) (i : nat)
    (calls : list A) : list A :=
  match calls with
  | [] => []
  | call :: calls' =>
      (match answers i with
       | None => [call]
       | Some _ => []
       end ++ accepted_from answers (S i) calls')%list
  end.

(** The metrics that CloudWatch has received. *)
Definition published (out : outside) (w : world) : list metric :=
  concat (map MetricData
            (accepted_from (cloudwatch out) 0 (put_metric_data_calls w))).

(** CloudWatch answers every call, or refuses it with [ClientError]. *)
Definition cloudwatch_answers (out : outside) : Prop :=
  forall n, cloudwatch out n = None \/ cloudwatch out n = Some ClientError.

(** The clock readings from the [n]-th on. *)
Definition readings (out : outside) (n count : nat) : list Z :=
  map (clock out) (seq n count).

End MetricsSpec.

Module MetricsExamples.
Import Aws Metrics.

(** A clock that stands still and a CloudWatch that refuses its first
    call. *)
Definition refusing_first : outside :=
  {| clock := fun _ => 5000000; s3 := fun _ => None;
     cloudwatch := fun n => if (n =? 0)%nat then Some ClientError else None;
     sns := fun _ => None |}.

(** A buffer limit of two. *)
Definition small_buffer : CloudWatchMetrics :=
  {| namespace := "CryptoAnalytics"; metrics_buffer := [];
     max_buffer_size := 2 |}.

Definition count_of (metric_name : string)
    : string * pyval * string * option (list (string * pyval)) :=
  (metric_name, PInt 1, "Count", None).

End MetricsExamples.
Module HandlerSpec.
Import Aws Handler.

(** The metrics recorded while the records are processed. *)
Definition live_names : list string :=
  ["RecordsProcessed"; "DataQualityScore"; "InvalidRecords"].

Definition live (m : metric) : Prop := MetricName m ∈ live_names.

(** Every metric sent to CloudWatch so far is one of those. *)
Definition calls_live (w : world) : Prop :=
  Forall (fun call => Forall live (MetricData call)) (put_metric_data_calls w).

(** The local [metrics] has the buffer limit of its constructor and holds
    only such metrics. *)
Definition buffer_live (l : locals) : Prop :=
  Metrics.max_buffer_size (metrics l) = 20
  /\ Forall live (Metrics.metrics_buffer (metrics l)).

(** The statistics of [lambda_handler]. *)
Definition counts (l : locals)
    : Z * Z * Z * list (string * failure_reason) :=
  (total_records l, valid_records l, invalid_records l, failed_records l).

(** What one record does to the statistics: it is counted as valid; or
    it is rejected by the validator, and listed if the dead-letter queue is
    enabled; or its processing raised, and it is listed. *)
Inductive outcome : Type :=
| Processed
| Rejected (errors : list Validator.reason)
| Failed (e : exn).

Definition counted (env : environment) (i : string) (o : outcome)
    (before : Z * Z * Z * list (string * failure_reason))
    : Z * Z * Z * list (string * failure_reason) :=
  let '(total, valid, invalid, failed) := before in
  match o with
  | Processed => (total + 1, valid + 1, invalid, failed)
  | Rejected errors =>
      (total + 1, valid, invalid + 1,
       if dlq_enabled env
       then (failed ++ [(i, ValidationFailed errors)])%list
       else failed)
  | Failed e =>
      (total + 1, valid, invalid + 1,
       (failed ++ [(i, ProcessingError e)])%list)
  end.

(** Every record of the event has its [recordId]. *)
Definition identified (records : list event_record) : Prop :=
  Forall (fun record_ => recordId record_ <> None) records.

(** The topic that [_send_alert] publishes to, if it does. *)
Definition topic (env : environment) : option string :=
  match SNS_TOPIC_ARN env with
  | Some sns_topic_arn =>
      if truthy (PStr sns_topic_arn) then Some sns_topic_arn else None
  | None => None
  end.

(** The calls of [publish] that [_send_alert] makes for [message]. *)
Definition alerts (env : environment) (message : alert) : list publish_call :=
  match topic env with
  | Some sns_topic_arn =>
      [{| TopicArn := sns_topic_arn; Message := message;
          Subject := "Crypto Analytics Alert" |}]
  | None => []
  end.

(** The listed failures are processing errors. *)
Definition is_processing_error (f : string * failure_reason) : bool :=
  match f.2 with
  | ProcessingError _ => true
  | ValidationFailed _ => false
  end.

End HandlerSpec.

Module HandlerExamples.
Import Aws Handler.

(** A complete trade, stamped with the reading of the clock [calm]
    below. *)
Definition good : dict :=
  <["volume" := PInt 1]>
    (<["price" := PInt 100]>
       (<["timestamp" := PInt 5000]>
          (<["symbol" := PStr "btcusdt"]>
             (<["exchange" := PStr "binance"]> ∅)))).

(** A record that only has a volume. *)
Definition poor : dict := <["volume" := PInt 1]> ∅.

Definition with_id (i : string) (payload : result dict) : event_record :=
  {| recordId := Some i; data := payload |}.

(** A record of the event that has no [recordId]. *)
Definition without_id (payload : result dict) : event_record :=
  {| recordId := None; data := payload |}.

Definition event_of (records : list event_record) : event :=
  {| Records := Some records |}.

(** A clock that stands still, and services that accept every call. *)
Definition calm : outside :=
  {| clock := fun _ => 5000000; s3 := fun _ => None;
     cloudwatch := fun _ => None; sns := fun _ => None |}.

(** The default environment with a topic for the alerts. *)
Definition alerting : environment :=
  {| validator_config := Validator.default_validator;
     S3_BUCKET_NAME := "crypto-analytics-data";
     S3_RAW_DATA_PREFIX := "raw/";
     S3_BATCH_SIZE := 100;
     CLOUDWATCH_METRIC_NAMESPACE := "CryptoAnalytics";
     DLQ_ENABLED := None;
     SNS_TOPIC_ARN := Some "arn:aws:sns:alerts" |}.

Definition isoformat_plain : Z -> string := fun _ => "2024-01-01T00:00:00".

(** The same clock, with a CloudWatch whose every call breaks with an
    error of the connection. *)
Definition unreachable : outside :=
  {| clock := fun _ => 5000000; s3 := fun _ => None;
     cloudwatch := fun _ => Some OSError; sns := fun _ => None |}.

(** The locals of a run whose metrics buffer is one below its limit. *)
Definition nearly_full : locals :=
  {| validator := Validator.default_validator;
     enricher := Enricher.new_enricher;
     s3_writer := Storage.new_writer;
     metrics :=
       {| Metrics.namespace := "CryptoAnalytics";
          Metrics.metrics_buffer :=
            replicate 19
              {| MetricName := "RecordsProcessed"; Value := PInt 1;
                 Unit := "Count"; Timestamp := 5000000;
                 Dimensions := None |};
          Metrics.max_buffer_size := 20 |};
     total_records := 9; valid_records := 9; invalid_records := 0;
     failed_records := [] |}.

End HandlerExamples.

(** * Facts *)

Module PyFacts.

Lemma Rleb_true x y : (x <= y)%R -> Rleb x y = true.
Proof. unfold Rleb; destruct (Rle_dec x y); [reflexivity | contradiction]. Qed.

Lemma Rleb_false x y : (y < x)%R -> Rleb x y = false.
Proof. unfold Rleb; destruct (Rle_dec x y); [lra | reflexivity]. Qed.

Lemma Rltb_true x y : (x < y)%R -> Rltb x y = true.
Proof. unfold Rltb; destruct (Rlt_dec x y); [reflexivity | contradiction]. Qed.

Lemma Rltb_false x y : (y <= x)%R -> Rltb x y = false.
Proof. unfold Rltb; destruct (Rlt_dec x y); [lra | reflexivity]. Qed.

(** [float] and [int] raise nothing but [ValueError] and [TypeError]. *)
Lemma float_raises rt v e :
  float_ rt v = Raise e -> e = ValueError \/ e = TypeError.
Proof.
  destruct v as [| b | z | x | s | c]; simpl; try discriminate;
    try (intros [= <-]; auto).
  destruct (float_of_str rt s); [discriminate | intros [= <-]; auto].
Qed.

Lemma int_raises rt v e :
  int_ rt v = Raise e -> e = ValueError \/ e = TypeError.
Proof.
  destruct v as [| b | z | x | s | c]; simpl; try discriminate;
    try (intros [= <-]; auto).
  destruct (int_of_str rt s); [discriminate | intros [= <-]; auto].
Qed.

End PyFacts.

(** Evaluation of a closed call: the lookups in a concrete dict and the
    decidable tests are computed, the control flow is simplified, and a
    comparison of two concrete reals is settled by [lra]. *)
Ltac eval_lookups :=
  repeat match goal with
  | |- context [@lookup ?K ?A ?M ?I ?k ?m] =>
      let v := eval vm_compute in (@lookup K A M I k m) in
      progress change (@lookup K A M I k m) with v
  end.

Ltac eval_decides :=
  repeat match goal with
  | |- context [bool_decide ?P] =>
      let v := eval vm_compute in (bool_decide P) in
      progress change (bool_decide P) with v
  end.

Ltac decide_reals :=
  repeat first
    [ rewrite PyFacts.Rleb_true by lra
    | rewrite PyFacts.Rleb_false by lra
    | rewrite PyFacts.Rltb_true by lra
    | rewrite PyFacts.Rltb_false by lra ].

Ltac run :=
  repeat (progress (eval_lookups; eval_decides; simpl; decide_reals)).

Global Arguments Rleb : simpl never.
Global Arguments Rltb : simpl never.

Module ValidatorFacts.
Import Validator ValidatorSpec.

Section Steps.
Context (rt : runtime) (self : DataQualityValidator).
Context (current_time : Z) (record : dict).

Lemma extends_nil a : extends a a [].
Proof. split; [by rewrite app_nil_r | simpl; lra]. Qed.

Lemma extends_push a r :
  extends a (push a r (weight r)) [r].
Proof. split; [done | simpl; lra]. Qed.

Lemma total_weight_app l1 l2 :
  total_weight (l1 ++ l2) = (total_weight l1 + total_weight l2)%R.
Proof.
  induction l1 as [| r l1 IH]; simpl; [lra |].
  fold (total_weight (l1 ++ l2)) (total_weight l1). rewrite IH. lra.
Qed.

Lemma extends_trans a b c l1 l2 :
  extends a b l1 -> extends b c l2 -> extends a c (l1 ++ l2).
Proof.
  intros [H1 H2] [H3 H4]. split.
  - by rewrite H3, H1, app_assoc.
  - rewrite H4, H2, total_weight_app. lra.
Qed.

Lemma check_required_extends a :
  extends a (check_required record a) (map MissingField (missing_fields record)).
Proof.
  unfold check_required, missing_fields, required_fields, extends.
  simpl foldl. unfold check_field, absent.
  rewrite !filter_cons, filter_nil.
  destruct (record !! "exchange"), (record !! "symbol"),
    (record !! "timestamp"), (record !! "price"), (record !! "volume");
    simpl; rewrite <- ?app_assoc; simpl;
    (split; [by rewrite ?app_nil_r | lra]).
Qed.

Lemma check_price_extends a :
  exists a' extra,
    check_price rt self record a = Ok a' /\ extends a a' extra
    /\ Forall (fun r => is_missing r = false) extra.
Proof.
  unfold check_price. destruct (record !! "price") as [v |].
  2: { exists a, []. eauto using extends_nil. }
  destruct (float_ rt v) as [p | e] eqn:Hf; simpl.
  - destruct (negb _).
    + eexists _, [_]. split; [done |]. split; [apply (extends_push a (PriceOutOfRange _ _ _)) |].
      by repeat constructor.
    + exists a, []. eauto using extends_nil.
  - apply PyFacts.float_raises in Hf as [-> | ->]; simpl;
      (eexists _, [_]; split; [done |]; split;
       [apply (extends_push a InvalidPriceFormat) | by repeat constructor]).
Qed.

Lemma check_volume_extends a :
  exists a' extra,
    check_volume rt self record a = Ok a' /\ extends a a' extra
    /\ Forall (fun r => is_missing r = false) extra.
Proof.
  unfold check_volume. destruct (record !! "volume") as [v |].
  2: { exists a, []. eauto using extends_nil. }
  destruct (float_ rt v) as [p | e] eqn:Hf; simpl.
  - destruct (Rltb _ _).
    + eexists _, [_]. split; [done |]. split; [apply (extends_push a (VolumeBelowMin _ _)) |].
      by repeat constructor.
    + exists a, []. eauto using extends_nil.
  - apply PyFacts.float_raises in Hf as [-> | ->]; simpl;
      (eexists _, [_]; split; [done |]; split;
       [apply (extends_push a InvalidVolumeFormat) | by repeat constructor]).
Qed.

Lemma check_timestamp_extends a :
  exists a' extra,
    check_timestamp rt self current_time record a = Ok a' /\ extends a a' extra
    /\ Forall (fun r => is_missing r = false) extra.
Proof.
  unfold check_timestamp. destruct (record !! "timestamp") as [v |].
  2: { exists a, []. eauto using extends_nil. }
  destruct (int_ rt v) as [p | e] eqn:Hf; simpl.
  - destruct (_ <? _)%Z.
    + eexists _, [_]. split; [done |]. split; [apply (extends_push a (TimestampTooOld _)) |].
      by repeat constructor.
    + exists a, []. eauto using extends_nil.
  - apply PyFacts.int_raises in Hf as [-> | ->]; simpl;
      (eexists _, [_]; split; [done |]; split;
       [apply (extends_push a InvalidTimestampFormat) | by repeat constructor]).
Qed.

Lemma check_exchange_extends a :
  exchange_is_text record ->
  exists a' extra,
    check_exchange rt record a = Ok a' /\ extends a a' extra
    /\ Forall (fun r => is_missing r = false) extra.
Proof.
  unfold check_exchange, exchange_is_text.
  destruct (record !! "exchange") as [v |].
  2: { exists a, []. eauto using extends_nil. }
  destruct v; try done. intros _. simpl.
  destruct (negb _).
  - eexists _, [_]. split; [done |]. split; [apply (extends_push a (InvalidExchange _)) |].
    by repeat constructor.
  - exists a, []. eauto using extends_nil.
Qed.

(** [validate_record] returns, and its result is read off the four
    value checks run after the scan of the required fields. *)
Lemma validate_record_steps :
  exchange_is_text record ->
  exists a1 a2 a3 a4 l1 l2 l3 l4,
    let a0 := check_required record ([], 1.0%R) in
    check_price rt self record a0 = Ok a1 /\ extends a0 a1 l1
    /\ check_volume rt self record a1 = Ok a2 /\ extends a1 a2 l2
    /\ check_timestamp rt self current_time record a2 = Ok a3 /\ extends a2 a3 l3
    /\ check_exchange rt record a3 = Ok a4 /\ extends a3 a4 l4
    /\ Forall (fun r => is_missing r = false) (l1 ++ l2 ++ l3 ++ l4)
    /\ validate_record rt self current_time record
       = Ok (Rleb (quality_threshold self) a4.2, Rmax 0.0 a4.2, a4.1).
Proof.
  intros Hex. set (a0 := check_required record ([], 1.0%R)).
  destruct (check_price_extends a0) as (a1 & l1 & E1 & X1 & F1).
  destruct (check_volume_extends a1) as (a2 & l2 & E2 & X2 & F2).
  destruct (check_timestamp_extends a2) as (a3 & l3 & E3 & X3 & F3).
  destruct (check_exchange_extends a3 Hex) as (a4 & l4 & E4 & X4 & F4).
  exists a1, a2, a3, a4, l1, l2, l3, l4. simpl.
  repeat split; try done; try apply X1; try apply X2; try apply X3; try apply X4.
  - by repeat (apply Forall_app; split).
  - unfold validate_record. fold a0.
    unfold mbind, result_bind. rewrite E1. simpl. rewrite E2. simpl.
    rewrite E3. simpl. by rewrite E4.
Qed.
End Steps.

End ValidatorFacts.

Module ValidatorTheorems.
Import Validator ValidatorSpec ValidatorFacts ValidatorExamples.

Lemma total_weight_missing (fields : list string) :
  total_weight (map MissingField fields) = (0.2 * INR (length fields))%R.
Proof.
  induction fields as [| f fields IH]; [simpl; lra |].
  rewrite length_cons, S_INR. simpl. fold (total_weight (map MissingField fields)).
  rewrite IH. lra.
Qed.

Lemma total_weight_nonneg (l : list reason) : (0 <= total_weight l)%R.
Proof.
  induction l as [| r l IH]; simpl; [lra |].
  fold (total_weight l). destruct r; simpl; lra.
Qed.








End ValidatorTheorems.

Module CalendarFacts.
Import Writer WriterSpec.

Lemma forall_from_spec f lo n :
  forall_from f lo n = true ->
  forall i, lo <= i < lo + Z.of_nat n -> f i = true.
Proof.
  revert lo. induction n as [| n IH]; intros lo H i Hi; [lia |].
  simpl in H. apply andb_prop in H as [H0 H1].
  destruct (decide (i = lo)) as [-> | Hne]; [exact H0 |].
  apply (IH (lo + 1) H1). lia.
Qed.

Lemma month_day_year :
  forall_from (month_day_ok true) 0 365 = true
  /\ forall_from (month_day_ok false) 0 365 = true.
Proof. split; vm_compute; reflexivity. Qed.

Lemma month_day_spec y n :
  0 <= n < 365 ->
  let '(m, d) := month_day (is_leap y) n in
  valid_date y m d /\ days_before_month y m + d = n + 1.
Proof.
  intros Hn.
  assert (month_day_ok (is_leap y) n = true) as Hok.
  { destruct month_day_year as [Ht Hf].
    destruct (is_leap y);
      [apply (forall_from_spec _ _ _ Ht) | apply (forall_from_spec _ _ _ Hf)];
      lia. }
  unfold month_day_ok in Hok. destruct (month_day (is_leap y) n) as [m d].
  repeat (apply andb_prop in Hok as [Hok ?]).
  unfold valid_date, days_in_month, days_before_month. lia.
Qed.

Lemma is_leap_true y :
  y mod 4 = 0 -> (y mod 100 <> 0 \/ y mod 400 = 0) -> is_leap y = true.
Proof.
  intros H4 H. unfold is_leap. rewrite H4. simpl.
  destruct (Z.eqb_spec (y mod 100) 0), (Z.eqb_spec (y mod 400) 0); simpl; tauto.
Qed.

Lemma is_leap_false y :
  (y mod 4 <> 0 \/ (y mod 100 = 0 /\ y mod 400 <> 0)) -> is_leap y = false.
Proof.
  intros H. unfold is_leap.
  destruct (Z.eqb_spec (y mod 4) 0), (Z.eqb_spec (y mod 100) 0),
    (Z.eqb_spec (y mod 400) 0); simpl; tauto.
Qed.

Ltac euclid := Z.to_euclidean_division_equations; lia.

(** The cycles of [ord2ymd]. *)
Lemma ord2ymd_cycles n :
  let n0 := n - 1 in
  let n400 := n0 / 146097 in
  let n100 := n0 mod 146097 / 36524 in
  let n4 := n0 mod 146097 mod 36524 / 1461 in
  let n1 := n0 mod 146097 mod 36524 mod 1461 / 365 in
  let doy := n0 mod 146097 mod 36524 mod 1461 mod 365 in
  n0 = 146097 * n400 + 36524 * n100 + 1461 * n4 + 365 * n1 + doy
  /\ 0 <= n100 <= 4 /\ 0 <= n4 <= 24 /\ 0 <= n1 <= 4 /\ 0 <= doy < 365
  /\ (n100 = 4 -> n4 = 0 /\ n1 = 0 /\ doy = 0)
  /\ (n1 = 4 -> doy = 0 /\ n4 <= 23).
Proof.
  intros n0 n400 n100 n4 n1 doy. subst n400 n100 n4 n1 doy.
  generalize n0. clear n n0. intros n0.
  Z.to_euclidean_division_equations.
  repeat split; lia.
Qed.

Lemma ord2ymd_month_day n :
  let n0 := n - 1 in
  let n400 := n0 / 146097 in
  let n100 := n0 mod 146097 / 36524 in
  let n4 := n0 mod 146097 mod 36524 / 1461 in
  let n1 := n0 mod 146097 mod 36524 mod 1461 / 365 in
  let doy := n0 mod 146097 mod 36524 mod 1461 mod 365 in
  let y := n400 * 400 + 1 + n100 * 100 + n4 * 4 + n1 in
  ord2ymd n
  = if ((n1 =? 4) || (n100 =? 4))%Z then (y - 1, 12, 31)
    else
      let '(m, d) :=
        month_day ((n1 =? 3) && (negb (n4 =? 24) || (n100 =? 3)))%Z doy in
      (y, m, d).
Proof.
  intros. unfold ord2ymd, month_day. fold n0 n400 n100 n4 n1 doy y.
  destruct ((n1 =? 4) || (n100 =? 4))%Z; [reflexivity |].
  cbv zeta.
  destruct (doy <? _)%Z; reflexivity.
Qed.

(** The days before the year that starts the cycles [n400], [n100], [n4]
    and [n1]. *)
Lemma days_before_year_cycles n400 n100 n4 n1 :
  0 <= n100 <= 3 -> 0 <= n4 <= 24 -> 0 <= n1 <= 3 ->
  days_before_year (n400 * 400 + 1 + n100 * 100 + n4 * 4 + n1)
  = 146097 * n400 + 36524 * n100 + 1461 * n4 + 365 * n1.
Proof. intros. unfold days_before_year. euclid. Qed.

Lemma is_leap_cycles n400 n100 n4 n1 :
  0 <= n100 <= 3 -> 0 <= n4 <= 24 -> 0 <= n1 <= 3 ->
  is_leap (n400 * 400 + 1 + n100 * 100 + n4 * 4 + n1)
  = ((n1 =? 3) && (negb (n4 =? 24) || (n100 =? 3)))%Z.
Proof.
  intros H100 H4 H1.
  set (y := n400 * 400 + 1 + n100 * 100 + n4 * 4 + n1).
  destruct (Z.eqb_spec n1 3) as [E1 | E1]; simpl.
  - destruct (Z.eqb_spec n4 24) as [E4 | E4]; simpl.
    + destruct (Z.eqb_spec n100 3) as [E100 | E100].
      * apply is_leap_true; subst y; [euclid | right; euclid].
      * apply is_leap_false; right; subst y; split; euclid.
    + apply is_leap_true; subst y; [euclid | left; euclid].
  - apply is_leap_false; left; subst y; euclid.
Qed.

Lemma ord2ymd_correct n :
  let '(y, m, d) := ord2ymd n in
  valid_date y m d /\ ymd2ord y m d = n.
Proof.
  rewrite ord2ymd_month_day.
  destruct (ord2ymd_cycles n) as (Hn & H100 & H4 & H1 & Hdoy & Hc & Hq).
  cbv zeta in *.
  set (n400 := (n - 1) / 146097) in *.
  set (n100 := (n - 1) mod 146097 / 36524) in *.
  set (n4 := (n - 1) mod 146097 mod 36524 / 1461) in *.
  set (n1 := (n - 1) mod 146097 mod 36524 mod 1461 / 365) in *.
  set (doy := (n - 1) mod 146097 mod 36524 mod 1461 mod 365) in *.
  clearbody n400 n100 n4 n1 doy.
  destruct (Z.eqb_spec n1 4) as [E1 | E1]; simpl.
  - (* the last day of a leap year that ends a 4-year cycle *)
    destruct (Hq E1) as [Hd H23].
    assert (n100 <= 3) by lia.
    replace (n400 * 400 + 1 + n100 * 100 + n4 * 4 + n1 - 1)
      with (n400 * 400 + 1 + n100 * 100 + n4 * 4 + 3) by lia.
    unfold valid_date, ymd2ord, days_before_month, days_in_month.
    rewrite days_before_year_cycles, is_leap_cycles by lia.
    replace (n4 =? 24)%Z with false by (symmetry; apply Z.eqb_neq; lia).
    change (days_before_month_common 12) with 334. simpl. lia.
  - destruct (Z.eqb_spec n100 4) as [E100 | E100]; simpl.
    + (* the last day of a 400-year cycle *)
      destruct (Hc E100) as (E4 & E1' & Ed).
      replace (n400 * 400 + 1 + n100 * 100 + n4 * 4 + n1 - 1)
        with (n400 * 400 + 1 + 3 * 100 + 24 * 4 + 3) by lia.
      unfold valid_date, ymd2ord, days_before_month, days_in_month.
      rewrite days_before_year_cycles, is_leap_cycles by lia.
      change (days_before_month_common 12) with 334. simpl. lia.
    + rewrite <- (is_leap_cycles n400 n100 n4 n1) by lia.
      pose proof (month_day_spec (n400 * 400 + 1 + n100 * 100 + n4 * 4 + n1)
                    doy Hdoy) as Hmd.
      destruct (month_day _ doy) as [m d]. destruct Hmd as [Hv Hd].
      split; [exact Hv |]. unfold ymd2ord.
      rewrite days_before_year_cycles by lia. lia.
Qed.

Lemma days_before_year_succ y :
  days_before_year (y + 1)
  = days_before_year y + (if is_leap y then 366 else 365).
Proof.
  unfold days_before_year, is_leap.
  destruct (Z.eqb_spec (y mod 4) 0), (Z.eqb_spec (y mod 100) 0),
    (Z.eqb_spec (y mod 400) 0); simpl; euclid.
Qed.

Lemma days_before_year_mono y y' :
  y <= y' -> days_before_year y <= days_before_year y'.
Proof. intros. unfold days_before_year. euclid. Qed.

Lemma month_cases m :
  1 <= m <= 12 ->
  m = 1 \/ m = 2 \/ m = 3 \/ m = 4 \/ m = 5 \/ m = 6 \/ m = 7 \/ m = 8
  \/ m = 9 \/ m = 10 \/ m = 11 \/ m = 12.
Proof. lia. Qed.

Lemma ymd2ord_bounds y m d :
  valid_date y m d ->
  days_before_year y < ymd2ord y m d <= days_before_year (y + 1).
Proof.
  intros [Hm Hd]. rewrite days_before_year_succ.
  unfold ymd2ord, days_before_month, days_in_month in *.
  destruct (month_cases m Hm) as [-> | [-> | [-> | [-> | [-> | [-> | [-> | [->
    | [-> | [-> | [-> | ->]]]]]]]]]]];
    vm_compute days_before_month_common; simpl in *;
    destruct (is_leap y); lia.
Qed.

Lemma month_day_inj y m d m' d' :
  valid_date y m d -> valid_date y m' d' ->
  days_before_month y m + d = days_before_month y m' + d' ->
  m = m' /\ d = d'.
Proof.
  intros [Hm Hd] [Hm' Hd']. unfold days_before_month, days_in_month in *.
  destruct (month_cases m Hm) as [-> | [-> | [-> | [-> | [-> | [-> | [-> | [->
    | [-> | [-> | [-> | ->]]]]]]]]]]];
  destruct (month_cases m' Hm') as [-> | [-> | [-> | [-> | [-> | [-> | [->
    | [-> | [-> | [-> | [-> | ->]]]]]]]]]]];
    vm_compute days_before_month_common; simpl in *;
    destruct (is_leap y); lia.
Qed.

(** A date of the calendar is determined by its ordinal. *)
Lemma ymd2ord_inj y m d y' m' d' :
  valid_date y m d -> valid_date y' m' d' ->
  ymd2ord y m d = ymd2ord y' m' d' ->
  y = y' /\ m = m' /\ d = d'.
Proof.
  intros Hv Hv' Heq.
  pose proof (ymd2ord_bounds y m d Hv).
  pose proof (ymd2ord_bounds y' m' d' Hv').
  assert (y = y') as <-.
  { destruct (Z.lt_trichotomy y y') as [Hlt | [-> | Hgt]]; [| done |].
    - pose proof (days_before_year_mono (y + 1) y' ltac:(lia)). lia.
    - pose proof (days_before_year_mono (y' + 1) y ltac:(lia)). lia. }
  split; [done |]. apply (month_day_inj y); try done.
  unfold ymd2ord in Heq. lia.
Qed.

End CalendarFacts.

Module WriterFacts.
Import Writer WriterSpec WriterClaims CalendarFacts.

Lemma utc_fields_spec s :
  let dt := utc_fields s in
  valid_date (year dt) (month dt) (day dt)
  /\ ymd2ord (year dt) (month dt) (day dt) = s / 86400 + 719163
  /\ hour dt = (s / 3600) mod 24.
Proof.
  unfold utc_fields.
  pose proof (ord2ymd_correct (s / 86400 + 719163)) as H.
  destruct (ord2ymd (s / 86400 + 719163)) as [[y m] d]. simpl.
  destruct H as (Hv & Ho). auto.
Qed.

Lemma format_key_instant rt exchange symbol s :
  key_of_instant exchange symbol s
    (format_key rt (PStr exchange) (PStr symbol) (utc_fields s)).
Proof.
  pose proof (utc_fields_spec s) as (Hv & Ho & Hh).
  exists (year (utc_fields s)), (month (utc_fields s)),
    (day (utc_fields s)), (hour (utc_fields s)).
  unfold format_key. simpl str_. auto.
Qed.

(** The four ways [_get_partition_key] chooses its [datetime]. *)
Lemma key_absent rt now record :
  record !! "timestamp" = None ->
  _get_partition_key rt now record
  = Ok (format_key rt (default (PStr "unknown") (record !! "exchange"))
          (default (PStr "unknown") (record !! "symbol")) (utc_fields 0)).
Proof. intros Ht. unfold _get_partition_key. rewrite Ht. reflexivity. Qed.

Lemma key_in_range rt now record v T :
  record !! "timestamp" = Some v ->
  int_ rt v = Ok T ->
  min_second <= T / 1000 <= max_second ->
  _get_partition_key rt now record
  = Ok (format_key rt (default (PStr "unknown") (record !! "exchange"))
          (default (PStr "unknown") (record !! "symbol"))
          (utc_fields (T / 1000))).
Proof.
  intros Ht Hi Hr. unfold _get_partition_key. rewrite Ht. simpl.
  rewrite Hi. simpl. unfold fromtimestamp_ms.
  replace ((min_second <=? T / 1000) && (T / 1000 <=? max_second))%Z with true
    by (symmetry; apply andb_true_intro; split; apply Z.leb_le; lia).
  reflexivity.
Qed.

Lemma key_unparsable rt now record v e :
  record !! "timestamp" = Some v ->
  int_ rt v = Raise e ->
  _get_partition_key rt now record
  = Ok (format_key rt (default (PStr "unknown") (record !! "exchange"))
          (default (PStr "unknown") (record !! "symbol")) (utc_fields now)).
Proof.
  intros Ht Hi. unfold _get_partition_key. rewrite Ht. simpl.
  rewrite Hi. apply PyFacts.int_raises in Hi as [-> | ->]; reflexivity.
Qed.

Lemma key_out_of_range rt now record v T :
  record !! "timestamp" = Some v ->
  int_ rt v = Ok T ->
  ~ (min_second <= T / 1000 <= max_second) ->
  gmtime_min <= T / 1000 <= gmtime_max ->
  _get_partition_key rt now record
  = Ok (format_key rt (default (PStr "unknown") (record !! "exchange"))
          (default (PStr "unknown") (record !! "symbol")) (utc_fields now)).
Proof.
  intros Ht Hi Hr Hg. unfold _get_partition_key. rewrite Ht. simpl.
  rewrite Hi. simpl. unfold fromtimestamp_ms.
  replace ((min_second <=? T / 1000) && (T / 1000 <=? max_second))%Z with false
    by (symmetry; apply andb_false_iff;
        destruct (Z.leb_spec min_second (T / 1000));
        destruct (Z.leb_spec (T / 1000) max_second); auto; lia).
  replace ((gmtime_min <=? T / 1000) && (T / 1000 <=? gmtime_max))%Z with true
    by (symmetry; apply andb_true_intro; split; apply Z.leb_le; lia).
  reflexivity.
Qed.

End WriterFacts.

Module WriterTheorems.
Import Writer WriterSpec WriterClaims WriterFacts WriterExamples.

(** C9 (as amended): for a record with exchange 'binance', symbol
    'btcusdt' and a timestamp that converts to the integer [T] of an
    instant in the years 1 to 9999, the partition key is
    'binance/btcusdt/year=Y/month=MM/day=DD/hour=HH' for the UTC date and
    hour of [T] milliseconds; when the timestamp does not convert to an
    integer, the key is the one of the current time. *)
Theorem partition_key_of_timestamp rt now record v :
  record !! "exchange" = Some (PStr "binance") ->
  record !! "symbol" = Some (PStr "btcusdt") ->
  record !! "timestamp" = Some v ->
  (forall T,
     int_ rt v = Ok T ->
     -62135596800000 <= T <= 253402300799999 ->
     exists key,
       _get_partition_key rt now record = Ok key
       /\ key_of_instant "binance" "btcusdt" (T / 1000) key)
  /\ (forall e,
        int_ rt v = Raise e ->
        exists key,
          _get_partition_key rt now record = Ok key
          /\ key_of_instant "binance" "btcusdt" now key).
Proof.
  intros He Hs Ht. split.
  - intros T Hi Hr. eexists. split.
    + apply (key_in_range rt now record v T Ht Hi).
      unfold min_second, max_second.
      pose proof (Z.div_mod T 1000 ltac:(lia)).
      pose proof (Z.mod_pos_bound T 1000 ltac:(lia)). lia.
    + rewrite He, Hs. apply format_key_instant.
  - intros e Hi. eexists. split.
    + apply (key_unparsable rt now record v e Ht Hi).
    + rewrite He, Hs. apply format_key_instant.
Qed.

Lemma partition_key_of_timestamp_witness :
  (forall T,
     int_ plain_runtime (PInt 1640995200000) = Ok T ->
     -62135596800000 <= T <= 253402300799999 ->
     exists key,
       _get_partition_key plain_runtime 0
         (binance_trade_at (PInt 1640995200000)) = Ok key
       /\ key_of_instant "binance" "btcusdt" (T / 1000) key)
  /\ (forall e,
        int_ plain_runtime (PInt 1640995200000) = Raise e ->
        exists key,
          _get_partition_key plain_runtime 0
            (binance_trade_at (PInt 1640995200000)) = Ok key
          /\ key_of_instant "binance" "btcusdt" 0 key).
Proof.
  apply (partition_key_of_timestamp plain_runtime 0
           (binance_trade_at (PInt 1640995200000)) (PInt 1640995200000));
    reflexivity.
Defined.

(** C9 (as stated) fails: the integer timestamp 10^15 (an instant of the
    year 33658) gives a key that follows the clock, not the timestamp. *)
Lemma partition_key_follows_clock :
  _get_partition_key plain_runtime 0 (binance_trade_at (PInt 1000000000000000))
  = Ok "binance/btcusdt/year=1970/month=01/day=01/hour=00"
  /\ _get_partition_key plain_runtime 90000
       (binance_trade_at (PInt 1000000000000000))
     = Ok "binance/btcusdt/year=1970/month=01/day=02/hour=01".
Proof. split; vm_compute; reflexivity. Qed.




End WriterTheorems.

Module ProducerFacts.
Import Producer ProducerSpec.

Lemma flush_attempts_all_fail (m : nat) : forall (k : Z) (w : world),
  max_retries (producer w) = k + Z.of_nat (S m) ->
  (forall i, stream w i = Raises ClientError) ->
  flush_attempts (seqZ k (Z.of_nat (S m))) w
  = (Ok false, dropped w (S m) (map (Z.pow 2) (seqZ k (Z.of_nat m)))).
Proof.
  induction m as [| m IH]; intros k w Hmax Hfail.
  - change (seqZ k (Z.of_nat 1)) with [k]. simpl.
    rewrite Hfail. simpl.
    destruct (Z.eqb_spec k (max_retries (producer w) - 1)) as [_ | Hne];
      [| lia].
    unfold dropped. simpl. by rewrite app_nil_r.
  - rewrite (seqZ_cons k (Z.of_nat (S (S m)))) by lia.
    replace (Z.pred (Z.of_nat (S (S m)))) with (Z.of_nat (S m)) by lia.
    simpl flush_attempts. rewrite Hfail. simpl.
    destruct (Z.eqb_spec k (max_retries (producer w) - 1)) as [Heq | _];
      [lia |].
    rewrite IH; [| simpl; lia | done].
    rewrite (seqZ_cons k (Z.of_nat (S m))) by lia.
    replace (Z.pred (Z.of_nat (S m))) with (Z.of_nat m) by lia.
    unfold dropped. simpl. rewrite <- !app_assoc. reflexivity.
Qed.

(** With a retry limit of zero or less the loop has no turn: the flush
    returns [False] and leaves the buffer and the counters as they are. *)
Lemma flush_without_attempts w :
  records_buffer (producer w) <> [] ->
  max_retries (producer w) <= 0 ->
  _flush_buffer w = (Ok false, w).
Proof.
  intros Hbuf Hmax. unfold _flush_buffer.
  destruct (records_buffer (producer w)); [done |].
  unfold seqZ. replace (Z.to_nat (max_retries (producer w))) with 0%nat by lia.
  reflexivity.
Qed.

End ProducerFacts.

Module ProducerTheorems.
Import Producer ProducerSpec ProducerFacts ProducerExamples.



End ProducerTheorems.
Module ConnectorFacts.
Import Producer ProducerSpec.

(** The score of a message that has its four fields and a price that
    converts. *)
Lemma calculate_quality_score_complete rt f1 f2 f3 f4 pf data v price :
  is_Some (data !! f1) -> is_Some (data !! f2) ->
  is_Some (data !! f3) -> is_Some (data !! f4) ->
  data !! pf = Some v -> float_ rt v = Ok price ->
  exists score,
    calculate_quality_score rt [f1; f2; f3; f4] pf data = Ok score
    /\ ((price <= 0)%R -> score = 0.7%R)
    /\ ((0 < price)%R -> score = 1%R).
Proof.
  intros [? H1] [? H2] [? H3] [? H4] Hv Hf.
  unfold calculate_quality_score. simpl foldl.
  rewrite H1, H2, H3, H4. unfold getitem. rewrite Hv. simpl. rewrite Hf. simpl.
  destruct (Rle_dec price 0) as [Hle | Hgt].
  - rewrite PyFacts.Rleb_true by done. simpl. eexists. split; [done |].
    split; [intros _ | lra]. rewrite Rmax_right; lra.
  - rewrite PyFacts.Rleb_false by lra. simpl. eexists. split; [done |].
    split; [lra | intros _]. rewrite Rmax_right; lra.
Qed.

Lemma binance_complete rt data s T p q price volume :
  is_trade Binance data ->
  data !! "s" = Some (PStr s) -> data !! "T" = Some T ->
  data !! "p" = Some p -> data !! "q" = Some q ->
  float_ rt p = Ok price -> float_ rt q = Ok volume ->
  exists md score,
    binance_process_message rt (Ok data) = Ok (Some md)
    /\ quality_score md = Some score
    /\ ((price <= 0)%R -> score = 0.7%R)
    /\ ((0 < price)%R -> score = 1%R).
Proof.
  intros He Hs HT Hp Hq Hfp Hfq. simpl in He.
  destruct (calculate_quality_score_complete rt "s" "p" "q" "T" "p" data p price)
    as (score & Hsc & Hle & Hgt); rewrite ?Hs, ?HT, ?Hp, ?Hq; eauto.
  unfold binance_process_message, binance_calculate_quality_score, getitem.
  simpl. rewrite He, Hs, HT, Hp, Hq. simpl. rewrite Hfp. simpl. rewrite Hfq.
  simpl. rewrite Hsc. simpl. eexists _, score. repeat split; assumption.
Qed.

Lemma coinbase_complete rt data s T p q price volume :
  is_trade Coinbase data ->
  data !! "product_id" = Some (PStr s) -> data !! "time" = Some T ->
  data !! "price" = Some p -> data !! "size" = Some q ->
  float_ rt p = Ok price -> float_ rt q = Ok volume ->
  exists md score,
    coinbase_process_message rt (Ok data) = Ok (Some md)
    /\ quality_score md = Some score
    /\ ((price <= 0)%R -> score = 0.7%R)
    /\ ((0 < price)%R -> score = 1%R).
Proof.
  intros He Hs HT Hp Hq Hfp Hfq. simpl in He.
  destruct (calculate_quality_score_complete rt "product_id" "price" "size"
              "time" "price" data p price)
    as (score & Hsc & Hle & Hgt); rewrite ?Hs, ?HT, ?Hp, ?Hq; eauto.
  unfold coinbase_process_message, coinbase_calculate_quality_score, getitem,
    get.
  simpl. rewrite He, Hs, HT, Hp, Hq. simpl. rewrite Hfp. simpl. rewrite Hfq.
  simpl. rewrite Hsc. simpl. eexists _, score. repeat split; assumption.
Qed.

Lemma float_cases rt v :
  float_ rt v <> Raise TypeError ->
  (exists x, float_ rt v = Ok x) \/ float_ rt v = Raise ValueError.
Proof.
  intros Hne. destruct (float_ rt v) as [x | e] eqn:Hf; [eauto |].
  apply PyFacts.float_raises in Hf as Hc. destruct Hc as [-> | ->]; [auto | done].
Qed.

Lemma binance_incomplete rt data :
  is_trade Binance data ->
  text_or_absent data "s" ->
  number_or_text rt data "p" -> number_or_text rt data "q" ->
  incomplete rt Binance data ->
  binance_process_message rt (Ok data) = Ok None.
Proof.
  unfold is_trade, text_or_absent, number_or_text, incomplete, unparsable.
  simpl. intros He Hs Hp Hq Hinc.
  unfold binance_process_message, getitem. simpl. rewrite He. simpl.
  destruct (data !! "s") as [[| | | | s |] |]; try done.
  simpl.
  destruct (data !! "T") as [T |]; [| reflexivity]. simpl.
  destruct (data !! "p") as [p |]; [| reflexivity]. simpl.
  destruct (float_cases rt p Hp) as [[price Hfp] | Hfp]; rewrite Hfp;
    [| reflexivity]. simpl.
  destruct (data !! "q") as [q |]; [| reflexivity]. simpl.
  destruct (float_cases rt q Hq) as [[volume Hfq] | Hfq]; rewrite Hfq;
    [| reflexivity].
  exfalso.
  destruct Hinc as [? | [? | [? | [? | [(v & [= <-] & Hv) | (v & [= <-] & Hv)]]]]];
    congruence.
Qed.

Lemma coinbase_incomplete rt data :
  is_trade Coinbase data ->
  text_or_absent data "product_id" ->
  number_or_text rt data "price" -> number_or_text rt data "size" ->
  incomplete rt Coinbase data ->
  coinbase_process_message rt (Ok data) = Ok None.
Proof.
  unfold is_trade, text_or_absent, number_or_text, incomplete, unparsable.
  simpl. intros He Hs Hp Hq Hinc.
  unfold coinbase_process_message, getitem, get. simpl. rewrite He. simpl.
  destruct (data !! "product_id") as [[| | | | s |] |]; try done.
  simpl.
  destruct (data !! "time") as [T |]; [| reflexivity]. simpl.
  destruct (data !! "price") as [p |]; [| reflexivity]. simpl.
  destruct (float_cases rt p Hp) as [[price Hfp] | Hfp]; rewrite Hfp;
    [| reflexivity]. simpl.
  destruct (data !! "size") as [q |]; [| reflexivity]. simpl.
  destruct (float_cases rt q Hq) as [[volume Hfq] | Hfq]; rewrite Hfq;
    [| reflexivity].
  exfalso.
  destruct Hinc as [? | [? | [? | [? | [(v & [= <-] & Hv) | (v & [= <-] & Hv)]]]]];
    congruence.
Qed.

End ConnectorFacts.

Module ConnectorTheorems.
Import Producer ProducerSpec ConnectorFacts ProducerExamples.




End ConnectorTheorems.

Module StreamerFacts.
Import Producer ProducerSpec ProducerExamples StreamerExamples.

Lemma flush_attempts_flush_calls attempts : forall w,
  flush_calls (flush_attempts attempts w).2 = flush_calls w.
Proof.
  induction attempts as [| attempt attempts IH]; intros w; [reflexivity |].
  simpl. destruct (stream w (length (put_calls w))) as [n | e]; [reflexivity |].
  destruct e; try reflexivity.
  destruct (_ =? _)%Z; [reflexivity |]. by rewrite IH.
Qed.

Lemma _flush_buffer_flush_calls w :
  flush_calls (_flush_buffer w).2 = flush_calls w.
Proof.
  unfold _flush_buffer. destruct (records_buffer (producer w)); [reflexivity |].
  apply flush_attempts_flush_calls.
Qed.

Lemma put_record_flush_calls market_data w :
  flush_calls (put_record market_data w).2 = flush_calls w.
Proof.
  unfold put_record. destruct (_ <=? _)%Z; [| reflexivity].
  match goal with |- context [_flush_buffer ?w'] =>
    pose proof (_flush_buffer_flush_calls w') as H;
    destruct (_flush_buffer w') as [[b | e] w'']
  end; simpl in *; exact H.
Qed.

Lemma read_messages_flush_calls env connector items : forall self,
  flush_calls (kinesis (read_messages env connector items self).2)
  = flush_calls (kinesis self).
Proof.
  induction items as [| item items IH]; intros self; [reflexivity |].
  destruct item as [m |]; simpl.
  - destruct (running self); simpl; [| reflexivity].
    destruct (process_message connector m) as [[md |] | e];
      [| apply IH | reflexivity].
    destruct (validate env md); [| apply IH].
    rewrite IH. simpl. apply put_record_flush_calls.
  - rewrite IH. reflexivity.
Qed.

Lemma on_failure_flush_calls connector retry_count self :
  flush_calls (kinesis (on_failure connector retry_count self).2)
  = flush_calls (kinesis self).
Proof. unfold on_failure. by destruct (_ <? _)%Z. Qed.

Lemma stream_exchange_from_flush_calls env connector script :
  forall retry_count self,
    flush_calls (kinesis (stream_exchange_from env connector script
                            retry_count self).2)
    = flush_calls (kinesis self).
Proof.
  induction script as [| s script IH]; intros retry_count self.
  - simpl. by destruct (negb _).
  - simpl. destruct (negb _); [reflexivity |].
    destruct s as [| | items fin].
    + by rewrite IH.
    + pose proof (on_failure_flush_calls connector retry_count self) as Hf.
      destruct (on_failure connector retry_count self) as [rc self'].
      by rewrite IH.
    + pose proof (read_messages_flush_calls env connector items self) as Hr.
      destruct (read_messages env connector items self) as [ex self'].
      simpl in Hr.
      pose proof (on_failure_flush_calls connector retry_count self') as Hf.
      destruct (on_failure connector retry_count self') as [rc self''].
      simpl in Hf.
      destruct ex, fin; rewrite IH; congruence.
Qed.

Lemma gather_flush_calls env tasks : forall self,
  flush_calls (kinesis (gather env tasks self).2) = flush_calls (kinesis self).
Proof.
  induction tasks as [| [connector script] tasks IH]; intros self;
    [reflexivity |].
  simpl. unfold stream_exchange.
  pose proof (stream_exchange_from_flush_calls env connector script 0 self) as H.
  destruct (stream_exchange_from env connector script 0 self) as [[st rc] self'].
  specialize (IH self'). destruct (gather env tasks self') as [st' self''].
  simpl in *. congruence.
Qed.

(** [main] returns without a call of [flush], whatever the tasks meet. *)
Lemma main_never_flushes env stream tasks :
  flush_calls (kinesis (main env stream tasks).2) = 0%nat.
Proof. unfold main, start. by rewrite gather_flush_calls. Qed.

(** [stop] is the one caller of [flush]. *)
Lemma stop_flushes self :
  flush_calls (kinesis (stop self).2) = S (flush_calls (kinesis self)).
Proof.
  unfold stop, flush. simpl.
  match goal with |- context [_flush_buffer ?w'] =>
    pose proof (_flush_buffer_flush_calls w') as H;
    destruct (_flush_buffer w') as [r w'']
  end. simpl in *. exact H.
Qed.

End StreamerFacts.

Module StreamerTheorems.
Import Producer ProducerSpec ProducerExamples StreamerExamples StreamerFacts.

Lemma decode_binance_trade :
  binance_process_message plain_runtime (Ok binance_trade) = Ok (Some btc_trade).
Proof.
  unfold binance_process_message, binance_calculate_quality_score,
    calculate_quality_score, getitem, get. run.
  unfold btc_trade. do 2 f_equal.
  f_equal; try (vm_compute; reflexivity).
  f_equal. rewrite Rmax_right; lra.
Qed.

Lemma validate_btc_trade : validate default_bounds btc_trade = true.
Proof. unfold validate. run. reflexivity. Qed.

Local Arguments binance_process_message : simpl never.
Local Arguments validate : simpl never.

Ltac run_streamer :=
  unfold run_binance, main, start, new_streamer, new_world, new_producer,
    signalled_after_one_trade, breaks_after_delivery, closes_after_delivery;
  simpl; unfold stream_exchange; simpl;
  repeat (rewrite ?decode_binance_trade, ?validate_btc_trade; simpl).

(** C1, on the code: a trade is delivered and buffered, the shutdown
    signal clears the running flag, the task leaves its loop at the next
    message and [main] returns.  [flush] has not been called and nothing has
    been sent: the buffered record is lost with the process.  [stop], which
    [main] never calls, would have flushed it. *)
Theorem shutdown_leaves_record_buffered :
  let r := run_binance signalled_after_one_trade in
  r.1 = Returned
  /\ running r.2 = false
  /\ length (records_buffer (producer (kinesis r.2))) = 1%nat
  /\ put_calls (kinesis r.2) = []
  /\ flush_calls (kinesis r.2) = 0%nat
  /\ flush_calls (kinesis (stop r.2).2) = 1%nat
  /\ length (put_calls (kinesis (stop r.2).2)) = 1%nat.
Proof.
  run_streamer. unfold stop, flush, _flush_buffer. simpl. auto 10.
Qed.

(** C4, on the code: after two failures to connect, a session delivers a
    trade to the producer and then breaks.  The failure is counted as the
    third and the task waits min(2^3, 60) = 8 seconds, not 2.  The counter
    is reset only when the session ends without an exception: after a
    session that the peer closes, the next failure waits 2 seconds. *)
Theorem retry_count_survives_delivery :
  let r := run_binance breaks_after_delivery in
  let r' := run_binance closes_after_delivery in
  r.1 = Waiting
  /\ length (records_buffer (producer (kinesis r.2))) = 1%nat
  /\ reconnect_sleeps r.2 = [2; 4; 8]
  /\ reconnect_sleeps r'.2 = [2; 4; 2].
Proof.
  run_streamer. auto.
Qed.

End StreamerTheorems.

Module EnricherFacts.
Import Enricher EnricherSpec.

Lemma key_eqb_refl k : hashable k = true -> key_eqb k k = true.
Proof.
  destruct k as [| b | z | x | s | c]; simpl; try done.
  - by destruct (Req_dec_T _ _).
  - by destruct (Req_dec_T _ _).
  - by destruct (Req_dec_T _ _).
  - intros _. apply String.eqb_refl.
Qed.

Lemma hist_get_set h k ps :
  hashable k = true -> hist_get (hist_set h k ps) k = Some ps.
Proof.
  intros Hk. induction h as [| [k' ps'] h IH]; simpl.
  - by rewrite key_eqb_refl.
  - destruct (key_eqb k' k) eqn:E; simpl; rewrite E; done.
Qed.

Lemma length_last_n {A} n (l : list A) :
  length (last_n n l) = Nat.min n (length l).
Proof. unfold last_n. rewrite length_drop. lia. Qed.

Lemma last_n_last_n {A} n m (l : list A) :
  (n <= m)%nat -> last_n n (last_n m l) = last_n n l.
Proof.
  intros Hnm. unfold last_n. rewrite length_drop, drop_drop. f_equal. lia.
Qed.

(** [append] and [pop(0)] keep the last [cap] prices. *)
Lemma append_bounded_last_n cap ps x :
  append_bounded cap (last_n cap ps) x = last_n cap (ps ++ [x]).
Proof.
  unfold append_bounded. rewrite length_app, length_last_n. simpl.
  unfold last_n. rewrite length_app. simpl.
  destruct (Nat.ltb_spec cap (Nat.min cap (length ps) + 1)) as [Hlt | Hge].
  - rewrite <- drop_app_le by lia.
    replace (tail (drop (length ps - cap) (ps ++ [x])))
      with (drop 1 (drop (length ps - cap) (ps ++ [x])))
      by (by destruct (drop (length ps - cap) (ps ++ [x]))).
    rewrite drop_drop. f_equal. lia.
  - replace (length ps - cap)%nat with 0%nat by lia.
    replace (length ps + 1 - cap)%nat with 0%nat by lia.
    reflexivity.
Qed.

Lemma sum_total_from a l : foldl Rplus a l = (a + total l)%R.
Proof.
  revert a. induction l as [| x l IH]; intros a; simpl; [lra |].
  rewrite IH. unfold total. lra.
Qed.

Lemma sum_total l : sum l = total l.
Proof. unfold sum. rewrite sum_total_from. lra. Qed.

Lemma mean_arithmetic l : mean l = arithmetic_mean l.
Proof. unfold mean, arithmetic_mean. by rewrite sum_total. Qed.

Lemma variance_deviation l : variance l = mean_squared_deviation l.
Proof.
  unfold variance, mean_squared_deviation.
  rewrite sum_total, mean_arithmetic. do 2 f_equal.
  apply map_ext. intros p. unfold Rsqr. simpl. lra.
Qed.

Lemma total_nonneg l : Forall (fun x => (0 <= x)%R) l -> (0 <= total l)%R.
Proof.
  induction 1 as [| x l Hx _ IH]; unfold total in *; simpl; lra.
Qed.

Lemma mean_squared_deviation_nonneg l :
  (0 <= mean_squared_deviation l)%R.
Proof.
  unfold mean_squared_deviation.
  assert (0 <= total (map (fun p => Rsqr (p - arithmetic_mean l)) l))%R as Ht.
  { apply total_nonneg, Forall_forall. intros y Hy.
    apply list_elem_of_In, in_map_iff in Hy as (p & <- & _). apply Rle_0_sqr. }
  destruct l as [| x l]; [simpl; unfold Rdiv; rewrite Rmult_0_l; lra |].
  apply Rmult_le_pos; [exact Ht |].
  apply Rlt_le, Rinv_0_lt_compat, lt_0_INR. simpl. lia.
Qed.

Section Calls.
Context (rt : runtime).

Lemma add_spread_ok record enriched :
  exists enriched', add_spread rt record enriched = Ok enriched'.
Proof.
  unfold add_spread.
  destruct (record !! "bid") as [vb |]; [| eauto].
  destruct (record !! "ask") as [va |]; [| eauto].
  destruct (float_ rt vb) as [bid | e] eqn:Hb; simpl.
  - destruct (float_ rt va) as [ask | e] eqn:Ha; simpl.
    + destruct (_ && _); eauto.
    + apply PyFacts.float_raises in Ha as [-> | ->]; simpl; eauto.
  - apply PyFacts.float_raises in Hb as [-> | ->]; simpl; eauto.
Qed.

(** One call: the indicators are those of the history extended by the
    price of the call. *)
Lemma enrich_record_step processed_at self call_record sym price ps :
  hashable sym = true ->
  call_for rt sym (processed_at, call_record) price ->
  tracks self sym ps ->
  exists enriched self',
    enrich_record rt processed_at self call_record
    = Ok (add_indicators (last_n (max_history_size self) (ps ++ [price]))
            enriched, self')
    /\ max_history_size self' = max_history_size self
    /\ tracks self' sym (ps ++ [price]).
Proof.
  intros Hh [Hsym Hprice] Htr. unfold tracks in *. simpl in Hsym, Hprice.
  unfold enrich_record.
  destruct (add_spread_ok call_record
              (<["processed_at" := PStr processed_at]> call_record))
    as [enriched' ->].
  simpl. rewrite Hprice. simpl. rewrite Hsym, Hh. simpl.
  rewrite Htr, append_bounded_last_n.
  eexists _, _. split; [reflexivity |]. split; [reflexivity |].
  simpl. by rewrite hist_get_set.
Qed.

(** A run of calls for one symbol: the [i]-th output carries the
    indicators of the first [i + 1] prices. *)
Lemma enrich_all_outputs sym calls prices :
  hashable sym = true ->
  Forall2 (call_for rt sym) calls prices ->
  forall self ps,
    tracks self sym ps ->
    exists outs self',
      enrich_all rt self calls = Ok (outs, self')
      /\ length outs = length calls
      /\ forall i out,
           outs !! i = Some out ->
           exists enriched,
             out = add_indicators
                     (last_n (max_history_size self) (ps ++ take (S i) prices))
                     enriched.
Proof.
  intros Hh Hcalls. induction Hcalls as [| [t record] p calls prices Hc _ IH];
    intros self ps Htr.
  - exists [], self. repeat split. intros i out Hi. done.
  - destruct (enrich_record_step t self record sym p ps Hh Hc Htr)
      as (enriched & self1 & Hstep & Hcap & Htr1).
    destruct (IH self1 (ps ++ [p])%list Htr1)
      as (outs & self2 & Hall & Hlen & Houts).
    simpl. rewrite Hstep. simpl. rewrite Hall. simpl.
    eexists _, _. split; [reflexivity |]. split; [simpl; lia |].
    intros [| i] out Hi; simpl in Hi.
    + injection Hi as <-. exists enriched. by rewrite take_0.
    + destruct (Houts i out Hi) as [enriched' ->]. exists enriched'.
      rewrite Hcap, <- app_assoc. reflexivity.
Qed.
End Calls.

(** What [add_indicators] stores for a history of ten prices or more. *)
Lemma add_indicators_sma_10 ps enriched :
  (10 <= length ps)%nat ->
  add_indicators ps enriched !! "sma_10"
  = Some (PFloat (sum (last_n 10 ps) / 10)).
Proof.
  intros Hlen. unfold add_indicators.
  replace (10 <=? length ps)%nat with true by (symmetry; by apply Nat.leb_le).
  cbv zeta. unfold dict in *.
  rewrite lookup_insert_ne by done. by rewrite lookup_insert_eq.
Qed.

Lemma add_indicators_volatility ps enriched :
  (10 <= length ps)%nat ->
  add_indicators ps enriched !! "volatility"
  = Some (PFloat (sqrt (variance (last_n 10 ps)))).
Proof.
  intros Hlen. unfold add_indicators.
  replace (10 <=? length ps)%nat with true by (symmetry; by apply Nat.leb_le).
  cbv zeta. unfold dict in *. by rewrite lookup_insert_eq.
Qed.

End EnricherFacts.

Module EnricherTheorems.
Import Enricher EnricherSpec EnricherFacts EnricherExamples.



End EnricherTheorems.

Module ProducerMoreFacts.
Import Producer ProducerSpec ProducerMore.

(** A flush that is refused [failures] times and then answered. *)
Lemma flush_attempts_recover (failures : nat) :
  forall (a : Z) (n : nat) (w : world) (failed_count : Z),
    (failures < n)%nat ->
    a + Z.of_nat failures <= max_retries (producer w) - 1 ->
    (forall i, (i < failures)%nat ->
       stream w (length (put_calls w) + i) = Raises ClientError) ->
    stream w (length (put_calls w) + failures) = Response failed_count ->
    exists w',
      flush_attempts (seqZ a (Z.of_nat n)) w = (Ok true, w')
      /\ producer w' = producer (delivered w failures failed_count)
      /\ stream w' = stream w
      /\ put_calls w'
         = (put_calls w ++ replicate (S failures) (records_buffer (producer w)))%list
      /\ slept w' = (slept w ++ map (Z.pow 2) (seqZ a (Z.of_nat failures)))%list
      /\ flush_calls w' = flush_calls w.
Proof.
  induction failures as [| j IH]; intros a n w k Hn Ha Hfail Hok.
  - destruct n as [| n]; [lia |].
    rewrite (seqZ_cons a (Z.of_nat (S n))) by lia.
    simpl flush_attempts. rewrite Nat.add_0_r in Hok. rewrite Hok. simpl.
    eexists. split; [reflexivity |]. simpl.
    repeat split; by rewrite ?app_nil_r.
  - destruct n as [| n]; [lia |].
    rewrite (seqZ_cons a (Z.of_nat (S n))) by lia.
    replace (Z.pred (Z.of_nat (S n))) with (Z.of_nat n) by lia.
    simpl flush_attempts.
    rewrite <- (Nat.add_0_r (length (put_calls w))), (Hfail 0%nat) by lia.
    simpl.
    destruct (Z.eqb_spec a (max_retries (producer w) - 1)) as [Heq | _];
      [lia |].
    set (w1 := sleep (2 ^ a) (put_records w).2).
    destruct (IH (Z.succ a) n w1 k) as (w' & Hrun & Hp & Hs & Hc & Hz & Hf).
    + lia.
    + subst w1. simpl. lia.
    + intros i Hi. subst w1. simpl. rewrite length_app. simpl.
      replace (length (put_calls w) + 1 + i)%nat
        with (length (put_calls w) + S i)%nat by lia.
      apply Hfail. lia.
    + subst w1. simpl. rewrite length_app. simpl.
      replace (length (put_calls w) + 1 + j)%nat
        with (length (put_calls w) + S j)%nat by lia.
      exact Hok.
    + exists w'. split; [exact Hrun |]. subst w1. simpl in *.
      rewrite Hp, Hs, Hc, Hz, Hf.
      rewrite (seqZ_cons a (Z.of_nat (S j))) by lia.
      replace (Z.pred (Z.of_nat (S j))) with (Z.of_nat j) by lia.
      simpl. rewrite <- !app_assoc. simpl. repeat split.
Qed.

(** What a run of flush attempts keeps, whatever the stream does. *)
Lemma flush_attempts_keeps attempts : forall w,
  let w' := (flush_attempts attempts w).2 in
  stream w' = stream w
  /\ batch_size (producer w') = batch_size (producer w)
  /\ max_retries (producer w') = max_retries (producer w)
  /\ flush_calls w' = flush_calls w.
Proof.
  induction attempts as [| attempt attempts IH]; intros w; [done |].
  simpl. destruct (stream w (length (put_calls w))) as [k | e]; [done |].
  destruct e; try done.
  destruct (_ =? _)%Z; [done |].
  destruct (IH (sleep (2 ^ attempt) (put_records w).2)) as (? & ? & ? & ?).
  done.
Qed.

(** On a stream that answers or refuses, a run of flush attempts returns,
    and keeps the account of the records. *)
Lemma flush_attempts_accounted attempts : forall w,
  answers_or_refuses (stream w) ->
  exists b,
    (flush_attempts attempts w).1 = Ok b
    /\ accounted (flush_attempts attempts w).2 = accounted w.
Proof.
  induction attempts as [| attempt attempts IH]; intros w Hs; [by exists false |].
  simpl. destruct (Hs (length (put_calls w))) as [-> | (k & -> & Hk)].
  - destruct (_ =? _)%Z.
    + exists false. split; [done |]. unfold accounted, len. simpl. lia.
    + apply (IH (sleep (2 ^ attempt) (put_records w).2)). exact Hs.
  - exists true. split; [done |]. unfold accounted, len. simpl.
    destruct (Z.ltb_spec 0 k); lia.
Qed.

Lemma _flush_buffer_accounted w :
  answers_or_refuses (stream w) ->
  exists b,
    (_flush_buffer w).1 = Ok b /\ accounted (_flush_buffer w).2 = accounted w.
Proof.
  intros Hs. unfold _flush_buffer.
  destruct (records_buffer (producer w)); [by exists true |].
  by apply flush_attempts_accounted.
Qed.

Lemma _flush_buffer_keeps w :
  let w' := (_flush_buffer w).2 in
  stream w' = stream w
  /\ batch_size (producer w') = batch_size (producer w)
  /\ max_retries (producer w') = max_retries (producer w)
  /\ flush_calls w' = flush_calls w.
Proof.
  unfold _flush_buffer. destruct (records_buffer (producer w)); [done |].
  apply flush_attempts_keeps.
Qed.

Lemma put_record_keeps market_data w :
  let w' := (put_record market_data w).2 in
  stream w' = stream w
  /\ batch_size (producer w') = batch_size (producer w)
  /\ max_retries (producer w') = max_retries (producer w)
  /\ flush_calls w' = flush_calls w.
Proof.
  unfold put_record. destruct (_ <=? _)%Z; [| done].
  match goal with |- context [_flush_buffer ?w0] =>
    pose proof (_flush_buffer_keeps w0) as H;
    destruct (_flush_buffer w0) as [[b | e] w1]
  end; simpl in *; exact H.
Qed.

Lemma put_record_accounted market_data w :
  answers_or_refuses (stream w) ->
  accounted (put_record market_data w).2 = accounted w + 1.
Proof.
  intros Hs. unfold put_record. destruct (_ <=? _)%Z.
  - match goal with |- context [_flush_buffer ?w0] =>
      destruct (_flush_buffer_accounted w0 Hs) as (b & Hb & Hacc);
      destruct (_flush_buffer w0) as [r w1]
    end.
    simpl in Hb. subst r. simpl in *. rewrite Hacc.
    unfold accounted, len. simpl. rewrite length_app. simpl. lia.
  - simpl. unfold accounted, len. simpl. rewrite length_app. simpl. lia.
Qed.

(** [put_record] on a stream that accepts every batch: the record joins
    the buffer, and the buffer is sent whole when it reaches the batch
    size. *)
Lemma put_record_accepted market_data w :
  accepts_all (stream w) ->
  0 < max_retries (producer w) ->
  let buffer := (records_buffer (producer w) ++ [to_record market_data])%list in
  let w' := (put_record market_data w).2 in
  (len buffer < batch_size (producer w) ->
   records_buffer (producer w') = buffer /\ put_calls w' = put_calls w)
  /\ (batch_size (producer w) <= len buffer ->
      records_buffer (producer w') = []
      /\ put_calls w' = (put_calls w ++ [buffer])%list).
Proof.
  intros Hs Hmax buffer w'. subst w'. unfold put_record. simpl.
  fold (to_record market_data). fold buffer.
  destruct (Z.leb_spec (batch_size (producer w)) (len buffer)) as [Hle | Hlt].
  - split; [lia |]. intros _.
    unfold _flush_buffer. simpl. fold (to_record market_data). fold buffer.
    destruct buffer as [| r b] eqn:Hb; [by destruct (records_buffer (producer w)) |].
    match goal with |- context [flush_attempts _ ?w0] =>
      destruct (flush_attempts_recover 0 0
                  (Z.to_nat (max_retries (producer w))) w0 0)
        as (w1 & Hrun & Hp & _ & Hc & _);
        [lia | simpl; lia | intros; lia | simpl; apply Hs |]
    end.
    rewrite Z2Nat.id in Hrun by lia. simpl in Hrun. rewrite Hrun. simpl.
    rewrite Hp, Hc. simpl. done.
  - split; [done |]. lia.
Qed.

Lemma put_all_keeps trades : forall w,
  stream (put_all trades w) = stream w
  /\ batch_size (producer (put_all trades w)) = batch_size (producer w)
  /\ max_retries (producer (put_all trades w)) = max_retries (producer w).
Proof.
  induction trades as [| t trades IH]; intros w; [done |].
  simpl. destruct (IH (put_record t w).2) as (-> & -> & ->).
  destruct (put_record_keeps t w) as (? & ? & ? & ?). done.
Qed.

End ProducerMoreFacts.

Module ProducerMoreTheorems.
Import Producer ProducerSpec ProducerMore ProducerMoreFacts ProducerExamples
  ProducerMoreExamples.

(** X1: a flush of a non-empty buffer that is refused [failures] times with
    [ClientError], with [failures] below the retry limit, and then answered
    with [failed_count] returns [True] after [failures + 1] calls of
    [put_records], each with the whole buffer, and sleeps of 2^0, 2^1, ...
    seconds after the refusals; the buffer is emptied, the failed records
    are counted and not kept for another attempt. *)
Theorem flush_recovers w failures failed_count :
  records_buffer (producer w) <> [] ->
  Z.of_nat failures < max_retries (producer w) ->
  (forall i, (i < failures)%nat ->
     stream w (length (put_calls w) + i) = Raises ClientError) ->
  stream w (length (put_calls w) + failures) = Response failed_count ->
  exists w',
    flush w = (Ok true, w')
    /\ put_calls w'
       = (put_calls w ++ replicate (S failures) (records_buffer (producer w)))%list
    /\ slept w' = (slept w ++ map (Z.pow 2) (seqZ 0 (Z.of_nat failures)))%list
    /\ records_buffer (producer w') = []
    /\ total_records_sent (producer w')
       = total_records_sent (producer w)
         + (len (records_buffer (producer w)) - failed_count)
    /\ failed_records (producer w')
       = failed_records (producer w) + Z.max 0 failed_count.
Proof.
  intros Hbuf Hmax Hfail Hok. unfold flush, _flush_buffer. simpl.
  destruct (records_buffer (producer w)) as [| r buf] eqn:Hb; [done |].
  set (w0 := {| producer := producer w; stream := stream w;
                put_calls := put_calls w; slept := slept w;
                flush_calls := S (flush_calls w) |}).
  destruct (flush_attempts_recover failures 0
              (Z.to_nat (max_retries (producer w))) w0 failed_count)
    as (w' & Hrun & Hp & Hs & Hc & Hz & Hf); try (simpl; done || lia).
  rewrite Z2Nat.id in Hrun by lia.
  exists w'. split; [exact Hrun |]. simpl in *. rewrite Hp, Hc, Hz, Hb. simpl.
  repeat split. destruct (Z.ltb_spec 0 failed_count); lia.
Qed.

(** X2: on a stream that answers or refuses with [ClientError], every
    record given to [put_record] is accounted for exactly once: the sum of
    the records sent, the records failed and the records in the buffer
    grows by one with each call, and a [flush] leaves it unchanged. *)
Theorem put_all_accounted trades w :
  answers_or_refuses (stream w) ->
  accounted (put_all trades w) = accounted w + len trades
  /\ accounted (flush (put_all trades w)).2 = accounted w + len trades.
Proof.
  intros Hs.
  assert (forall ts w0, answers_or_refuses (stream w0) ->
            accounted (put_all ts w0) = accounted w0 + len ts) as Hall.
  { induction ts as [| t ts IH]; intros w0 Hs0; [unfold len; simpl; lia |].
    simpl. rewrite IH.
    - rewrite put_record_accounted by done. unfold len. simpl. lia.
    - destruct (put_record_keeps t w0) as [-> _]. done. }
  split; [by apply Hall |].
  rewrite <- (Hall trades w Hs). unfold flush.
  match goal with |- context [_flush_buffer ?w0] =>
    destruct (_flush_buffer_accounted w0) as (b & _ & Hacc)
  end.
  { simpl. destruct (put_all_keeps trades w) as [-> _]. done. }
  rewrite Hacc. reflexivity.
Qed.

Lemma put_all_accounted_witness :
  accounted (put_all [btc_trade; btc_trade] (holding_one_record one_refusal)) = 3
  /\ accounted (flush (put_all [btc_trade; btc_trade]
                         (holding_one_record one_refusal))).2 = 3.
Proof.
  apply (put_all_accounted [btc_trade; btc_trade] (holding_one_record one_refusal)).
  intros [| i]; [left | right; exists 0]; done.
Defined.

(** X3: on a stream that accepts every batch, with a retry limit and a
    batch size of at least 1, the batches that a run of [put_record] sends
    have exactly [batch_size] records each, the buffer stays below
    [batch_size], and the batches followed by the buffer are the records
    given, in the order given: none is lost, repeated or reordered. *)
Theorem put_all_batches trades : forall w,
  accepts_all (stream w) ->
  0 < max_retries (producer w) ->
  len (records_buffer (producer w)) < batch_size (producer w) ->
  exists batches,
    put_calls (put_all trades w) = (put_calls w ++ batches)%list
    /\ Forall (fun batch => len batch = batch_size (producer w)) batches
    /\ (concat batches ++ records_buffer (producer (put_all trades w)))%list
       = (records_buffer (producer w) ++ map to_record trades)%list
    /\ len (records_buffer (producer (put_all trades w)))
       < batch_size (producer w).
Proof.
  induction trades as [| t trades IH]; intros w Hs Hmax Hbuf.
  - exists []. simpl. by rewrite !app_nil_r.
  - destruct (put_record_accepted t w Hs Hmax) as [Hbelow Hfull].
    destruct (put_record_keeps t w) as (Hst & Hbs & Hmr & _).
    simpl in Hbelow, Hfull.
    assert (len (records_buffer (producer w) ++ [to_record t])
            = len (records_buffer (producer w)) + 1) as Hlen
      by (unfold len; rewrite length_app; simpl; lia).
    destruct (Z.lt_ge_cases
                (len (records_buffer (producer w) ++ [to_record t]))
                (batch_size (producer w))) as [Hlt | Hge].
    + destruct (Hbelow Hlt) as [Hb Hc].
      destruct (IH (put_record t w).2) as (batches & H1 & H2 & H3 & H4).
      * by rewrite Hst.
      * by rewrite Hmr.
      * rewrite Hb, Hbs. exact Hlt.
      * exists batches. simpl. rewrite H1, Hc. split; [done |].
        rewrite Hbs in H2, H4. split; [done |]. split; [| done].
        rewrite H3, Hb, <- app_assoc. reflexivity.
    + destruct (Hfull Hge) as [Hb Hc].
      destruct (IH (put_record t w).2) as (batches & H1 & H2 & H3 & H4).
      * by rewrite Hst.
      * by rewrite Hmr.
      * rewrite Hb, Hbs. unfold len in *. simpl. lia.
      * exists ((records_buffer (producer w) ++ [to_record t]) :: batches)%list.
        simpl. rewrite H1, Hc, <- app_assoc. split; [done |].
        rewrite Hbs in H2, H4. split; [constructor; [lia | done] |].
        split; [| done].
        rewrite <- app_assoc, H3, Hb. simpl. by rewrite <- app_assoc.
Qed.

Lemma put_all_batches_witness :
  exists batches,
    put_calls (put_all [btc_trade; btc_trade] (new_world accepting))
    = ([] ++ batches)%list
    /\ Forall (fun batch => len batch = 500) batches
    /\ (concat batches
        ++ records_buffer
             (producer (put_all [btc_trade; btc_trade] (new_world accepting))))%list
       = ([] ++ map to_record [btc_trade; btc_trade])%list
    /\ len (records_buffer
              (producer (put_all [btc_trade; btc_trade] (new_world accepting))))
       < 500.
Proof.
  apply (put_all_batches [btc_trade; btc_trade] (new_world accepting)).
  - intros i. reflexivity.
  - reflexivity.
  - reflexivity.
Defined.

(** X4: [get_stats] never divides by zero: the success rate is 1.0 when
    no record has been sent or failed, and otherwise, the counters being
    non-negative, the share of the records sent, between 0 and 1. *)
Theorem get_stats_success_rate self :
  0 <= total_records_sent self ->
  0 <= failed_records self ->
  (total_records_sent self + failed_records self = 0 ->
   stats_success_rate (get_stats self) = 1%R)
  /\ (0 < total_records_sent self + failed_records self ->
      (stats_success_rate (get_stats self)
       * IZR (total_records_sent self + failed_records self)
       = IZR (total_records_sent self))%R)
  /\ (0 <= stats_success_rate (get_stats self) <= 1)%R.
Proof.
  intros Hs Hf. unfold get_stats. simpl.
  destruct (Z.ltb_spec 0 (total_records_sent self + failed_records self))
    as [Hpos | Hzero].
  - assert (0 < IZR (total_records_sent self + failed_records self))%R as Hd
      by (apply IZR_lt; lia).
    split; [lia |]. split.
    + intros _. field. lra.
    + pose proof (IZR_le _ _ Hs) as H0.
      assert (IZR (total_records_sent self)
              <= IZR (total_records_sent self + failed_records self))%R as H1
        by (apply IZR_le; lia).
      split.
      * apply Rmult_le_pos; [lra |]. apply Rlt_le, Rinv_0_lt_compat, Hd.
      * apply (Rmult_le_reg_r (IZR (total_records_sent self + failed_records self)));
          [exact Hd |].
        unfold Rdiv. rewrite Rmult_assoc, Rinv_l by lra. lra.
  - split; [intros _; lra |]. split; [lia | lra].
Qed.

Lemma get_stats_success_rate_witness :
  (0 + 0 = 0 -> stats_success_rate (get_stats new_producer) = 1%R)
  /\ (0 < 0 + 0 ->
      (stats_success_rate (get_stats new_producer) * IZR (0 + 0) = IZR 0)%R)
  /\ (0 <= stats_success_rate (get_stats new_producer) <= 1)%R.
Proof. apply (get_stats_success_rate new_producer); reflexivity. Defined.

Lemma flush_recovers_witness :
  exists w',
    flush (holding_one_record one_refusal) = (Ok true, w')
    /\ put_calls w'
       = (replicate 2 (records_buffer (producer (holding_one_record one_refusal))))%list
    /\ slept w' = [1]
    /\ records_buffer (producer w') = []
    /\ total_records_sent (producer w') = 1
    /\ failed_records (producer w') = 0.
Proof.
  apply (flush_recovers (holding_one_record one_refusal) 1 0).
  - discriminate.
  - reflexivity.
  - intros [| i] Hi; [reflexivity | lia].
  - reflexivity.
Defined.

(** X29: when the call of [put_records] made by the flush of a full
    buffer raises another exception than [ClientError], the flush does not
    catch it and [put_record] does: it returns [False] after that single
    call, without a retry or a sleep, and counts one failed record, while
    the buffer keeps every record, the one just given included, for the next
    flush. *)
Theorem put_record_unexpected_error market_data w e :
  e <> ClientError ->
  batch_size (producer w)
  <= len (records_buffer (producer w) ++ [to_record market_data]) ->
  0 < max_retries (producer w) ->
  stream w (length (put_calls w)) = Raises e ->
  exists w',
    put_record market_data w = (false, w')
    /\ records_buffer (producer w')
       = (records_buffer (producer w) ++ [to_record market_data])%list
    /\ failed_records (producer w') = failed_records (producer w) + 1
    /\ total_records_sent (producer w') = total_records_sent (producer w)
    /\ put_calls w'
       = (put_calls w
          ++ [(records_buffer (producer w) ++ [to_record market_data])%list])%list
    /\ slept w' = slept w.
Proof.
  intros He Hfull Hmax Hs. unfold put_record, to_record in *.
  cbn [producer set_producer records_buffer batch_size].
  destruct (Z.leb_spec (batch_size (producer w))
              (len (records_buffer (producer w)
                    ++ [{| Data := market_data;
                           PartitionKey := symbol market_data |}])))
    as [_ | Hlt]; [| lia].
  unfold _flush_buffer. cbn [producer set_producer records_buffer max_retries].
  destruct (records_buffer (producer w) ++ [_])%list as [| r buffer] eqn:Hbuf;
    [by destruct (records_buffer (producer w)) |].
  rewrite <- Hbuf in *. clear Hbuf r buffer.
  rewrite seqZ_cons by lia. cbn [flush_attempts put_records].
  cbn [producer set_producer put_calls stream]. rewrite Hs.
  destruct e; try done; eexists; (split; [reflexivity |]); simpl; done.
Qed.

Lemma put_record_unexpected_error_witness :
  exists w',
    put_record btc_trade (one_below_batch broken) = (false, w')
    /\ records_buffer (producer w')
       = (records_buffer (producer (one_below_batch broken))
          ++ [to_record btc_trade])%list
    /\ failed_records (producer w') = 0 + 1
    /\ total_records_sent (producer w') = 0
    /\ put_calls w'
       = [(records_buffer (producer (one_below_batch broken))
           ++ [to_record btc_trade])%list]
    /\ slept w' = [].
Proof.
  apply (put_record_unexpected_error btc_trade (one_below_batch broken)
           OSError).
  - discriminate.
  - by vm_compute.
  - reflexivity.
  - reflexivity.
Defined.

End ProducerMoreTheorems.

Module ConnectorMoreFacts.
Import Producer ProducerSpec ConnectorMore.

Lemma lower_ascii_unfold c :
  lower_ascii c = if upper c then ascii_of_nat (nat_of_ascii c + 32) else c.
Proof. reflexivity. Qed.

Lemma lower_ascii_plain c : upper (lower_ascii c) = false.
Proof. destruct c as [[] [] [] [] [] [] [] []]; reflexivity. Qed.

Local Opaque upper lower_ascii.

Lemma lower_ascii_idem c : lower_ascii (lower_ascii c) = lower_ascii c.
Proof.
  rewrite (lower_ascii_unfold (lower_ascii c)), lower_ascii_plain. reflexivity.
Qed.

Lemma lower_idem s : lower (lower s) = lower s.
Proof.
  induction s as [| c s IH]; [reflexivity |].
  simpl. by rewrite lower_ascii_idem, IH.
Qed.

Lemma lower_plain s : plain false (lower s) = true.
Proof.
  induction s as [| c s IH]; [reflexivity |].
  simpl. by rewrite lower_ascii_plain, IH.
Qed.

Lemma remove_dashes_plain s :
  plain false s = true -> plain true (remove_dashes s) = true.
Proof.
  induction s as [| c s IH]; [reflexivity |]. simpl.
  intros H. apply andb_true_iff in H as [H Hs].
  apply andb_true_iff in H as [Hc _].
  destruct (Ascii.eqb c "-") eqn:E; [by apply IH |].
  simpl. rewrite Hc, E. simpl. by apply IH.
Qed.

Lemma remove_dashes_fixed s :
  plain true s = true -> remove_dashes s = s.
Proof.
  induction s as [| c s IH]; [reflexivity |]. simpl.
  intros H. apply andb_true_iff in H as [H Hs].
  apply andb_true_iff in H as [_ Hd]. simpl in Hd.
  destruct (Ascii.eqb c "-"); [done |]. by rewrite IH.
Qed.

Lemma plain_weaken s : plain true s = true -> plain false s = true.
Proof.
  induction s as [| c s IH]; [reflexivity |]. simpl.
  intros H. apply andb_true_iff in H as [H Hs].
  apply andb_true_iff in H as [Hc _]. by rewrite Hc, IH.
Qed.

Lemma lower_fixed s : plain false s = true -> lower s = s.
Proof.
  induction s as [| c s IH]; [reflexivity |]. simpl.
  intros H. apply andb_true_iff in H as [H Hs].
  apply andb_true_iff in H as [Hc _].
  rewrite lower_ascii_unfold. apply negb_true_iff in Hc. rewrite Hc.
  by rewrite IH.
Qed.

(** The symbol a connector writes is in its plain form, and writing it
    again changes nothing. *)
Lemma normalize_plain k s :
  plain (match k with Binance => false | Coinbase => true end) (normalize k s)
  = true.
Proof.
  destruct k; simpl; [apply lower_plain |].
  apply remove_dashes_plain, lower_plain.
Qed.

Lemma normalize_idem k s : normalize k (normalize k s) = normalize k s.
Proof.
  pose proof (normalize_plain k s) as H. destruct k; simpl in *.
  - apply lower_idem.
  - rewrite (lower_fixed (remove_dashes (lower s))) by (by apply plain_weaken).
    by apply remove_dashes_fixed.
Qed.

End ConnectorMoreFacts.

Module StreamerMoreFacts.
Import Producer ProducerSpec ProducerMore ConnectorMore ConnectorFacts
  ConnectorMoreFacts.

(** The record that a complete trade message decodes to. *)
Lemma decode_record rt k data s T p q price volume :
  is_trade k data ->
  data !! symbol_field k = Some (PStr s) ->
  data !! time_field k = Some T ->
  data !! price_field k = Some p ->
  data !! volume_field k = Some q ->
  float_ rt p = Ok price ->
  float_ rt q = Ok volume ->
  exists md,
    decode rt k (Ok data) = Ok (Some md)
    /\ exchange md = name_of k
    /\ symbol md = normalize k s
    /\ Producer.price md = price
    /\ Producer.volume md = volume.
Proof.
  intros He Hs HT Hp Hq Hfp Hfq. destruct k; simpl in *.
  - destruct (calculate_quality_score_complete rt "s" "p" "q" "T" "p" data p price)
      as (score & Hsc & _); rewrite ?Hs, ?HT, ?Hp, ?Hq; eauto.
    unfold binance_process_message, binance_calculate_quality_score, getitem.
    simpl. rewrite He, Hs, HT, Hp, Hq. simpl. rewrite Hfp. simpl. rewrite Hfq.
    simpl. rewrite Hsc. simpl. eexists. split; [reflexivity |]. done.
  - destruct (calculate_quality_score_complete rt "product_id" "price" "size"
                "time" "price" data p price)
      as (score & Hsc & _); rewrite ?Hs, ?HT, ?Hp, ?Hq; eauto.
    unfold coinbase_process_message, coinbase_calculate_quality_score, getitem,
      get.
    simpl. rewrite He, Hs, HT, Hp, Hq. simpl. rewrite Hfp. simpl. rewrite Hfq.
    simpl. rewrite Hsc. simpl. eexists. split; [reflexivity |]. done.
Qed.

(** What a trade that passes [validate] satisfies. *)
Lemma validate_true env md :
  validate env md = true ->
  exchange md <> "" /\ symbol md <> ""
  /\ (0 < Producer.price md)%R
  /\ (PRICE_VALIDATION_MIN env <= Producer.price md <= PRICE_VALIDATION_MAX env)%R
  /\ (VOLUME_VALIDATION_MIN env <= Producer.volume md)%R.
Proof.
  unfold validate. cbn [truthy].
  destruct (String.eqb_spec (exchange md) "") as [E | E]; simpl; [done |].
  destruct (String.eqb_spec (symbol md) "") as [S | S]; simpl; [done |].
  destruct (truthy (timestamp md)); simpl; [| done].
  unfold Rltb, Rleb.
  destruct (Rlt_dec 0 (Producer.price md)); simpl; [| done].
  destruct (Rle_dec (PRICE_VALIDATION_MIN env) (Producer.price md)); simpl;
    [| done].
  destruct (Rle_dec (Producer.price md) (PRICE_VALIDATION_MAX env)); simpl;
    [| done].
  destruct (Rlt_dec (Producer.volume md) (VOLUME_VALIDATION_MIN env));
    [done |].
  intros _. repeat split; try done. lra.
Qed.

(** A run of flush attempts sends the buffer as it is, some number of
    times, and leaves it as it is or empty. *)
Lemma flush_attempts_sends attempts : forall w,
  exists j,
    put_calls (flush_attempts attempts w).2
    = (put_calls w ++ replicate j (records_buffer (producer w)))%list
    /\ (records_buffer (producer (flush_attempts attempts w).2)
        = records_buffer (producer w)
        \/ records_buffer (producer (flush_attempts attempts w).2) = []).
Proof.
  induction attempts as [| attempt attempts IH]; intros w.
  - exists 0%nat. simpl. rewrite app_nil_r. auto.
  - simpl. destruct (stream w (length (put_calls w))) as [k | e].
    + exists 1%nat. simpl. auto.
    + destruct e; try (exists 1%nat; simpl; by auto).
      destruct (_ =? _)%Z; [exists 1%nat; simpl; by auto |].
      destruct (IH (sleep (2 ^ attempt) (put_records w).2)) as (j & Hc & Hb).
      simpl in Hc, Hb. exists (S j). rewrite Hc. simpl.
      rewrite <- app_assoc. simpl. auto.
Qed.

Lemma only_valid_flush env w :
  only_valid env w -> only_valid env (_flush_buffer w).2.
Proof.
  intros Hv. unfold _flush_buffer.
  destruct (records_buffer (producer w)) as [| r0 buf] eqn:Hb; [done |].
  destruct (flush_attempts_sends (seqZ 0 (max_retries (producer w))) w)
    as (j & Hc & Hbuf).
  intros r [Hr | (batch & Hbatch & Hr)].
  - apply Hv. left. destruct Hbuf as [E | E]; rewrite E in Hr; [done |].
    by apply elem_of_nil in Hr.
  - rewrite Hc in Hbatch. apply elem_of_app in Hbatch as [Hbatch | Hbatch].
    + apply Hv. right. eauto.
    + apply elem_of_replicate in Hbatch as [-> _]. apply Hv. by left.
Qed.

Lemma only_valid_put_record env md w :
  validate env md = true ->
  only_valid env w -> only_valid env (put_record md w).2.
Proof.
  intros Hmd Hv. unfold put_record.
  match goal with |- context [_flush_buffer ?w0] =>
    assert (only_valid env w0) as Hv0
  end.
  { intros r [Hr | (batch & Hbatch & Hr)].
    - simpl in Hr. apply elem_of_app in Hr as [Hr | Hr].
      + apply Hv. by left.
      + apply list_elem_of_singleton in Hr as ->. exact Hmd.
    - apply Hv. right. eauto. }
  destruct (_ <=? _)%Z; [| exact Hv0].
  match goal with |- context [_flush_buffer ?w0] =>
    pose proof (only_valid_flush env w0 Hv0) as Hf;
    destruct (_flush_buffer w0) as [[b | e] w1]
  end; simpl in *; [exact Hf |].
  intros r [Hr | Hr]; apply Hf; [by left | by right].
Qed.

Lemma only_valid_read_messages env connector items : forall self,
  only_valid env (kinesis self) ->
  only_valid env (kinesis (read_messages env connector items self).2).
Proof.
  induction items as [| item items IH]; intros self Hv; [done |].
  destruct item as [m |]; simpl.
  - destruct (running self); simpl; [| done].
    destruct (process_message connector m) as [[md |] | e];
      [| by apply IH | done].
    destruct (validate env md) eqn:Hmd; [| by apply IH].
    apply IH. simpl. by apply only_valid_put_record.
  - by apply IH.
Qed.

Lemma only_valid_stream_exchange env connector script :
  forall retry_count self,
    only_valid env (kinesis self) ->
    only_valid env
      (kinesis (stream_exchange_from env connector script retry_count self).2).
Proof.
  induction script as [| s script IH]; intros retry_count self Hv.
  - simpl. by destruct (negb _).
  - simpl. destruct (negb _); [done |].
    destruct s as [| | items fin].
    + by apply IH.
    + unfold on_failure. destruct (_ <? _)%Z; by apply IH.
    + pose proof (only_valid_read_messages env connector items self Hv) as Hr.
      destruct (read_messages env connector items self) as [ex self'].
      simpl in Hr. unfold on_failure.
      destruct ex, fin; try destruct (_ <? _)%Z; by apply IH.
Qed.

Lemma only_valid_gather env tasks : forall self,
  only_valid env (kinesis self) ->
  only_valid env (kinesis (gather env tasks self).2).
Proof.
  induction tasks as [| [connector script] tasks IH]; intros self Hv; [done |].
  simpl. unfold stream_exchange.
  pose proof (only_valid_stream_exchange env connector script 0 self Hv) as H.
  destruct (stream_exchange_from env connector script 0 self) as [[st rc] self'].
  specialize (IH self' H). destruct (gather env tasks self') as [st' self''].
  exact IH.
Qed.

(** Consecutive failures to connect, from the count [retry_count]. *)
Lemma connect_failures env connector (n : nat) :
  forall rest retry_count self,
    running self = true ->
    0 <= retry_count ->
    retry_count + Z.of_nat n <= 9 ->
    stream_exchange_from env connector (replicate n ConnectFails ++ rest)
      retry_count self
    = stream_exchange_from env connector rest (retry_count + Z.of_nat n)
        (waited self
           (map (fun i => Z.min (2 ^ i) (max_reconnect_delay connector))
              (seqZ (retry_count + 1) (Z.of_nat n)))).
Proof.
  induction n as [| n IH]; intros rest rc self Hrun Hrc Hle.
  - simpl. rewrite Z.add_0_r. unfold waited. rewrite app_nil_r.
    by destruct self.
  - cbn [replicate app stream_exchange_from]. rewrite Hrun.
    unfold max_retries_ at 1.
    destruct (Z.ltb_spec rc 10) as [_ | ?]; [| lia]. simpl negb. cbv iota.
    unfold on_failure, max_retries_.
    destruct (Z.ltb_spec (rc + 1) 10) as [_ | ?]; [| lia].
    rewrite IH by (simpl; done || lia).
    rewrite (seqZ_cons (rc + 1) (Z.of_nat (S n))) by lia.
    replace (Z.pred (Z.of_nat (S n))) with (Z.of_nat n) by lia.
    replace (rc + 1 + Z.of_nat n) with (rc + Z.of_nat (S n)) by lia.
    unfold waited, asyncio_sleep. simpl. rewrite <- app_assoc.
    replace (Z.succ (rc + 1)) with (rc + 1 + 1) by lia. reflexivity.
Qed.

(** With the running flag cleared, a session processes nothing more. *)
Lemma read_messages_stopped env connector items : forall self,
  running self = false ->
  read_messages env connector items self
  = (if has_message items then Break else Exhausted, self).
Proof.
  induction items as [| item items IH]; intros self Hrun; [done |].
  destruct item as [m |]; simpl.
  - by rewrite Hrun.
  - rewrite IH by done. unfold _signal_handler. destruct self. simpl in *.
    by subst.
Qed.

End StreamerMoreFacts.

Module StreamerMoreTheorems.
Import Producer ProducerSpec ProducerMore ProducerMoreFacts ConnectorMore
  ConnectorMoreFacts StreamerMoreFacts ProducerExamples ProducerMoreExamples
  ConnectorMoreExamples StreamerExamples.





(** X7: whatever the connectors decode and whatever the tasks meet, every
    record that [main] leaves in the buffer or has handed to [put_records]
    carries a trade that passed [validate]: its price is positive and within
    the configured bounds, its volume is not below the minimum, its exchange
    and symbol are not empty. *)
Theorem main_hands_over_valid_trades env stream tasks r :
  handed_over (kinesis (main env stream tasks).2) r ->
  validate env (Data r) = true
  /\ exchange (Data r) <> "" /\ symbol (Data r) <> ""
  /\ (0 < Producer.price (Data r))%R
  /\ (PRICE_VALIDATION_MIN env <= Producer.price (Data r)
      <= PRICE_VALIDATION_MAX env)%R
  /\ (VOLUME_VALIDATION_MIN env <= Producer.volume (Data r))%R.
Proof.
  intros Hr.
  assert (validate env (Data r) = true) as Hv.
  { revert r Hr. change (only_valid env (kinesis (main env stream tasks).2)).
    unfold main, start. apply only_valid_gather. simpl.
    intros r [Hr | (batch & Hb & _)]; simpl in *.
    - by apply elem_of_nil in Hr.
    - by apply elem_of_nil in Hb. }
  split; [exact Hv |]. by apply validate_true.
Qed.

Lemma decode_btc_trade :
  binance_process_message plain_runtime (Ok binance_trade) = Ok (Some btc_trade).
Proof.
  unfold binance_process_message, binance_calculate_quality_score,
    calculate_quality_score, getitem, get. run.
  unfold btc_trade. do 2 f_equal.
  f_equal; try (vm_compute; reflexivity).
  f_equal. rewrite Rmax_right; lra.
Qed.

Lemma btc_trade_valid : validate default_bounds btc_trade = true.
Proof. unfold validate. run. reflexivity. Qed.

Lemma one_trade_buffered :
  records_buffer
    (producer
       (kinesis
          (main default_bounds accepting
             [(BinanceConnector plain_runtime, signalled_after_one_trade)]).2))
  = [to_record btc_trade].
Proof.
  unfold main, start, new_streamer, new_world, new_producer,
    signalled_after_one_trade.
  simpl. unfold stream_exchange. simpl.
  rewrite decode_btc_trade. simpl. rewrite btc_trade_valid. simpl.
  reflexivity.
Qed.

Lemma main_hands_over_valid_trades_witness :
  validate default_bounds btc_trade = true
  /\ exchange btc_trade <> "" /\ symbol btc_trade <> ""
  /\ (0 < Producer.price btc_trade)%R
  /\ (PRICE_VALIDATION_MIN default_bounds <= Producer.price btc_trade
      <= PRICE_VALIDATION_MAX default_bounds)%R
  /\ (VOLUME_VALIDATION_MIN default_bounds <= Producer.volume btc_trade)%R.
Proof.
  apply (main_hands_over_valid_trades default_bounds accepting
           [(BinanceConnector plain_runtime, signalled_after_one_trade)]
           (to_record btc_trade)).
  left. rewrite one_trade_buffered. apply list_elem_of_here.
Defined.

(** X8: a task that fails to connect [n] times in a row, [n <= 9], has
    waited min(2^1, delay), ..., min(2^n, delay) seconds and goes on; at the
    tenth failure in a row it does not wait again and returns, whatever
    would follow. *)
Theorem reconnect_backoff env connector self :
  running self = true ->
  (forall n,
     (n <= 9)%nat ->
     stream_exchange env connector (replicate n ConnectFails) self
     = (Waiting, Z.of_nat n,
        waited self (backoff (max_reconnect_delay connector) n)))
  /\ (forall rest,
        stream_exchange env connector
          (replicate 10 ConnectFails ++ rest)%list self
        = (Returned, 10,
           waited self (backoff (max_reconnect_delay connector) 9))).
Proof.
  intros Hrun. unfold stream_exchange, backoff. split.
  - intros n Hn.
    rewrite <- (app_nil_r (replicate n ConnectFails)).
    rewrite connect_failures by (done || lia).
    simpl. rewrite Hrun. unfold max_retries_. rewrite !Z.add_0_l.
    destruct (Z.ltb_spec (Z.of_nat n) 10); [reflexivity | lia].
  - intros rest.
    change (replicate 10 ConnectFails ++ rest)%list
      with (replicate 9 ConnectFails ++ ConnectFails :: rest)%list.
    rewrite connect_failures by (done || lia).
    cbn [stream_exchange_from]. unfold waited at 1. cbn [running].
    rewrite Hrun. unfold on_failure, max_retries_. simpl.
    change (0 + Z.of_nat 9 + 1) with 10.
    destruct rest; simpl; rewrite Hrun; reflexivity.
Qed.

Lemma reconnect_backoff_witness :
  (forall n,
     (n <= 9)%nat ->
     stream_exchange default_bounds (BinanceConnector plain_runtime)
       (replicate n ConnectFails)
       {| running := true; kinesis := new_world accepting;
          reconnect_sleeps := [] |}
     = (Waiting, Z.of_nat n,
        waited {| running := true; kinesis := new_world accepting;
                  reconnect_sleeps := [] |} (backoff 60 n)))
  /\ (forall rest,
        stream_exchange default_bounds (BinanceConnector plain_runtime)
          (replicate 10 ConnectFails ++ rest)%list
          {| running := true; kinesis := new_world accepting;
             reconnect_sleeps := [] |}
        = (Returned, 10,
           waited {| running := true; kinesis := new_world accepting;
                     reconnect_sleeps := [] |} (backoff 60 9))).
Proof.
  apply (reconnect_backoff default_bounds (BinanceConnector plain_runtime)).
  reflexivity.
Defined.

(** X9: once the shutdown signal has been handled, a session hands
    nothing more to the producer: the items that follow the signal leave the
    producer as the items before it left it, and a session that starts with
    the signal is left at its first message. *)
Theorem no_processing_after_signal env connector before after self :
  kinesis
    (read_messages env connector (before ++ Signal :: after)%list self).2
  = kinesis (read_messages env connector before self).2
  /\ read_messages env connector (Signal :: after) self
     = (if has_message after then Break else Exhausted, _signal_handler self).
Proof.
  split.
  - revert self. induction before as [| item before IH]; intros self.
    + simpl. by rewrite read_messages_stopped.
    + destruct item as [m |]; simpl; [| apply IH].
      destruct (running self); simpl; [| done].
      destruct (process_message connector m) as [[md |] | e];
        [| apply IH | done].
      destruct (validate env md); apply IH.
  - simpl. by rewrite read_messages_stopped.
Qed.

(** X10: [stop] clears the running flag and flushes once: when the buffer
    is not empty, the retry limit is at least 1 and the stream answers the
    call, the whole buffer goes out in one batch, the buffer is emptied and
    the counters are updated. *)
Theorem stop_delivers_buffer self failed_count :
  records_buffer (producer (kinesis self)) <> [] ->
  0 < max_retries (producer (kinesis self)) ->
  stream (kinesis self) (length (put_calls (kinesis self)))
  = Response failed_count ->
  exists self',
    stop self = (Ok tt, self')
    /\ running self' = false
    /\ flush_calls (kinesis self') = S (flush_calls (kinesis self))
    /\ put_calls (kinesis self')
       = (put_calls (kinesis self)
            ++ [records_buffer (producer (kinesis self))])%list
    /\ records_buffer (producer (kinesis self')) = []
    /\ total_records_sent (producer (kinesis self'))
       = total_records_sent (producer (kinesis self))
         + (len (records_buffer (producer (kinesis self))) - failed_count).
Proof.
  intros Hbuf Hmax Hok. unfold stop, flush, _flush_buffer. simpl.
  destruct (records_buffer (producer (kinesis self))) as [| r buf] eqn:Hb;
    [done |].
  match goal with |- context [flush_attempts _ ?w0] =>
    destruct (flush_attempts_recover 0 0
                (Z.to_nat (max_retries (producer (kinesis self)))) w0
                failed_count)
      as (w1 & Hrun & Hp & _ & Hc & _ & Hf);
      [lia | simpl; lia | intros; lia
      | simpl; rewrite Nat.add_0_r; exact Hok |]
  end.
  rewrite Z2Nat.id in Hrun by lia. rewrite Hrun. simpl.
  eexists. split; [reflexivity |]. simpl in *.
  rewrite Hp, Hc, Hf, Hb. simpl. done.
Qed.

Lemma stop_delivers_buffer_witness :
  exists self',
    stop {| running := true; kinesis := holding_one_record accepting;
            reconnect_sleeps := [] |} = (Ok tt, self')
    /\ running self' = false
    /\ flush_calls (kinesis self') = 1%nat
    /\ put_calls (kinesis self')
       = [records_buffer (producer (holding_one_record accepting))]
    /\ records_buffer (producer (kinesis self')) = []
    /\ total_records_sent (producer (kinesis self')) = 1.
Proof.
  apply (stop_delivers_buffer
           {| running := true; kinesis := holding_one_record accepting;
              reconnect_sleeps := [] |} 0).
  - discriminate.
  - reflexivity.
  - reflexivity.
Defined.

(** X28: a trade message whose symbol is not text makes
    [process_message] raise [AttributeError], which its [except] does not
    catch.  In [stream_exchange] the exception ends the websocket session:
    the messages that follow are not read, the failure is counted as a
    failure to connect and the task sleeps min(2^1, 60) = 2 seconds before
    it connects again. *)
Theorem malformed_symbol_ends_session rt env k data v items fin self :
  running self = true ->
  is_trade k data ->
  data !! symbol_field k = Some v ->
  (forall s, v <> PStr s) ->
  decode rt k (Ok data) = Raise AttributeError
  /\ stream_exchange env (connector_of rt k)
       [Connected (Message (Ok data) :: items) fin] self
     = (Waiting, 1, asyncio_sleep 2 self).
Proof.
  intros Hrun He Hv Hs.
  assert (decode rt k (Ok data) = Raise AttributeError) as Hd.
  { destruct k; simpl in *.
    - unfold binance_process_message, getitem. simpl. rewrite He, Hv. simpl.
      destruct v; try done. by destruct (Hs s).
    - unfold coinbase_process_message, getitem, get. simpl.
      rewrite He, Hv. simpl. destruct v; try done. by destruct (Hs s). }
  split; [exact Hd |].
  assert (process_message (connector_of rt k) (Ok data) = Raise AttributeError)
    as Hp by (by destruct k).
  assert (max_reconnect_delay (connector_of rt k) = 60) as Hmax
    by (by destruct k).
  unfold stream_exchange. cbn [stream_exchange_from read_messages].
  rewrite Hrun, Hp. simpl. unfold on_failure. simpl. rewrite Hmax. simpl.
  by rewrite Hrun.
Qed.

Lemma malformed_symbol_ends_session_witness :
  decode plain_runtime Binance (Ok binance_numeric_symbol)
  = Raise AttributeError
  /\ stream_exchange default_bounds (connector_of plain_runtime Binance)
       [Connected [Message (Ok binance_numeric_symbol);
                   Message (Ok binance_trade)] Closed]
       {| running := true; kinesis := new_world accepting;
          reconnect_sleeps := [] |}
     = (Waiting, 1,
        asyncio_sleep 2
          {| running := true; kinesis := new_world accepting;
             reconnect_sleeps := [] |}).
Proof.
  apply (malformed_symbol_ends_session plain_runtime default_bounds Binance
           binance_numeric_symbol (PInt 7)).
  - reflexivity.
  - reflexivity.
  - reflexivity.
  - discriminate.
Defined.

End StreamerMoreTheorems.
Module ValidatorMoreFacts.
Import Validator ValidatorSpec ValidatorFacts ValidatorMore.

Lemma Rleb_iff x y : Rleb x y = true <-> (x <= y)%R.
Proof. unfold Rleb. destruct (Rle_dec x y); split; (done || lra). Qed.

Lemma Rltb_iff x y : Rltb x y = true <-> (x < y)%R.
Proof. unfold Rltb. destruct (Rlt_dec x y); split; (done || lra). Qed.

Section Checks.
Context (rt : runtime) (self : DataQualityValidator).
Context (current_time : Z) (record : dict).

Lemma check_price_verdict a :
  exists a' extra,
    check_price rt self record a = Ok a' /\ extends a a' extra
    /\ verdict 0.3 (price_ok rt self record) extra.
Proof.
  unfold check_price, price_ok. destruct (record !! "price") as [v |].
  2: { exists a, []. split; [done |]. split; [apply extends_nil |]. by left. }
  destruct (float_ rt v) as [p | e] eqn:Hf; simpl.
  - destruct (Rleb (min_price self) p) eqn:H1;
      [destruct (Rleb p (max_price self)) eqn:H2 |]; simpl.
    + exists a, []. split; [done |]. split; [apply extends_nil |]. left.
      split; [done |]. exists p. apply Rleb_iff in H1, H2. done.
    + eexists _, [_]. split; [done |].
      split; [apply (extends_push a (PriceOutOfRange _ _ _)) |].
      right. eexists. repeat split; try done.
      intros (p' & [= <-] & _ & Hle). apply Rleb_iff in Hle. congruence.
    + eexists _, [_]. split; [done |].
      split; [apply (extends_push a (PriceOutOfRange _ _ _)) |].
      right. eexists. repeat split; try done.
      intros (p' & [= <-] & Hle & _). apply Rleb_iff in Hle. congruence.
  - apply PyFacts.float_raises in Hf as Hf'. destruct Hf' as [-> | ->];
      simpl;
      (eexists _, [_]; split; [done |]; split;
       [apply (extends_push a InvalidPriceFormat) |];
       right; eexists; repeat split; try done;
       by intros (p' & [=] & _)).
Qed.

Lemma check_volume_verdict a :
  exists a' extra,
    check_volume rt self record a = Ok a' /\ extends a a' extra
    /\ verdict 0.2 (volume_ok rt self record) extra.
Proof.
  unfold check_volume, volume_ok. destruct (record !! "volume") as [v |].
  2: { exists a, []. split; [done |]. split; [apply extends_nil |]. by left. }
  destruct (float_ rt v) as [q | e] eqn:Hf; simpl.
  - destruct (Rltb q (min_volume self)) eqn:H1.
    + eexists _, [_]. split; [done |].
      split; [apply (extends_push a (VolumeBelowMin _ _)) |].
      right. eexists. repeat split; try done.
      intros (q' & [= <-] & Hle). apply Rltb_iff in H1. lra.
    + exists a, []. split; [done |]. split; [apply extends_nil |]. left.
      split; [done |]. exists q. split; [done |].
      destruct (Rle_dec (min_volume self) q) as [| Hn]; [done |].
      assert (Rltb q (min_volume self) = true) by (apply Rltb_iff; lra).
      congruence.
  - apply PyFacts.float_raises in Hf as Hf'. destruct Hf' as [-> | ->];
      simpl;
      (eexists _, [_]; split; [done |]; split;
       [apply (extends_push a InvalidVolumeFormat) |];
       right; eexists; repeat split; try done;
       by intros (q' & [=] & _)).
Qed.

Lemma check_timestamp_verdict a :
  exists a' extra,
    check_timestamp rt self current_time record a = Ok a'
    /\ extends a a' extra
    /\ verdict 0.1 (timestamp_ok rt self current_time record) extra.
Proof.
  unfold check_timestamp, timestamp_ok.
  destruct (record !! "timestamp") as [v |].
  2: { exists a, []. split; [done |]. split; [apply extends_nil |]. by left. }
  destruct (int_ rt v) as [t | e] eqn:Hf; simpl.
  - destruct (Z.ltb_spec (timestamp_tolerance self * 1000)
                (Z.abs (current_time - t))) as [Hlt | Hge].
    + eexists _, [_]. split; [done |].
      split; [apply (extends_push a (TimestampTooOld _)) |].
      right. eexists. repeat split; try done.
      intros (t' & [= <-] & Hle). lia.
    + exists a, []. split; [done |]. split; [apply extends_nil |]. left.
      split; [done |]. by exists t.
  - apply PyFacts.int_raises in Hf as Hf'. destruct Hf' as [-> | ->];
      simpl;
      (eexists _, [_]; split; [done |]; split;
       [apply (extends_push a InvalidTimestampFormat) |];
       right; eexists; repeat split; try done;
       by intros (t' & [=] & _)).
Qed.

Lemma check_exchange_verdict a :
  exchange_is_text record ->
  exists a' extra,
    check_exchange rt record a = Ok a' /\ extends a a' extra
    /\ verdict 0.2 (exchange_ok record) extra.
Proof.
  unfold check_exchange, exchange_is_text, exchange_ok.
  destruct (record !! "exchange") as [v |].
  2: { exists a, []. split; [done |]. split; [apply extends_nil |]. by left. }
  destruct v as [| | | | s |]; try done. intros _. simpl.
  destruct (bool_decide (lower s ∈ valid_exchanges)) eqn:Hd; simpl.
  - apply bool_decide_eq_true in Hd.
    exists a, []. split; [done |]. split; [apply extends_nil |]. by left.
  - apply bool_decide_eq_false in Hd.
    eexists _, [_]. split; [done |].
    split; [apply (extends_push a (InvalidExchange _)) |].
    right. eexists. by repeat split.
Qed.

(** The call as a whole: the entries of the five steps, one after the
    other, and a score that has lost their weights. *)
Lemma validate_record_verdicts :
  exchange_is_text record ->
  exists l1 l2 l3 l4,
    let errors :=
      (map MissingField (missing_fields record) ++ l1 ++ l2 ++ l3 ++ l4)%list in
    validate_record rt self current_time record
    = Ok (Rleb (quality_threshold self) (1 - total_weight errors),
          Rmax 0 (1 - total_weight errors), errors)
    /\ verdict 0.3 (price_ok rt self record) l1
    /\ verdict 0.2 (volume_ok rt self record) l2
    /\ verdict 0.1 (timestamp_ok rt self current_time record) l3
    /\ verdict 0.2 (exchange_ok record) l4.
Proof.
  intros Hex.
  pose proof (check_required_extends record ([], 1.0%R)) as X0.
  set (a0 := check_required record ([], 1.0%R)) in *.
  destruct (check_price_verdict a0) as (a1 & l1 & E1 & X1 & V1).
  destruct (check_volume_verdict a1) as (a2 & l2 & E2 & X2 & V2).
  destruct (check_timestamp_verdict a2) as (a3 & l3 & E3 & X3 & V3).
  destruct (check_exchange_verdict a3 Hex) as (a4 & l4 & E4 & X4 & V4).
  exists l1, l2, l3, l4. cbv zeta. repeat split; try done.
  unfold validate_record. fold a0. unfold mbind, result_bind.
  rewrite E1. simpl. rewrite E2. simpl. rewrite E3. simpl. rewrite E4. simpl.
  pose proof (extends_trans _ _ _ _ _ X0
                (extends_trans _ _ _ _ _ X1
                   (extends_trans _ _ _ _ _ X2
                      (extends_trans _ _ _ _ _ X3 X4)))) as [Herr Hscore].
  simpl in Herr, Hscore. rewrite Herr, Hscore.
  repeat f_equal; lra.
Qed.
End Checks.

Lemma total_weight_missing_fields (fields : list string) :
  total_weight (map MissingField fields) = (0.2 * INR (length fields))%R.
Proof.
  induction fields as [| f fields IH]; [simpl; lra |].
  rewrite length_cons, S_INR. simpl.
  fold (total_weight (map MissingField fields)). rewrite IH. lra.
Qed.

Lemma about_price_weight r : about_price r = true <-> weight r = 0.3%R.
Proof. destruct r; simpl; split; (done || lra). Qed.

End ValidatorMoreFacts.

Module ValidatorMoreTheorems.
Import Validator ValidatorSpec ValidatorFacts ValidatorMore ValidatorMoreFacts
  ValidatorExamples ValidatorMoreExamples.







End ValidatorMoreTheorems.
Module EnricherMoreFacts.
Import Enricher EnricherSpec EnricherFacts EnricherMore.

(** Python's [==] on keys: two keys are equal when they are of one
    class. *)
Lemma key_eqb_class a b :
  key_eqb a b = true <-> exists c, class_of a = Some c /\ class_of b = Some c.
Proof.
  destruct a as [| [] | ? | ? | ? |], b as [| [] | ? | ? | ? |]; simpl;
    try (split; [done | by intros (c & [= <-] & [=])]);
    try (split; [by eexists | done]);
    try (destruct (Req_dec_T _ _) as [E | E]; split;
         first [ done
               | intros _; eexists; split; [reflexivity | congruence]
               | intros (c & [= <-] & [= E']); congruence ]).
  rewrite String.eqb_eq. split; [intros ->; by eexists |].
  by intros (c & [= <-] & [= ->]).
Qed.

Lemma key_eqb_sym a b : key_eqb a b = key_eqb b a.
Proof.
  destruct (key_eqb a b) eqn:E1, (key_eqb b a) eqn:E2; try done.
  - apply key_eqb_class in E1 as (c & H1 & H2).
    assert (key_eqb b a = true) by (apply key_eqb_class; eauto). congruence.
  - apply key_eqb_class in E2 as (c & H1 & H2).
    assert (key_eqb a b = true) by (apply key_eqb_class; eauto). congruence.
Qed.

Lemma key_eqb_trans a b c :
  key_eqb a b = true -> key_eqb b c = true -> key_eqb a c = true.
Proof.
  rewrite !key_eqb_class. intros (x & H1 & H2) (y & H3 & H4).
  exists x. split; [done |]. congruence.
Qed.

Lemma key_eqb_hashable a b : key_eqb a b = true -> hashable a = true.
Proof. by destruct a, b. Qed.

Lemma key_eqb_false_l a b c :
  key_eqb a b = true -> key_eqb a c = false -> key_eqb b c = false.
Proof.
  intros Hab Hac. destruct (key_eqb b c) eqn:Hbc; [| done].
  by rewrite (key_eqb_trans a b c Hab Hbc) in Hac.
Qed.

(** Two equal keys find the same entry. *)
Lemma hist_get_equal_keys h k k' :
  key_eqb k k' = true -> hist_get h k = hist_get h k'.
Proof.
  intros Hk. induction h as [| [k0 ps0] h IH]; simpl; [done |].
  destruct (key_eqb k0 k) eqn:E.
  - by rewrite (key_eqb_trans k0 k k' E Hk).
  - rewrite key_eqb_sym in Hk.
    destruct (key_eqb k0 k') eqn:E'; [| exact IH].
    by rewrite (key_eqb_trans k0 k' k E' Hk) in E.
Qed.

Lemma hist_get_set_equal h k k' ps :
  key_eqb k k' = true -> hist_get (hist_set h k ps) k' = Some ps.
Proof.
  intros Hk.
  rewrite <- (hist_get_equal_keys _ k k' Hk).
  apply hist_get_set. by apply key_eqb_hashable in Hk.
Qed.

Lemma hist_get_set_other h k k' ps :
  key_eqb k k' = false -> hist_get (hist_set h k ps) k' = hist_get h k'.
Proof.
  intros Hk. induction h as [| [k0 ps0] h IH]; simpl.
  - by rewrite Hk.
  - destruct (key_eqb k0 k) eqn:E; simpl.
    + rewrite key_eqb_sym in E.
      assert (key_eqb k0 k' = false) as ->; [| done].
      destruct (key_eqb k0 k') eqn:E'; [| done].
      by rewrite (key_eqb_trans k k0 k' E E') in Hk.
    + by rewrite IH.
Qed.

Lemma prices_for_app rt sym calls1 calls2 :
  prices_for rt sym (calls1 ++ calls2)
  = (prices_for rt sym calls1 ++ prices_for rt sym calls2)%list.
Proof.
  induction calls1 as [| [t r] calls1 IH]; simpl; [done |].
  by rewrite IH, app_assoc.
Qed.

Lemma last_last_n {A} n (l : list A) :
  (0 < n)%nat -> last (last_n n l) = last l.
Proof.
  intros Hn. unfold last_n.
  destruct l as [| x l] using rev_ind; [by rewrite drop_nil |].
  rewrite drop_app_le by (rewrite length_app; simpl; lia).
  rewrite length_app. simpl.
  replace (length l + 1 - n)%nat with (length l - (n - 1))%nat by lia.
  destruct (decide (length l - (n - 1) <= length l)%nat); [| lia].
  rewrite !last_snoc. done.
Qed.

(** What [add_indicators], [add_price_change] and [add_spread] leave
    alone. *)
Lemma add_indicators_other ps enriched k :
  k <> "sma_5" -> k <> "sma_10" -> k <> "volatility" ->
  add_indicators ps enriched !! k = enriched !! k.
Proof.
  intros H5 H10 Hv. unfold add_indicators. cbv zeta. unfold dict in *.
  destruct (5 <=? length ps)%nat, (10 <=? length ps)%nat;
    rewrite ?lookup_insert_ne by done; done.
Qed.

Lemma add_indicators_sma_5 ps enriched :
  add_indicators ps enriched !! "sma_5"
  = if (5 <=? length ps)%nat then Some (PFloat (sum (last_n 5 ps) / 5))
    else enriched !! "sma_5".
Proof.
  unfold add_indicators. cbv zeta. unfold dict in *.
  destruct (5 <=? length ps)%nat, (10 <=? length ps)%nat;
    rewrite ?lookup_insert_ne by done; rewrite ?lookup_insert_eq; done.
Qed.

Lemma add_indicators_early ps enriched k :
  (length ps < 10)%nat -> k <> "sma_5" ->
  add_indicators ps enriched !! k = enriched !! k.
Proof.
  intros Hlen Hk. unfold add_indicators. cbv zeta. unfold dict in *.
  destruct (Nat.leb_spec 10 (length ps)); [lia |].
  destruct (5 <=? length ps)%nat; rewrite ?lookup_insert_ne by done; done.
Qed.

Lemma add_price_change_other h price enriched k :
  k <> "price_change" -> k <> "price_change_percentage" ->
  add_price_change h price enriched !! k = enriched !! k.
Proof.
  intros H1 H2. unfold add_price_change. unfold dict in *.
  destruct h as [ps |]; [| done]. destruct (last ps); [| done].
  destruct (Rltb 0 r); rewrite ?lookup_insert_ne by done; done.
Qed.

Lemma add_spread_other rt record enriched enriched' k :
  add_spread rt record enriched = Ok enriched' ->
  k <> "spread" -> k <> "spread_percentage" ->
  enriched' !! k = enriched !! k.
Proof.
  intros Hs H1 H2. unfold add_spread in Hs. unfold dict in *.
  destruct (record !! "bid") as [vb |]; [| by injection Hs as <-].
  destruct (record !! "ask") as [va |]; [| by injection Hs as <-].
  destruct (float_ rt vb) as [bid | e] eqn:Hb; simpl in Hs.
  - destruct (float_ rt va) as [ask | e] eqn:Ha; simpl in Hs.
    + destruct (_ && _); injection Hs as <-;
        rewrite ?lookup_insert_ne by done; done.
    + apply PyFacts.float_raises in Ha as [-> | ->]; simpl in Hs;
        by injection Hs as <-.
  - apply PyFacts.float_raises in Hb as [-> | ->]; simpl in Hs;
      by injection Hs as <-.
Qed.

(** A call that returns has gone through every step. *)
Lemma enrich_record_returns rt processed_at self record out self' :
  enrich_record rt processed_at self record = Ok (out, self') ->
  exists enriched price,
    let h := hist_get (price_history self) (symbol_of record) in
    let ps := append_bounded (max_history_size self) (default [] h) price in
    add_spread rt record (<["processed_at" := PStr processed_at]> record)
    = Ok enriched
    /\ price_of rt record = Ok price
    /\ hashable (symbol_of record) = true
    /\ out = add_indicators ps (add_price_change h price enriched)
    /\ self' = {| price_history :=
                    hist_set (price_history self) (symbol_of record) ps;
                  max_history_size := max_history_size self |}.
Proof.
  unfold enrich_record, symbol_of, price_of. intros H.
  destruct (add_spread rt record _) as [enriched | e]; [| done].
  simpl in H.
  destruct (float_ rt (default (PInt 0) (record !! "price")))
    as [price | e]; [| done].
  simpl in H.
  destruct (hashable (default (PStr "unknown") (record !! "symbol")));
    [| done].
  simpl in H. injection H as <- <-. by exists enriched, price.
Qed.

Lemma enrich_record_follows rt processed_at self record out self' before :
  follows rt self before ->
  enrich_record rt processed_at self record = Ok (out, self') ->
  max_history_size self' = max_history_size self
  /\ follows rt self' (before ++ [(processed_at, record)]).
Proof.
  intros Hf Hrun.
  destruct (enrich_record_returns _ _ _ _ _ _ Hrun)
    as (enriched & price & _ & Hp & Hh & _ & ->). cbv zeta.
  split; [done |]. intros sym Hsym. simpl.
  rewrite prices_for_app. simpl. rewrite Hp, app_nil_r.
  destruct (key_eqb (symbol_of record) sym) eqn:E.
  - rewrite hist_get_set_equal by done. simpl.
    rewrite (hist_get_equal_keys _ _ _ E), (Hf sym Hsym).
    apply append_bounded_last_n.
  - rewrite hist_get_set_other by done. rewrite app_nil_r. by apply Hf.
Qed.

Lemma enrich_all_follows rt calls :
  forall self before outs self',
    follows rt self before ->
    enrich_all rt self calls = Ok (outs, self') ->
    max_history_size self' = max_history_size self
    /\ follows rt self' (before ++ calls).
Proof.
  induction calls as [| [t record] calls IH]; intros self before outs self' Hf.
  - simpl. intros [= <- <-]. by rewrite app_nil_r.
  - simpl. destruct (enrich_record rt t self record) as [[out self1] | e] eqn:E1;
      [| done].
    simpl. destruct (enrich_all rt self1 calls) as [[outs1 self2] | e] eqn:E2;
      [| done].
    simpl. intros [= <- <-].
    destruct (enrich_record_follows _ _ _ _ _ _ before Hf E1) as [Hc1 Hf1].
    destruct (IH _ _ _ _ Hf1 E2) as [Hc2 Hf2].
    split; [congruence |].
    replace (before ++ (t, record) :: calls)%list
      with ((before ++ [(t, record)]) ++ calls)%list
      by (by rewrite <- app_assoc).
    exact Hf2.
Qed.

Lemma new_enricher_follows rt : follows rt new_enricher [].
Proof. intros sym _. reflexivity. Qed.

(** A callable record is enriched: the call returns. *)
Lemma enrich_record_ok rt t self record :
  callable rt (t, record) ->
  exists out self', enrich_record rt t self record = Ok (out, self').
Proof.
  intros [[price Hp] Hh]. unfold price_of, symbol_of in *. simpl in *.
  unfold enrich_record.
  destruct (add_spread_ok rt record (<["processed_at" := PStr t]> record))
    as [enriched ->].
  simpl. rewrite Hp. simpl. rewrite Hh. simpl. by eexists _, _.
Qed.

Lemma enrich_all_ok rt calls :
  Forall (callable rt) calls ->
  forall self, exists outs self', enrich_all rt self calls = Ok (outs, self').
Proof.
  induction 1 as [| [t record] calls Hc _ IH]; intros self.
  - by exists [], self.
  - destruct (enrich_record_ok rt t self record Hc) as (out & self1 & H1).
    destruct (IH self1) as (outs & self2 & H2).
    simpl. rewrite H1. simpl. rewrite H2. simpl. by eexists _, _.
Qed.

End EnricherMoreFacts.

Module EnricherMoreTheorems.
Import Enricher EnricherSpec EnricherFacts EnricherMore EnricherMoreFacts
  EnricherMoreExamples.

Lemma two_symbols_callable : Forall (callable plain_runtime) two_symbols.
Proof. repeat constructor; by eexists. Qed.

(** X14: after any run of calls on a fresh enricher, whatever symbols
    they carry and in whatever order, the history kept for a key is the last
    100 prices of the calls for that key, in the order of the calls: calls
    for other symbols do not touch it, and it never holds more than 100
    prices. *)
Theorem histories_follow_calls rt calls outs self' sym :
  enrich_all rt new_enricher calls = Ok (outs, self') ->
  hashable sym = true ->
  default [] (hist_get (price_history self') sym)
  = last_n 100 (prices_for rt sym calls)
  /\ (length (default [] (hist_get (price_history self') sym)) <= 100)%nat.
Proof.
  intros Hrun Hsym.
  destruct (enrich_all_follows rt calls new_enricher [] outs self'
              (new_enricher_follows rt) Hrun) as [Hcap Hf].
  specialize (Hf sym Hsym). rewrite Hcap in Hf. simpl in Hf.
  split; [exact Hf |]. rewrite Hf, length_last_n. lia.
Qed.

Lemma histories_follow_calls_witness :
  exists outs self',
    enrich_all plain_runtime new_enricher two_symbols = Ok (outs, self')
    /\ default [] (hist_get (price_history self') (PStr "ethusdt"))
       = last_n 100 (prices_for plain_runtime (PStr "ethusdt") two_symbols)
    /\ (length (default [] (hist_get (price_history self') (PStr "ethusdt")))
        <= 100)%nat.
Proof.
  destruct (enrich_all_ok plain_runtime two_symbols two_symbols_callable
              new_enricher) as (outs & self' & Hrun).
  exists outs, self'. split; [exact Hrun |].
  apply (histories_follow_calls plain_runtime two_symbols outs self'
           (PStr "ethusdt") Hrun).
  reflexivity.
Defined.

(** X15: the call that follows any run of calls, when it returns: if
    the previous price of its symbol (among the calls of the run for that
    symbol) is positive, [price_change] is the price minus that previous
    price and [price_change_percentage] is the change over the previous
    price times 100; if there is no previous price for the symbol, or it is
    not positive, the two fields are as the input record has them. *)
Theorem price_change_after_run rt before outs self t record out self' price :
  enrich_all rt new_enricher before = Ok (outs, self) ->
  enrich_record rt t self record = Ok (out, self') ->
  price_of rt record = Ok price ->
  match last (prices_for rt (symbol_of record) before) with
  | Some previous =>
      if Rltb 0 previous
      then out !! "price_change" = Some (PFloat (price - previous))
           /\ out !! "price_change_percentage"
              = Some (PFloat ((price - previous) / previous * 100))
      else out !! "price_change" = record !! "price_change"
           /\ out !! "price_change_percentage"
              = record !! "price_change_percentage"
  | None =>
      out !! "price_change" = record !! "price_change"
      /\ out !! "price_change_percentage" = record !! "price_change_percentage"
  end.
Proof.
  intros Hrun Hcall Hprice.
  destruct (enrich_all_follows rt before new_enricher [] outs self
              (new_enricher_follows rt) Hrun) as [Hcap Hf].
  destruct (enrich_record_returns _ _ _ _ _ _ Hcall)
    as (enriched & price' & Hs & Hp & Hh & -> & _). cbv zeta.
  rewrite Hprice in Hp. injection Hp as <-.
  specialize (Hf _ Hh). rewrite Hcap in Hf. simpl in Hf.
  assert (forall k, k <> "spread" -> k <> "spread_percentage" ->
                    k <> "processed_at" -> enriched !! k = record !! k) as He.
  { intros k H1 H2 H3. rewrite (add_spread_other _ _ _ _ k Hs H1 H2).
    unfold dict in *. by rewrite lookup_insert_ne. }
  rewrite !add_indicators_other by done.
  set (h := hist_get (price_history self) (symbol_of record)) in *.
  assert (match h with Some ps => last ps | None => None end
          = last (prices_for rt (symbol_of record) before)) as Hlast.
  { rewrite <- (last_last_n 100) by lia. rewrite <- Hf. by destruct h. }
  rewrite <- Hlast. unfold add_price_change.
  destruct h as [ps |]; [| by rewrite !He].
  destruct (last ps) as [previous |]; [| by rewrite !He].
  destruct (Rltb 0 previous); [| by rewrite !He].
  unfold dict in *.
  rewrite lookup_insert_ne by done. by rewrite !lookup_insert_eq.
Qed.

Lemma price_change_after_run_witness :
  exists outs self out self',
    enrich_all plain_runtime new_enricher two_symbols = Ok (outs, self)
    /\ enrich_record plain_runtime at_noon self (call "ethusdt" 12).2
       = Ok (out, self')
    /\ out !! "price_change" = Some (PFloat (12 - 9))
    /\ out !! "price_change_percentage" = Some (PFloat ((12 - 9) / 9 * 100)).
Proof.
  destruct (enrich_all_ok plain_runtime two_symbols two_symbols_callable
              new_enricher) as (outs & self & Hrun).
  destruct (enrich_record_ok plain_runtime at_noon self (call "ethusdt" 12).2)
    as (out & self' & Hcall); [split; [by eexists | done] |].
  exists outs, self, out, self'. split; [exact Hrun |]. split; [exact Hcall |].
  pose proof (price_change_after_run plain_runtime two_symbols outs self
                at_noon (call "ethusdt" 12).2 out self' 12 Hrun Hcall eq_refl)
    as H.
  change (last (prices_for plain_runtime (symbol_of (call "ethusdt" 12).2)
                  two_symbols))
    with (Some 9%R) in H.
  cbv beta iota in H. rewrite PyFacts.Rltb_true in H by lra. exact H.
Defined.

(** X16: the call that follows any run of calls, when it returns, with
    [n] the number of prices seen for its symbol, this call included, and at
    most 100: for [n < 5] the fields [sma_5], [sma_10] and [volatility] are
    as the input record has them; for [5 <= n], [sma_5] is the arithmetic
    mean of the last 5 prices of the symbol; for [n < 10], [sma_10] and
    [volatility] are still as the input has them. *)
Theorem indicators_need_history rt before outs self t record out self' price :
  enrich_all rt new_enricher before = Ok (outs, self) ->
  enrich_record rt t self record = Ok (out, self') ->
  price_of rt record = Ok price ->
  ((length (prices_seen rt before record price) < 5)%nat ->
   out !! "sma_5" = record !! "sma_5")
  /\ ((5 <= length (prices_seen rt before record price))%nat ->
      out !! "sma_5"
      = Some (PFloat (arithmetic_mean
                        (last_n 5 (prices_seen rt before record price)))))
  /\ ((length (prices_seen rt before record price) < 10)%nat ->
      out !! "sma_10" = record !! "sma_10"
      /\ out !! "volatility" = record !! "volatility").
Proof.
  intros Hrun Hcall Hprice.
  set (prices := prices_seen rt before record price).
  destruct (enrich_all_follows rt before new_enricher [] outs self
              (new_enricher_follows rt) Hrun) as [Hcap Hf].
  destruct (enrich_record_returns _ _ _ _ _ _ Hcall)
    as (enriched & price' & Hs & Hp & Hh & -> & _). cbv zeta.
  rewrite Hprice in Hp. injection Hp as <-.
  specialize (Hf _ Hh). rewrite Hcap in *. simpl in Hf.
  assert (forall k, k <> "spread" -> k <> "spread_percentage" ->
                    k <> "processed_at" -> k <> "price_change" ->
                    k <> "price_change_percentage" ->
                    add_price_change
                      (hist_get (price_history self) (symbol_of record))
                      price enriched !! k = record !! k) as He.
  { intros k H1 H2 H3 H4 H5. rewrite add_price_change_other by done.
    rewrite (add_spread_other _ _ _ _ k Hs H1 H2).
    unfold dict in *. by rewrite lookup_insert_ne. }
  rewrite Hf, append_bounded_last_n.
  change (prices_for rt (symbol_of record) before ++ [price])%list
    with prices.
  assert (length (last_n 100 prices) = Nat.min 100 (length prices)) as Hlen
    by apply length_last_n.
  split; [| split].
  - intros Hn. rewrite add_indicators_sma_5.
    destruct (Nat.leb_spec 5 (length (last_n 100 prices))); [lia |].
    by apply He.
  - intros Hn. rewrite add_indicators_sma_5.
    destruct (Nat.leb_spec 5 (length (last_n 100 prices))); [| lia].
    rewrite last_n_last_n by lia. rewrite sum_total.
    unfold arithmetic_mean. rewrite length_last_n.
    replace (Nat.min 5 (length prices)) with 5%nat by lia.
    do 2 f_equal. simpl. lra.
  - intros Hn.
    rewrite !add_indicators_early by (done || lia). split; by apply He.
Qed.

Lemma indicators_need_history_witness :
  exists outs self out self',
    enrich_all plain_runtime new_enricher two_symbols = Ok (outs, self)
    /\ enrich_record plain_runtime at_noon self (call "btcusdt" 108).2
       = Ok (out, self')
    /\ out !! "sma_5"
       = Some (PFloat (arithmetic_mean [100; 102; 104; 106; 108]%R))
    /\ out !! "sma_10" = None
    /\ out !! "volatility" = None.
Proof.
  destruct (enrich_all_ok plain_runtime two_symbols two_symbols_callable
              new_enricher) as (outs & self & Hrun).
  destruct (enrich_record_ok plain_runtime at_noon self (call "btcusdt" 108).2)
    as (out & self' & Hcall); [split; [by eexists | done] |].
  exists outs, self, out, self'. split; [exact Hrun |]. split; [exact Hcall |].
  destruct (indicators_need_history plain_runtime two_symbols outs self
              at_noon (call "btcusdt" 108).2 out self' 108 Hrun Hcall eq_refl)
    as (_ & H5 & H10).
  split; [apply H5; vm_compute; lia |]. apply H10. vm_compute. lia.
Defined.

(** X17: a call that returns copies every input field it does not
    compute: a field that is not one of the eight derived ones has in the
    output the value it has in the input (and is absent if absent there),
    and [processed_at] is the clock reading of the call. *)
Theorem enrich_record_keeps_fields rt t self record out self' k :
  enrich_record rt t self record = Ok (out, self') ->
  k ∉ derived_keys ->
  out !! k = record !! k /\ out !! "processed_at" = Some (PStr t).
Proof.
  intros Hcall Hk.
  destruct (enrich_record_returns _ _ _ _ _ _ Hcall)
    as (enriched & price & Hs & _ & _ & -> & _). cbv zeta.
  unfold derived_keys in Hk. rewrite !not_elem_of_cons in Hk.
  destruct Hk as (K1 & K2 & K3 & K4 & K5 & K6 & K7 & K8 & _).
  rewrite !add_indicators_other, !add_price_change_other by done.
  rewrite !(add_spread_other _ _ _ _ _ Hs) by done.
  unfold dict in *. rewrite lookup_insert_ne by done.
  by rewrite lookup_insert_eq.
Qed.

Lemma enrich_record_keeps_fields_witness :
  exists out self',
    enrich_record plain_runtime at_noon new_enricher quote = Ok (out, self')
    /\ out !! "note" = Some (PStr "kept")
    /\ out !! "processed_at" = Some (PStr at_noon).
Proof.
  destruct (enrich_record_ok plain_runtime at_noon new_enricher quote)
    as (out & self' & Hcall); [split; [by eexists | done] |].
  exists out, self'. split; [exact Hcall |].
  apply (enrich_record_keeps_fields plain_runtime at_noon new_enricher quote
           out self' "note" Hcall).
  unfold derived_keys. rewrite !not_elem_of_cons. repeat split; try done.
  apply not_elem_of_nil.
Defined.

(** X18: when [bid] and [ask] are both present, convert to numbers and
    are positive, a call that returns stores [spread] = ask - bid and
    [spread_percentage] = (ask - bid) / bid * 100. *)
Theorem enrich_record_spread rt t self record out self' bid ask :
  enrich_record rt t self record = Ok (out, self') ->
  quoted rt record bid ask ->
  out !! "spread" = Some (PFloat (ask - bid))
  /\ out !! "spread_percentage" = Some (PFloat ((ask - bid) / bid * 100)).
Proof.
  intros Hcall (vb & va & Hvb & Hva & Hb & Ha & Hbp & Hap).
  destruct (enrich_record_returns _ _ _ _ _ _ Hcall)
    as (enriched & price & Hs & _ & _ & -> & _). cbv zeta.
  rewrite !add_indicators_other, !add_price_change_other by done.
  unfold add_spread in Hs. rewrite Hvb, Hva, Hb in Hs. simpl in Hs.
  rewrite Ha in Hs. simpl in Hs.
  rewrite !PyFacts.Rltb_true in Hs by done. simpl in Hs.
  injection Hs as <-. unfold dict in *.
  rewrite lookup_insert_ne by done. by rewrite !lookup_insert_eq.
Qed.

Lemma enrich_record_spread_witness :
  exists out self',
    enrich_record plain_runtime at_noon new_enricher quote = Ok (out, self')
    /\ out !! "spread" = Some (PFloat (103 - 100))
    /\ out !! "spread_percentage" = Some (PFloat ((103 - 100) / 100 * 100)).
Proof.
  destruct (enrich_record_ok plain_runtime at_noon new_enricher quote)
    as (out & self' & Hcall); [split; [by eexists | done] |].
  exists out, self'. split; [exact Hcall |].
  apply (enrich_record_spread plain_runtime at_noon new_enricher quote
           out self' 100 103 Hcall).
  exists (PInt 100), (PInt 103). repeat split; try reflexivity; lra.
Defined.



End EnricherMoreTheorems.
Module StorageFacts.
Import Writer Aws Storage StorageSpec.

Lemma key_made rt now record :
  key_fails rt record = false ->
  exists partition_key, _get_partition_key rt now record = Ok partition_key.
Proof.
  unfold key_fails, _get_partition_key. fold (instant_of rt record).
  destruct (instant_of rt record) as [dt | e]; simpl; [by eexists |].
  intros He. apply negb_false_iff in He. rewrite He. simpl. by eexists.
Qed.

Lemma key_timely rt now record :
  timely rt record -> _get_partition_key rt now record = Ok (key_of rt record).
Proof.
  intros [dt Hdt]. unfold key_of, _get_partition_key.
  fold (instant_of rt record). rewrite Hdt. reflexivity.
Qed.

Lemma get_partition_key_timely rt out record w :
  timely rt record ->
  get_partition_key rt out record w = (Ok (key_of rt record), w).
Proof.
  intros Ht. unfold get_partition_key. rewrite (key_timely _ _ _ Ht).
  unfold falls_back. fold (instant_of rt record).
  destruct Ht as [dt ->]. reflexivity.
Qed.

Lemma add_to_partition_keys p k r :
  (k ∈ map fst p /\ map fst (add_to_partition p k r) = map fst p)
  \/ ((k ∉ map fst p)
      /\ map fst (add_to_partition p k r) = (map fst p ++ [k])%list).
Proof.
  induction p as [| [k' rs] p IH]; simpl.
  - right. split; [apply not_elem_of_nil | done].
  - destruct (String.eqb_spec k' k) as [-> | Hne]; simpl.
    + left. split; [apply list_elem_of_here | done].
    + destruct IH as [[Hin ->] | [Hnin ->]].
      * left. split; [by apply list_elem_of_further | done].
      * right. split; [| done]. rewrite not_elem_of_cons. by split; [congruence |].
Qed.

Lemma add_to_partition_records p k r :
  concat (map snd (add_to_partition p k r)) ≡ₚ (concat (map snd p) ++ [r])%list.
Proof.
  induction p as [| [k' rs] p IH]; simpl; [done |].
  destruct (String.eqb k' k); simpl.
  - rewrite <- !app_assoc. apply Permutation_app_head, Permutation_app_comm.
  - rewrite IH. by rewrite app_assoc.
Qed.

Lemma add_to_partition_filed rt p k r :
  filed rt p ->
  (exists now, _get_partition_key rt now r = Ok k) ->
  filed rt (add_to_partition p k r).
Proof.
  intros [Hnd Hall] Hk. split.
  - destruct (add_to_partition_keys p k r) as [[_ ->] | [Hnin ->]]; [done |].
    apply NoDup_app. split; [done |]. split; [| apply NoDup_singleton].
    intros x Hx Hx'. apply list_elem_of_singleton in Hx'. by subst.
  - clear Hnd. induction Hall as [| [k' rs] p Hh Hall IH]; simpl.
    + constructor; [| constructor]. simpl. intros r' Hr'.
      apply list_elem_of_singleton in Hr'. by subst.
    + destruct (String.eqb_spec k' k) as [-> | Hne].
      * constructor; [| done]. simpl in *. intros r' Hr'.
        apply elem_of_app in Hr' as [Hr' | Hr']; [by apply Hh |].
        apply list_elem_of_singleton in Hr'. by subst.
      * by constructor.
Qed.

Section Flush.
Context (rt : runtime) (out : outside).

Lemma get_partition_key_calls record w :
  put_object_calls (get_partition_key rt out record w).2
  = put_object_calls w.
Proof. unfold get_partition_key. simpl. by destruct (falls_back rt record). Qed.

(** Grouping, when no key fails. *)
Lemma group_filed buffer : forall p w,
  (forall r, r ∈ buffer -> key_fails rt r = false) ->
  filed rt p ->
  exists p' w',
    group rt out buffer p w = (Ok p', w')
    /\ put_object_calls w' = put_object_calls w
    /\ filed rt p'
    /\ concat (map snd p') ≡ₚ (concat (map snd p) ++ buffer)%list.
Proof.
  induction buffer as [| r buffer IH]; intros p w Hkeys Hp.
  - exists p, w. by rewrite app_nil_r.
  - simpl.
    destruct (key_made rt (now out w / 1000000) r) as [k Hk];
      [apply Hkeys, list_elem_of_here |].
    pose proof (get_partition_key_calls r w) as Hc.
    unfold get_partition_key in *. rewrite Hk. simpl in Hc.
    set (w1 := if falls_back rt r then tick w else w) in *.
    destruct (IH (add_to_partition p k r) w1) as (p' & w' & Hg & Hc' & Hf & Hperm).
    { intros r' Hr'. by apply Hkeys, list_elem_of_further. }
    { apply add_to_partition_filed; [done | by eexists]. }
    exists p', w'. split; [done |]. split; [congruence |]. split; [done |].
    rewrite Hperm, add_to_partition_records.
    by rewrite <- app_assoc.
Qed.

(** Grouping of timely records: no look at the clock. *)
Lemma group_timely buffer : forall p w,
  Forall (timely rt) buffer ->
  group rt out buffer p w
  = (Ok (foldl (fun p record => add_to_partition p (key_of rt record) record)
           p buffer), w).
Proof.
  induction buffer as [| r buffer IH]; intros p w Ht; [done |].
  apply Forall_cons in Ht as [Hr Ht]. cbn [group foldl].
  rewrite get_partition_key_timely by done. by apply IH.
Qed.

(** One write, with what S3 answers it. *)
Lemma _write_partition_call self k rs w :
  exists call,
    _write_partition out self k rs w
    = (answer (s3 out (length (put_object_calls w))),
       {| clock_reads := S (clock_reads w);
          put_object_calls := (put_object_calls w ++ [call])%list;
          put_metric_data_calls := put_metric_data_calls w;
          publish_calls := publish_calls w |})
    /\ Bucket call = bucket_name self
    /\ Key call = raw_prefix self ++ k ++ "/data_"
                    ++ repr_int (Z.quot (now out w) 1000000) ++ ".json"
    /\ records (Body call) = rs
    /\ partition (Body call) = k
    /\ count (Body call) = Producer.len rs
    /\ timestamp (Body call) = Z.quot (now out w) 1000000.
Proof. eexists. unfold _write_partition. simpl. by repeat split. Qed.

(** Writing, when S3 accepts every call. *)
Lemma write_partitions_accepted self p : forall w,
  s3_accepts_from out (length (put_object_calls w)) ->
  exists calls w',
    write_partitions out self p w = (Ok tt, w')
    /\ put_object_calls w' = (put_object_calls w ++ calls)%list
    /\ map (fun call => (partition (Body call), records (Body call))) calls
       = p
    /\ Forall (fun call =>
                 Bucket call = bucket_name self
                 /\ count (Body call)
                    = Producer.len (records (Body call))) calls.
Proof.
  induction p as [| [k rs] p IH]; intros w Hacc.
  - exists [], w. by rewrite app_nil_r.
  - cbn [write_partitions].
    destruct (_write_partition_call self k rs w)
      as (call & -> & Hb & _ & Hr & Hp & Hn & _).
    rewrite (Hacc (length (put_object_calls w))) by lia. simpl.
    match goal with |- context [write_partitions out self p ?w1] =>
      destruct (IH w1) as (calls & w' & Hw & Hc & Hm & Hall)
    end.
    { simpl. intros i Hi. apply Hacc.
      rewrite length_app in Hi. simpl in Hi. lia. }
    exists (call :: calls), w'. split; [done |].
    split; [simpl in Hc; by rewrite Hc, <- app_assoc |].
    split; [simpl; by rewrite Hp, Hr, Hm |].
    constructor; [| done]. by rewrite Hr.
Qed.

(** The calls of a run of writes extend those made before. *)
Lemma write_partitions_calls self p : forall w,
  exists more,
    put_object_calls (write_partitions out self p w).2
    = (put_object_calls w ++ more)%list.
Proof.
  induction p as [| [k rs] p IH]; intros w.
  - exists []. by rewrite app_nil_r.
  - cbn [write_partitions].
    destruct (_write_partition_call self k rs w) as (call & -> & _).
    destruct (answer _) as [[] | e].
    + match goal with |- context [write_partitions out self p ?w1] =>
        destruct (IH w1) as [more ->]
      end.
      simpl. exists (call :: more). by rewrite <- app_assoc.
    + simpl. by exists [call].
Qed.

(** A run of writes starts with the first partition. *)
Lemma write_partitions_first self k rs p w :
  exists call more,
    put_object_calls (write_partitions out self ((k, rs) :: p) w).2
    = (put_object_calls w ++ call :: more)%list
    /\ records (Body call) = rs /\ partition (Body call) = k.
Proof.
  cbn [write_partitions].
  destruct (_write_partition_call self k rs w)
    as (call & -> & _ & _ & Hr & Hp & _).
  destruct (answer _) as [[] | e].
  - match goal with |- context [write_partitions out self p ?w1] =>
      destruct (write_partitions_calls self p w1) as [more ->]
    end.
    simpl. exists call, more. by rewrite <- app_assoc.
  - simpl. by exists call, [].
Qed.

(** Records below the batch size are only buffered. *)
Lemma add_records_below rs : forall self w,
  (Producer.len (records_buffer self) + Producer.len rs < batch_size self)%Z ->
  add_records rt out rs self w
  = (set_buffer self (records_buffer self ++ rs)%list, w).
Proof.
  unfold add_records, Producer.len.
  induction rs as [| r rs IH]; intros self w Hlen.
  - simpl. rewrite app_nil_r. by destruct self.
  - simpl foldl. unfold add_record at 2. simpl.
    rewrite length_cons in Hlen.
    destruct (Z.leb_spec (batch_size self)
                (Producer.len (records_buffer self ++ [r])%list)) as [H | H].
    { unfold Producer.len in H. rewrite length_app in H. simpl in H. lia. }
    rewrite IH.
    + simpl. by rewrite <- app_assoc.
    + simpl. rewrite length_app. simpl. lia.
Qed.

Lemma add_records_app rs1 rs2 self w :
  add_records rt out (rs1 ++ rs2) self w
  = add_records rt out rs2 (add_records rt out rs1 self w).1
      (add_records rt out rs1 self w).2.
Proof.
  unfold add_records. rewrite foldl_app.
  by destruct (foldl _ (self, w) rs1).
Qed.

(** A flush of timely records starts with a write of the first
    partition, whatever S3 answers. *)
Lemma _flush_buffer_first self w k rs p :
  Forall (timely rt) (records_buffer self) ->
  grouped rt (records_buffer self) = (k, rs) :: p ->
  exists self' w' call more,
    _flush_buffer rt out self w = (self', w')
    /\ put_object_calls w' = (put_object_calls w ++ call :: more)%list
    /\ records (Body call) = rs /\ partition (Body call) = k.
Proof.
  intros Ht Hg. unfold _flush_buffer.
  destruct (records_buffer self) as [| r0 buffer] eqn:Hbuf; [done |].
  rewrite <- Hbuf in *. rewrite group_timely by done.
  fold (grouped rt (records_buffer self)). rewrite Hg.
  destruct (write_partitions_first self k rs p w)
    as (call & more & Hcalls & Hr & Hp).
  destruct (write_partitions out self ((k, rs) :: p) w) as [[[] | e] w'];
    simpl in Hcalls; by eexists _, w', call, more.
Qed.

(** A flush of timely records whose second write is refused. *)
Lemma _flush_buffer_second_refused self w k1 rs1 k2 rs2 p e :
  Forall (timely rt) (records_buffer self) ->
  grouped rt (records_buffer self) = (k1, rs1) :: (k2, rs2) :: p ->
  s3 out (length (put_object_calls w)) = None ->
  s3 out (S (length (put_object_calls w))) = Some e ->
  exists w' c1 c2,
    _flush_buffer rt out self w = (self, w')
    /\ put_object_calls w' = (put_object_calls w ++ [c1; c2])%list
    /\ records (Body c1) = rs1 /\ partition (Body c1) = k1.
Proof.
  intros Ht Hg Ha1 Ha2. unfold _flush_buffer.
  destruct (records_buffer self) as [| r0 buffer] eqn:Hbuf; [done |].
  rewrite <- Hbuf in *. rewrite group_timely by done.
  fold (grouped rt (records_buffer self)). rewrite Hg.
  cbn [write_partitions].
  destruct (_write_partition_call self k1 rs1 w)
    as (c1 & -> & _ & _ & Hr1 & Hp1 & _).
  rewrite Ha1. simpl answer. cbv iota.
  match goal with |- context [_write_partition out self k2 rs2 ?w'] =>
    destruct (_write_partition_call self k2 rs2 w') as (c2 & -> & _)
  end.
  cbn [put_object_calls]. rewrite length_app. simpl length.
  rewrite Nat.add_1_r, Ha2. simpl answer. cbv iota.
  eexists _, c1, c2. split; [reflexivity |].
  split; [cbn [put_object_calls]; by rewrite <- app_assoc |]. done.
Qed.

(** A flush of timely records of one partition that S3 accepts. *)
Lemma _flush_buffer_one_partition self w k rs :
  Forall (timely rt) (records_buffer self) ->
  grouped rt (records_buffer self) = [(k, rs)] ->
  s3 out (length (put_object_calls w)) = None ->
  exists call w',
    _flush_buffer rt out self w = (set_buffer self [], w')
    /\ put_object_calls w' = (put_object_calls w ++ [call])%list
    /\ records (Body call) = rs
    /\ Key call = raw_prefix self ++ k ++ "/data_"
                    ++ repr_int (Z.quot (now out w) 1000000) ++ ".json".
Proof.
  intros Ht Hg Ha. unfold _flush_buffer.
  destruct (records_buffer self) as [| r0 buffer] eqn:Hbuf; [done |].
  rewrite <- Hbuf in *. rewrite group_timely by done.
  fold (grouped rt (records_buffer self)). rewrite Hg.
  cbn [write_partitions].
  destruct (_write_partition_call self k rs w)
    as (call & -> & _ & Hkey & Hr & _).
  rewrite Ha. simpl answer. cbv iota.
  by eexists call, _.
Qed.
End Flush.

(** Records of one key make one partition. *)
Lemma foldl_same_key rt k rs : forall acc,
  Forall (fun r => key_of rt r = k) rs ->
  foldl (fun p record => add_to_partition p (key_of rt record) record)
    [(k, acc)] rs
  = [(k, (acc ++ rs)%list)].
Proof.
  induction rs as [| r rs IH]; intros acc Hall; simpl.
  - by rewrite app_nil_r.
  - apply Forall_cons in Hall as [-> Hall]. rewrite String.eqb_refl.
    rewrite IH by done. by rewrite <- app_assoc.
Qed.

Lemma grouped_same_key rt k rs :
  rs <> [] ->
  Forall (fun r => key_of rt r = k) rs ->
  grouped rt rs = [(k, rs)].
Proof.
  unfold grouped. destruct rs as [| r rs]; [done |]. intros _ Hall.
  apply Forall_cons in Hall as [Hr Hall]. simpl. rewrite Hr.
  by rewrite foldl_same_key.
Qed.

End StorageFacts.

Module StorageTheorems.
Import Writer Aws Storage StorageSpec StorageFacts StorageExamples.

(** X20: when no key fails and S3 accepts every call, [_flush_buffer]
    empties the buffer and writes every record of it exactly once: one call
    of [put_object] per partition key, no key twice, each call to the
    writer's bucket, with the records filed under its key and their
    number. *)
Theorem flush_writes_each_record_once rt out self w :
  (forall r, r ∈ records_buffer self -> key_fails rt r = false) ->
  s3_accepts_from out (length (put_object_calls w)) ->
  exists calls self' w',
    _flush_buffer rt out self w = (self', w')
    /\ records_buffer self' = []
    /\ put_object_calls w' = (put_object_calls w ++ calls)%list
    /\ records_of calls ≡ₚ records_buffer self
    /\ NoDup (map (fun call => partition (Body call)) calls)
    /\ Forall (fun call =>
                 Bucket call = bucket_name self
                 /\ count (Body call) = Producer.len (records (Body call))
                 /\ forall r, r ∈ records (Body call) ->
                      exists now,
                        _get_partition_key rt now r
                        = Ok (partition (Body call))) calls.
Proof.
  intros Hkeys Hacc. unfold _flush_buffer.
  destruct (records_buffer self) as [| r0 buffer] eqn:Hbuf.
  { exists [], self, w. rewrite app_nil_r, Hbuf. repeat split; try done.
    apply NoDup_nil_2. }
  rewrite <- Hbuf in *.
  destruct (group_filed rt out (records_buffer self) [] w Hkeys)
    as (p & w1 & -> & Hc1 & [Hnd Hfiled] & Hperm).
  { split; [apply NoDup_nil_2 | constructor]. }
  destruct (write_partitions_accepted out self p w1)
    as (calls & w2 & -> & Hc2 & Hmap & Hall).
  { by rewrite Hc1. }
  exists calls, (set_buffer self []), w2.
  split; [done |]. split; [done |]. split; [congruence |].
  assert (map (fun call => records (Body call)) calls = map snd p) as Hrs.
  { rewrite <- Hmap, map_map. done. }
  assert (map (fun call => partition (Body call)) calls = map fst p) as Hks.
  { rewrite <- Hmap, map_map. done. }
  split; [unfold records_of; by rewrite Hrs, Hperm |].
  split; [by rewrite Hks |].
  subst p. clear -Hall Hfiled.
  induction Hall as [| call calls [Hb Hn] _ IH]; [constructor |].
  apply Forall_cons in Hfiled as [Hh Hfiled].
  constructor; [| by apply IH]. done.
Qed.

Ltac eval_keys :=
  repeat match goal with
  | |- context [key_of ?rt ?r] =>
      let v := eval vm_compute in (key_of rt r) in
      progress change (key_of rt r) with v
  end;
  cbn [foldl add_to_partition];
  repeat match goal with
  | |- context [String.eqb ?a ?b] =>
      let v := eval vm_compute in (String.eqb a b) in
      progress change (String.eqb a b) with v; cbn [add_to_partition]
  end.

Lemma three_trades_grouped :
  grouped plain_runtime three_trades
  = [("binance/btcusdt/year=1970/month=01/day=01/hour=00",
      [trade_at "btcusdt" 1000; trade_at "btcusdt" 3000]);
     ("binance/ethusdt/year=1970/month=01/day=01/hour=00",
      [trade_at "ethusdt" 2000])].
Proof.
  unfold grouped, three_trades. cbn [foldl]. eval_keys. reflexivity.
Qed.

Lemma three_trades_keyed r :
  r ∈ three_trades -> timely plain_runtime r.
Proof.
  unfold three_trades. rewrite !elem_of_cons, elem_of_nil.
  intros [-> | [-> | [-> | []]]]; eexists; vm_compute; reflexivity.
Qed.

Lemma flush_writes_each_record_once_witness :
  exists calls self' w',
    _flush_buffer plain_runtime still (holding three_trades) new_world
    = (self', w')
    /\ records_buffer self' = []
    /\ put_object_calls w' = calls
    /\ records_of calls ≡ₚ three_trades
    /\ NoDup (map (fun call => partition (Body call)) calls).
Proof.
  destruct (flush_writes_each_record_once plain_runtime still
              (holding three_trades) new_world)
    as (calls & self' & w' & H1 & H2 & H3 & H4 & H5 & _).
  - intros r Hr. apply three_trades_keyed in Hr as [dt Hdt].
    unfold key_fails. by rewrite Hdt.
  - intros i _. reflexivity.
  - exists calls, self', w'.
    split; [exact H1 |]. split; [exact H2 |]. split; [exact H3 |].
    split; [exact H4 | exact H5].
Defined.

(** X21: a flush that fails keeps the whole buffer, the records already
    written included.  When the buffer (of timely records) makes two
    partitions or more, S3 accepts the first write and refuses the second:
    [_flush_buffer] returns with the writer as it was, and the next flush
    starts by writing the records of the first partition again. *)
Theorem failed_flush_writes_again rt out self w k1 rs1 k2 rs2 rest e :
  Forall (timely rt) (records_buffer self) ->
  grouped rt (records_buffer self) = (k1, rs1) :: (k2, rs2) :: rest ->
  s3 out (length (put_object_calls w)) = None ->
  s3 out (S (length (put_object_calls w))) = Some e ->
  exists w1 self2 w2 c1 c2 c1' more,
    _flush_buffer rt out self w = (self, w1)
    /\ put_object_calls w1 = (put_object_calls w ++ [c1; c2])%list
    /\ records (Body c1) = rs1 /\ partition (Body c1) = k1
    /\ _flush_buffer rt out self w1 = (self2, w2)
    /\ put_object_calls w2 = (put_object_calls w1 ++ c1' :: more)%list
    /\ records (Body c1') = rs1 /\ partition (Body c1') = k1.
Proof.
  intros Ht Hg Ha1 Ha2.
  destruct (_flush_buffer_second_refused rt out self w k1 rs1 k2 rs2 rest e
              Ht Hg Ha1 Ha2) as (w1 & c1 & c2 & H1 & H2 & H3 & H4).
  destruct (_flush_buffer_first rt out self w1 k1 rs1 _ Ht Hg)
    as (self2 & w2 & c1' & more & H5 & H6 & H7 & H8).
  by exists w1, self2, w2, c1, c2, c1', more.
Qed.

Lemma failed_flush_writes_again_witness :
  exists w1 self2 w2 c1 c2 c1' more,
    _flush_buffer plain_runtime refusing_second (holding three_trades)
      new_world
    = (holding three_trades, w1)
    /\ put_object_calls w1 = [c1; c2]
    /\ records (Body c1) = [trade_at "btcusdt" 1000; trade_at "btcusdt" 3000]
    /\ partition (Body c1)
       = "binance/btcusdt/year=1970/month=01/day=01/hour=00"
    /\ _flush_buffer plain_runtime refusing_second (holding three_trades) w1
       = (self2, w2)
    /\ put_object_calls w2 = (put_object_calls w1 ++ c1' :: more)%list
    /\ records (Body c1') = [trade_at "btcusdt" 1000; trade_at "btcusdt" 3000]
    /\ partition (Body c1')
       = "binance/btcusdt/year=1970/month=01/day=01/hour=00".
Proof.
  apply (failed_flush_writes_again plain_runtime refusing_second
           (holding three_trades) new_world
           "binance/btcusdt/year=1970/month=01/day=01/hour=00"
           [trade_at "btcusdt" 1000; trade_at "btcusdt" 3000]
           "binance/ethusdt/year=1970/month=01/day=01/hour=00"
           [trade_at "ethusdt" 2000] [] ClientError).
  - apply Forall_forall. intros r Hr. by apply three_trades_keyed.
  - exact three_trades_grouped.
  - reflexivity.
  - reflexivity.
Defined.

(** X22: the name of a file is made of the prefix, the partition key
    and the second of the write.  When two full batches of one partition are
    added while the clock stays within one second, and S3 accepts every
    call, the writer makes two calls of [put_object] with the same [Key]:
    the first with the first batch, the second with the second batch. *)
Theorem batches_of_one_second_share_key rt out self w records1 records2 k s :
  records_buffer self = [] ->
  records1 <> [] ->
  batch_size self = Producer.len records1 ->
  batch_size self = Producer.len records2 ->
  Forall (fun r => timely rt r /\ key_of rt r = k) (records1 ++ records2) ->
  (forall n, Z.quot (clock out n) 1000000 = s) ->
  s3_accepts_from out (length (put_object_calls w)) ->
  exists self' w' c1 c2,
    add_records rt out (records1 ++ records2) self w = (self', w')
    /\ records_buffer self' = []
    /\ put_object_calls w' = (put_object_calls w ++ [c1; c2])%list
    /\ records (Body c1) = records1 /\ records (Body c2) = records2
    /\ Key c1 = Key c2.
Proof.
  intros Hbuf Hne Hb1 Hb2 Hall Hclock Hacc.
  assert (forall rs self w,
            records_buffer self = [] -> rs <> [] ->
            batch_size self = Producer.len rs ->
            Forall (fun r => timely rt r /\ key_of rt r = k) rs ->
            s3 out (length (put_object_calls w)) = None ->
            exists call w',
              add_records rt out rs self w = (set_buffer self [], w')
              /\ put_object_calls w' = (put_object_calls w ++ [call])%list
              /\ records (Body call) = rs
              /\ Key call = raw_prefix self ++ k ++ "/data_" ++ repr_int s
                              ++ ".json") as Hbatch.
  { clear -Hclock. intros rs self w Hbuf Hne Hb Hall Hacc.
    destruct rs as [| r rs _] using rev_ind; [done |].
    rewrite add_records_app.
    rewrite (add_records_below rt out rs self w)
      by (rewrite Hb, Hbuf; unfold Producer.len; rewrite length_app;
          simpl; lia).
    cbn [fst snd]. unfold add_records. cbn [foldl fst snd].
    unfold add_record. cbn [records_buffer set_buffer batch_size].
    rewrite Hbuf. cbn [app].
    destruct (Z.leb_spec (batch_size self) (Producer.len (rs ++ [r])))
      as [_ | Hlt]; [| lia].
    match goal with |- context [_flush_buffer rt out ?self' w] =>
      destruct (_flush_buffer_one_partition rt out self' w k (rs ++ [r]))
        as (call & w' & -> & Hc & Hr & Hk)
    end.
    - eapply Forall_impl; [exact Hall | by intros ? []].
    - apply grouped_same_key; [by destruct rs |].
      eapply Forall_impl; [exact Hall | by intros ? []].
    - done.
    - exists call, w'. split; [done |]. split; [done |]. split; [done |].
      rewrite Hk. unfold now. by rewrite Hclock. }
  rewrite add_records_app.
  apply Forall_app in Hall as [Hall1 Hall2].
  destruct (Hbatch records1 self w Hbuf Hne Hb1 Hall1) as (c1 & w1 & -> & Hc1 & Hr1 & Hk1).
  { apply Hacc. lia. }
  cbn [fst snd].
  destruct (Hbatch records2 (set_buffer self []) w1) as (c2 & w2 & -> & Hc2 & Hr2 & Hk2);
    try done.
  { intros ->. unfold Producer.len in *. simpl in Hb2.
    destruct records1; [done | simpl in *; lia]. }
  { apply Hacc. rewrite Hc1, length_app. lia. }
  exists (set_buffer (set_buffer self []) []), w2, c1, c2.
  split; [done |]. split; [done |].
  split; [by rewrite Hc2, Hc1, <- app_assoc |].
  split; [done |]. split; [done |]. by rewrite Hk1, Hk2.
Qed.

Lemma batches_of_one_second_share_key_witness :
  exists self' w' c1 c2,
    add_records plain_runtime still
      ([trade_at "btcusdt" 1000; trade_at "btcusdt" 2000]
       ++ [trade_at "btcusdt" 3000; trade_at "btcusdt" 4000]) pairing
      new_world
    = (self', w')
    /\ records_buffer self' = []
    /\ put_object_calls w' = [c1; c2]
    /\ records (Body c1) = [trade_at "btcusdt" 1000; trade_at "btcusdt" 2000]
    /\ records (Body c2) = [trade_at "btcusdt" 3000; trade_at "btcusdt" 4000]
    /\ Key c1 = Key c2.
Proof.
  apply (batches_of_one_second_share_key plain_runtime still pairing
           new_world
           [trade_at "btcusdt" 1000; trade_at "btcusdt" 2000]
           [trade_at "btcusdt" 3000; trade_at "btcusdt" 4000]
           "binance/btcusdt/year=1970/month=01/day=01/hour=00" 5).
  - reflexivity.
  - discriminate.
  - reflexivity.
  - reflexivity.
  - repeat constructor; first [by eexists; vm_compute | by vm_compute].
  - intros n. reflexivity.
  - intros i _. reflexivity.
Defined.

End StorageTheorems.
Module MetricsFacts.
Import Aws Metrics MetricsSpec.

Lemma accepted_from_app {A} answers (l1 l2 : list A) : forall i,
  accepted_from answers i (l1 ++ l2)
  = (accepted_from answers i l1
     ++ accepted_from answers (i + length l1) l2)%list.
Proof.
  induction l1 as [| x l1 IH]; intros i; simpl.
  - by rewrite Nat.add_0_r.
  - rewrite IH, <- app_assoc. do 3 f_equal. lia.
Qed.

Section Publish.
Context (out : outside).

(** What one call of [put_metric_data] adds to what CloudWatch has. *)
Lemma published_put_metric_data call w :
  published out (put_metric_data out call w).2
  = (published out w
     ++ match cloudwatch out (length (put_metric_data_calls w)) with
        | None => MetricData call
        | Some _ => []
        end)%list.
Proof.
  unfold published, put_metric_data. simpl.
  rewrite accepted_from_app, map_app, concat_app. simpl.
  destruct (cloudwatch out _); simpl; by rewrite ?app_nil_r.
Qed.

Lemma _publish_metrics_conserves self w :
  cloudwatch_answers out ->
  exists self' w',
    _publish_metrics out self w = (Ok tt, self', w')
    /\ clock_reads w' = clock_reads w
    /\ max_buffer_size self' = max_buffer_size self
    /\ (published out w' ++ metrics_buffer self'
        = published out w ++ metrics_buffer self)%list
    /\ (cloudwatch out (length (put_metric_data_calls w)) = None ->
        metrics_buffer self' = []).
Proof.
  intros Hans. unfold _publish_metrics.
  destruct (metrics_buffer self) as [| m buffer] eqn:Hbuf.
  { exists self, w. by rewrite Hbuf. }
  rewrite <- Hbuf.
  pose proof (published_put_metric_data
                {| Namespace := namespace self;
                   MetricData := metrics_buffer self |} w) as Hp.
  unfold put_metric_data in *. simpl in Hp.
  destruct (Hans (length (put_metric_data_calls w))) as [Ha | Ha];
    rewrite Ha in *; simpl.
  - eexists _, _. split; [reflexivity |]. simpl.
    rewrite Hp, app_nil_r. done.
  - eexists _, _. split; [reflexivity |]. simpl.
    rewrite Hp, app_nil_r. done.
Qed.

Lemma record_metric_conserves metric_name value unit_ dimensions self w :
  cloudwatch_answers out ->
  exists self' w',
    record_metric out metric_name value unit_ dimensions self w
    = (Ok tt, self', w')
    /\ clock_reads w' = S (clock_reads w)
    /\ max_buffer_size self' = max_buffer_size self
    /\ (published out w' ++ metrics_buffer self'
        = published out w ++ metrics_buffer self
          ++ [built (metric_name, value, unit_, dimensions) (now out w)])%list
    /\ ((forall n, cloudwatch out n = None) ->
        (Producer.len (metrics_buffer self) < max_buffer_size self)%Z ->
        (Producer.len (metrics_buffer self') < max_buffer_size self')%Z).
Proof.
  intros Hans. unfold record_metric, read_clock.
  set (m := built (metric_name, value, unit_, dimensions) (now out w)).
  change {| MetricName := metric_name; Value := value; Unit := unit_;
            Timestamp := now out w;
            Dimensions := match dimensions with
                          | Some (d :: ds) => Some (d :: ds)
                          | _ => None
                          end |} with m.
  cbn [max_buffer_size metrics_buffer set_buffer].
  destruct (Z.leb_spec (max_buffer_size self)
              (Producer.len (metrics_buffer self ++ [m])%list)) as [Hfull | Hroom].
  - destruct (_publish_metrics_conserves
                (set_buffer self (metrics_buffer self ++ [m])%list) (tick w)
                Hans) as (self' & w' & -> & Hc & Hm & Hp & Hacc).
    exists self', w'. split; [done |]. split; [done |]. split; [done |].
    split.
    + rewrite Hp. unfold published. simpl. by rewrite app_assoc.
    + intros Hnone Hlt. rewrite Hacc by apply Hnone. rewrite Hm. simpl.
      unfold Producer.len in *. simpl. lia.
  - eexists _, _. split; [reflexivity |]. simpl.
    split; [done |]. split; [done |]. split; [done |].
    intros _ _. done.
Qed.
End Publish.

End MetricsFacts.

Module MetricsTheorems.
Import Aws Metrics MetricsSpec MetricsFacts MetricsExamples.

(** X23: when CloudWatch answers each call or refuses it with
    [ClientError], no call of [record_metric] raises and no metric is lost
    or sent twice: after any run of calls, the metrics that CloudWatch has
    received, followed by those still in the buffer, are the metrics
    received and buffered before followed by the metrics of the calls, in
    order, each stamped with the clock reading of its call.  When CloudWatch
    accepts every call, a buffer below its limit stays below it. *)
Theorem metrics_conserved out calls : forall self w,
  cloudwatch_answers out ->
  exists self' w',
    record_all out calls self w = (Ok tt, self', w')
    /\ (published out w' ++ metrics_buffer self'
        = published out w ++ metrics_buffer self
          ++ zip_with built calls
               (readings out (clock_reads w) (length calls)))%list
    /\ ((forall n, cloudwatch out n = None) ->
        (Producer.len (metrics_buffer self) < max_buffer_size self)%Z ->
        (Producer.len (metrics_buffer self') < max_buffer_size self')%Z).
Proof.
  induction calls as [| [[[metric_name value] unit_] dimensions] calls IH];
    intros self w Hans.
  - exists self, w. simpl. by rewrite app_nil_r.
  - cbn [record_all].
    destruct (record_metric_conserves out metric_name value unit_ dimensions
                self w Hans) as (self1 & w1 & -> & Hc & Hm & Hp & Hb).
    destruct (IH self1 w1 Hans) as (self2 & w2 & -> & Hp2 & Hb2).
    exists self2, w2. split; [done |]. split.
    + rewrite Hp2, app_assoc, Hp, Hc. unfold readings. simpl.
      by rewrite <- !app_assoc.
    + intros Hnone Hlt. apply Hb2; [done |]. by apply Hb.
Qed.

Lemma metrics_conserved_witness :
  exists self' w',
    record_all refusing_first
      [count_of "RecordsProcessed"; count_of "InvalidRecords";
       count_of "RecordsProcessed"] small_buffer new_world
    = (Ok tt, self', w')
    /\ (published refusing_first w' ++ metrics_buffer self'
        = zip_with built
            [count_of "RecordsProcessed"; count_of "InvalidRecords";
             count_of "RecordsProcessed"]
            [5000000; 5000000; 5000000])%list.
Proof.
  destruct (metrics_conserved refusing_first
              [count_of "RecordsProcessed"; count_of "InvalidRecords";
               count_of "RecordsProcessed"] small_buffer new_world)
    as (self' & w' & H1 & H2 & _).
  - intros [| n]; [by right | by left].
  - exists self', w'. split; [exact H1 | exact H2].
Defined.

End MetricsTheorems.
Module HandlerFacts.
Import Validator Enricher Aws Handler HandlerSpec.

(** *** What the writer and the metrics leave alone *)

Section Services.
Context (rt : runtime) (out : outside).

Lemma group_services buffer : forall p w,
  put_metric_data_calls (Storage.group rt out buffer p w).2
  = put_metric_data_calls w
  /\ publish_calls (Storage.group rt out buffer p w).2 = publish_calls w.
Proof.
  induction buffer as [| r buffer IH]; intros p w; [done |].
  cbn [Storage.group]. unfold Storage.get_partition_key.
  destruct (Writer._get_partition_key rt _ r) as [k | e].
  - destruct (IH (Storage.add_to_partition p k r)
                (if Storage.falls_back rt r then tick w else w)) as [-> ->].
    by destruct (Storage.falls_back rt r).
  - simpl. by destruct (Storage.falls_back rt r).
Qed.

Lemma write_partitions_services self p : forall w,
  put_metric_data_calls (Storage.write_partitions out self p w).2
  = put_metric_data_calls w
  /\ publish_calls (Storage.write_partitions out self p w).2
     = publish_calls w.
Proof.
  induction p as [| [k rs] p IH]; intros w; [done |].
  cbn [Storage.write_partitions]. unfold Storage._write_partition.
  simpl. destruct (answer _) as [[] | e]; [| done].
  match goal with |- context [Storage.write_partitions out self p ?w1] =>
    destruct (IH w1) as [-> ->]
  end. done.
Qed.

Lemma _flush_buffer_services self w :
  put_metric_data_calls (Storage._flush_buffer rt out self w).2
  = put_metric_data_calls w
  /\ publish_calls (Storage._flush_buffer rt out self w).2
     = publish_calls w.
Proof.
  unfold Storage._flush_buffer.
  destruct (Storage.records_buffer self) as [| r0 buffer]; [done |].
  pose proof (group_services (r0 :: buffer) [] w) as Hg.
  destruct (Storage.group rt out (r0 :: buffer) [] w) as [[p | e] w1];
    [| exact Hg].
  pose proof (write_partitions_services self p w1) as Hw.
  simpl in Hg. destruct Hg as [Hg1 Hg2].
  destruct (Storage.write_partitions out self p w1) as [[[] | e] w2];
    simpl in *; destruct Hw as [Hw1 Hw2]; split; congruence.
Qed.

Lemma add_record_services record self w :
  put_metric_data_calls (Storage.add_record rt out record self w).2
  = put_metric_data_calls w
  /\ publish_calls (Storage.add_record rt out record self w).2
     = publish_calls w.
Proof.
  unfold Storage.add_record. destruct (_ <=? _)%Z; [| done].
  apply _flush_buffer_services.
Qed.
End Services.

(** *** The metrics recorded and sent *)

Section Recorded.
Context (out : outside).

Lemma _publish_metrics_publish_calls self w :
  publish_calls (Metrics._publish_metrics out self w).2 = publish_calls w
  /\ put_object_calls (Metrics._publish_metrics out self w).2
     = put_object_calls w.
Proof.
  unfold Metrics._publish_metrics.
  destruct (Metrics.metrics_buffer self); [done |].
  unfold put_metric_data. simpl.
  destruct (answer _) as [[] | e]; [done |].
  by destruct (bool_decide _).
Qed.

Lemma record_metric_publish_calls metric_name value unit_ dimensions self w :
  publish_calls
    (Metrics.record_metric out metric_name value unit_ dimensions self w).2
  = publish_calls w.
Proof.
  unfold Metrics.record_metric, read_clock.
  destruct (_ <=? _)%Z; [| done].
  by rewrite (proj1 (_publish_metrics_publish_calls _ _)).
Qed.

(** Sending keeps to the metrics of the buffer. *)
Lemma _publish_metrics_live self w :
  Forall live (Metrics.metrics_buffer self) ->
  calls_live w ->
  Forall live (Metrics.metrics_buffer (Metrics._publish_metrics out self w).1.2)
  /\ Metrics.max_buffer_size (Metrics._publish_metrics out self w).1.2
     = Metrics.max_buffer_size self
  /\ calls_live (Metrics._publish_metrics out self w).2.
Proof.
  intros Hb Hc. unfold Metrics._publish_metrics.
  destruct (Metrics.metrics_buffer self) as [| m buffer] eqn:Hbuf;
    [simpl; rewrite Hbuf; by repeat split |].
  rewrite <- Hbuf in *. unfold put_metric_data.
  assert (calls_live
            {| clock_reads := clock_reads w;
               put_object_calls := put_object_calls w;
               put_metric_data_calls :=
                 (put_metric_data_calls w
                  ++ [{| Namespace := Metrics.namespace self;
                         MetricData := Metrics.metrics_buffer self |}])%list;
               publish_calls := publish_calls w |}) as Hc'.
  { unfold calls_live. simpl. apply Forall_app. split; [done |].
    by repeat constructor. }
  destruct (answer _) as [[] | e]; simpl.
  - split; [constructor | done].
  - destruct (bool_decide _); simpl; done.
Qed.

Lemma record_metric_live metric_name value unit_ dimensions self w :
  metric_name ∈ live_names ->
  Forall live (Metrics.metrics_buffer self) ->
  calls_live w ->
  Forall live
    (Metrics.metrics_buffer
       (Metrics.record_metric out metric_name value unit_ dimensions
          self w).1.2)
  /\ Metrics.max_buffer_size
       (Metrics.record_metric out metric_name value unit_ dimensions
          self w).1.2
     = Metrics.max_buffer_size self
  /\ calls_live
       (Metrics.record_metric out metric_name value unit_ dimensions
          self w).2.
Proof.
  intros Hn Hb Hc. unfold Metrics.record_metric, read_clock.
  match goal with |- context [Metrics.set_buffer self ?b] =>
    assert (Forall live b) as Hb'
      by (apply Forall_app; split; [done | apply Forall_singleton; exact Hn]);
    set (self1 := Metrics.set_buffer self b) in *
  end.
  destruct (_ <=? _)%Z; [| done].
  apply (_publish_metrics_live self1 (tick w)); done.
Qed.
End Recorded.

(** *** The loop and what follows it *)

Lemma calls_live_same w w' :
  put_metric_data_calls w' = put_metric_data_calls w ->
  calls_live w -> calls_live w'.
Proof. unfold calls_live. by intros ->. Qed.

Lemma error_rate_high invalid total :
  0 < total ->
  Rltb 0.1 (IZR invalid / IZR total) = (total <? 10 * invalid)%Z.
Proof.
  intros Hpos. assert (0 < IZR total)%R as Ht by (by apply IZR_lt).
  destruct (Z.ltb_spec total (10 * invalid)) as [Hlt | Hge].
  - apply PyFacts.Rltb_true. apply IZR_lt in Hlt. rewrite mult_IZR in Hlt.
    apply (Rmult_lt_reg_r (IZR total)); [done |].
    unfold Rdiv. rewrite Rmult_assoc, Rinv_l, Rmult_1_r by lra. lra.
  - apply PyFacts.Rltb_false. apply IZR_le in Hge. rewrite mult_IZR in Hge.
    apply (Rmult_le_reg_r (IZR total)); [done |].
    unfold Rdiv. rewrite Rmult_assoc, Rinv_l, Rmult_1_r by lra. lra.
Qed.

Section Loop.
Context (rt : runtime) (isoformat : Z -> string).
Context (out : outside) (env : environment).

Lemma _send_alert_services message w :
  put_metric_data_calls (_send_alert out env message w)
  = put_metric_data_calls w
  /\ put_object_calls (_send_alert out env message w) = put_object_calls w
  /\ publish_calls (_send_alert out env message w)
     = (publish_calls w ++ alerts env message)%list.
Proof.
  unfold _send_alert, alerts, topic.
  destruct (SNS_TOPIC_ARN env) as [arn |]; [| by rewrite app_nil_r].
  destruct (truthy (PStr arn)); [done | by rewrite app_nil_r].
Qed.

(** The metrics of the loop keep the invariant. *)
Lemma record_keeps_live metric_name value unit_ dimensions l w :
  metric_name ∈ live_names ->
  buffer_live l -> calls_live w ->
  buffer_live (record out metric_name value unit_ dimensions l w).1.2
  /\ calls_live (record out metric_name value unit_ dimensions l w).2.
Proof.
  intros Hn [Hmax Hb] Hc. unfold record.
  pose proof (record_metric_live out metric_name value unit_ dimensions
                (metrics l) w Hn Hb Hc) as (H1 & H2 & H3).
  destruct (Metrics.record_metric out metric_name value unit_ dimensions
              (metrics l) w) as [[r m] w'].
  simpl in *. split; [split; simpl; [congruence | done] | done].
Qed.

Lemma process_valid_live market_data quality_score l w :
  buffer_live l -> calls_live w ->
  buffer_live (process_valid rt isoformat out market_data quality_score
                 l w).1.2
  /\ calls_live (process_valid rt isoformat out market_data quality_score
                   l w).2.
Proof.
  intros Hb Hc. unfold process_valid, read_clock.
  destruct (enrich_record rt _ (enricher l) market_data)
    as [[enriched_data enricher'] | e]; [| done].
  match goal with |- context [Storage.add_record rt out ?r ?s ?w0] =>
    pose proof (add_record_services rt out r s w0) as [Hs _];
    destruct (Storage.add_record rt out r s w0) as [s' w1]
  end.
  simpl in Hs.
  match goal with |- context [record out "RecordsProcessed" ?v ?u ?d ?l1 w1] =>
    destruct (record_keeps_live "RecordsProcessed" v u d l1 w1)
      as [Hb1 Hc1];
      [ unfold live_names; rewrite !elem_of_cons; auto
      | exact Hb
      | by apply (calls_live_same (tick w))
      | destruct (record out "RecordsProcessed" v u d l1 w1)
          as [[[[] | e1] l2] w2]; [| done] ]
  end.
  simpl in Hb1, Hc1.
  apply record_keeps_live; [| done | done].
  unfold live_names. rewrite !elem_of_cons. auto.
Qed.

Lemma process_invalid_live record_ errors l w :
  buffer_live l -> calls_live w ->
  buffer_live (process_invalid out env record_ errors l w).1.2
  /\ calls_live (process_invalid out env record_ errors l w).2.
Proof.
  intros Hb Hc. unfold process_invalid.
  match goal with |- context [record out "InvalidRecords" ?v ?u ?d ?l1 w] =>
    destruct (record_keeps_live "InvalidRecords" v u d l1 w)
      as [Hb1 Hc1];
      [ unfold live_names; rewrite !elem_of_cons; auto
      | exact Hb
      | exact Hc
      | destruct (record out "InvalidRecords" v u d l1 w)
          as [[[[] | e1] l2] w2]; [| done] ]
  end.
  simpl in Hb1, Hc1.
  destruct (dlq_enabled env); [| done].
  by destruct (recordId record_).
Qed.

Lemma process_live record_ l w :
  buffer_live l -> calls_live w ->
  buffer_live (process rt isoformat out env record_ l w).1.2
  /\ calls_live (process rt isoformat out env record_ l w).2.
Proof.
  intros Hb Hc. unfold process.
  destruct (data record_) as [market_data | e]; [| done].
  assert (calls_live (if reads_clock rt market_data then tick w else w))
    as Hc' by (by destruct (reads_clock rt market_data)).
  destruct (validate_record rt (validator l) _ market_data)
    as [[[is_valid quality_score] errors] | e]; [| done].
  destruct is_valid.
  - by apply process_valid_live.
  - by apply process_invalid_live.
Qed.

Lemma process_record_live record_ l w :
  buffer_live l -> calls_live w ->
  calls_live (process_record rt isoformat out env record_ l w).2
  /\ match (process_record rt isoformat out env record_ l w).1 with
     | Ok l' => buffer_live l'
     | Raise _ => True
     end.
Proof.
  intros Hb Hc. unfold process_record.
  destruct (process_live record_ (count_total l) w Hb Hc) as [Hb1 Hc1].
  destruct (process rt isoformat out env record_ (count_total l) w)
    as [[[[] | e] l1] w1]; simpl in *; [done |].
  by destruct (recordId record_).
Qed.

Lemma process_records_live records : forall l w,
  buffer_live l -> calls_live w ->
  calls_live (process_records rt isoformat out env records l w).2
  /\ match (process_records rt isoformat out env records l w).1 with
     | Ok l' => buffer_live l'
     | Raise _ => True
     end.
Proof.
  induction records as [| record_ records IH]; intros l w Hb Hc; [done |].
  cbn [process_records].
  destruct (process_record_live record_ l w Hb Hc) as [Hc1 Hb1].
  destruct (process_record rt isoformat out env record_ l w)
    as [[l1 | e] w1]; simpl in *; [| done].
  by apply IH.
Qed.

(** A metric recorded into a buffer with room is only buffered. *)
Lemma record_buffers metric_name value unit_ dimensions l w :
  (Producer.len (Metrics.metrics_buffer (metrics l)) + 1
   < Metrics.max_buffer_size (metrics l))%Z ->
  exists m,
    record out metric_name value unit_ dimensions l w
    = (Ok tt,
       set_metrics l
         (Metrics.set_buffer (metrics l)
            (Metrics.metrics_buffer (metrics l) ++ [m])%list),
       tick w).
Proof.
  intros Hroom.
  exists (MetricsSpec.built (metric_name, value, unit_, dimensions)
            (now out w)).
  unfold record, Metrics.record_metric, read_clock, MetricsSpec.built.
  cbn [Metrics.max_buffer_size Metrics.metrics_buffer Metrics.set_buffer].
  match goal with |- context [(?a <=? ?b)%Z] =>
    destruct (Z.leb_spec a b) as [Hfull | _]; [| reflexivity]
  end.
  unfold Producer.len in *. rewrite length_app in Hfull. simpl in Hfull. lia.
Qed.

(** The four metrics of the summary, recorded into an empty buffer, stay
    in it. *)
Lemma record_final_buffers processing_time l w :
  Metrics.metrics_buffer (metrics l) = [] ->
  Metrics.max_buffer_size (metrics l) = 20 ->
  put_metric_data_calls (record_final out processing_time l w).2
  = put_metric_data_calls w.
Proof.
  intros Hbuf Hmax. unfold record_final.
  destruct (record_buffers "ProcessingTime" (PFloat processing_time)
              "Seconds" None l w) as [m1 ->];
    [rewrite Hbuf, Hmax; by vm_compute |].
  match goal with |- context [record out "TotalRecords" ?v ?u ?d ?l1 ?w1] =>
    destruct (record_buffers "TotalRecords" v u d l1 w1) as [m2 ->];
      [simpl; rewrite Hbuf, Hmax; by vm_compute |]
  end.
  match goal with |- context [record out "ValidRecords" ?v ?u ?d ?l1 ?w1] =>
    destruct (record_buffers "ValidRecords" v u d l1 w1) as [m3 ->];
      [simpl; rewrite Hbuf, Hmax; by vm_compute |]
  end.
  match goal with |- context [record out "InvalidRecords" ?v ?u ?d ?l1 ?w1] =>
    destruct (record_buffers "InvalidRecords" v u d l1 w1) as [m4 ->];
      [simpl; rewrite Hbuf, Hmax; by vm_compute |]
  end.
  reflexivity.
Qed.

Lemma finish_live start_time l w :
  (forall n, cloudwatch out n = None) ->
  buffer_live l -> calls_live w ->
  calls_live (finish rt out env start_time l w).2.
Proof.
  intros Hacc [Hmax Hb] Hc. unfold finish, Storage.flush, Metrics.flush.
  pose proof (_flush_buffer_services rt out (s3_writer l) w) as [Hs _].
  destruct (Storage._flush_buffer rt out (s3_writer l) w) as [s w1].
  simpl in Hs. cbn [metrics set_s3_writer].
  assert (calls_live w1) as Hc1 by (by apply (calls_live_same w)).
  destruct (MetricsFacts._publish_metrics_conserves out (metrics l) w1)
    as (m & w2 & Hrun & _ & Hmax2 & _ & Hempty).
  { intros n. left. apply Hacc. }
  pose proof (_publish_metrics_live out (metrics l) w1 Hb Hc1)
    as (_ & _ & Hc2).
  rewrite Hrun in *. simpl in Hc2. unfold read_clock.
  match goal with |- context [record_final out ?pt ?l1 ?w3] =>
    pose proof (record_final_buffers pt l1 w3) as Hf;
    destruct (record_final out pt l1 w3) as [[[[] | e] l2] w4]
  end; simpl in Hf.
  - apply (calls_live_same w2); [| done].
    destruct (_ && _); cbn [snd];
      [rewrite (proj1 (_send_alert_services _ _)) |];
      apply Hf; (apply Hempty, Hacc || congruence).
  - cbn [snd]. apply (calls_live_same w2); [| done].
    apply Hf; (apply Hempty, Hacc || congruence).
Qed.

Lemma lambda_handler_live event_ w :
  (forall n, cloudwatch out n = None) ->
  calls_live w ->
  calls_live (lambda_handler rt isoformat out env event_ w).2.
Proof.
  intros Hacc Hc. unfold lambda_handler, read_clock.
  assert (buffer_live (initial env)) as Hb by (split; [done | constructor]).
  assert (forall r w1,
            calls_live w1 ->
            calls_live
              (match r with
               | Ok failures => (Ok failures, w1)
               | Raise e => (Raise e, _send_alert out env (FunctionFailed e) w1)
               end : result (list (string * failure_reason)) * world).2)
    as Hend.
  { intros [failures | e] w1 Hw1; [done |]. simpl.
    apply (calls_live_same w1); [apply _send_alert_services | done]. }
  destruct (Records event_) as [records |]; [| by apply (Hend (Raise _))].
  destruct (process_records_live records (initial env) (tick w) Hb Hc)
    as [Hc1 Hb1].
  destruct (process_records rt isoformat out env records (initial env)
              (tick w)) as [[l | e] w1]; simpl in *;
    [| by apply (Hend (Raise _))].
  pose proof (finish_live (now out w) l w1 Hacc Hb1 Hc1) as Hf.
  destruct (finish rt out env (now out w) l w1) as [r w2].
  by apply Hend.
Qed.

(** *** The statistics *)

Lemma record_returns metric_name value unit_ dimensions l w :
  MetricsSpec.cloudwatch_answers out ->
  exists m w',
    record out metric_name value unit_ dimensions l w
    = (Ok tt, set_metrics l m, w')
    /\ publish_calls w' = publish_calls w.
Proof.
  intros Hans. unfold record.
  pose proof (record_metric_publish_calls out metric_name value unit_
                dimensions (metrics l) w) as Hp.
  destruct (MetricsFacts.record_metric_conserves out metric_name value
              unit_ dimensions (metrics l) w Hans)
    as (m & w' & Hrun & _).
  rewrite Hrun in *. by exists m, w'.
Qed.

Lemma process_record_counted record_ i l w :
  MetricsSpec.cloudwatch_answers out ->
  recordId record_ = Some i ->
  exists o l' w',
    process_record rt isoformat out env record_ l w = (Ok l', w')
    /\ counts l' = counted env i o (counts l)
    /\ publish_calls w' = publish_calls w.
Proof.
  intros Hans Hid. unfold process_record, process.
  destruct (data record_) as [market_data | e].
  2: { rewrite Hid. exists (Failed e). eexists _, _.
       split; [reflexivity |]. split; [reflexivity | simpl; congruence]. }
  assert (publish_calls (if reads_clock rt market_data then tick w else w)
          = publish_calls w) as Hp0
    by (by destruct (reads_clock rt market_data)).
  set (w0 := if reads_clock rt market_data then tick w else w) in *.
  destruct (validate_record rt _ _ market_data)
    as [[[is_valid quality_score] errors] | e].
  2: { rewrite Hid. exists (Failed e). eexists _, _.
       split; [reflexivity |]. split; [reflexivity | simpl; congruence]. }
  destruct is_valid.
  - unfold process_valid, read_clock.
    destruct (enrich_record rt _ _ market_data)
      as [[enriched_data enricher'] | e].
    2: { rewrite Hid. exists (Failed e). eexists _, _.
       split; [reflexivity |]. split; [reflexivity | simpl; congruence]. }
    match goal with |- context [Storage.add_record rt out ?r ?s ?w1] =>
      pose proof (add_record_services rt out r s w1) as [_ Hp1];
      destruct (Storage.add_record rt out r s w1) as [s' w2]
    end.
    simpl in Hp1.
    match goal with |- context [record out "RecordsProcessed" ?v ?u ?d ?l1 w2] =>
      destruct (record_returns "RecordsProcessed" v u d l1 w2 Hans)
        as (m1 & w3 & -> & Hp2)
    end.
    match goal with |- context [record out "DataQualityScore" ?v ?u ?d ?l1 w3] =>
      destruct (record_returns "DataQualityScore" v u d l1 w3 Hans)
        as (m2 & w4 & -> & Hp3)
    end.
    exists Processed. eexists _, _. split; [reflexivity |].
    split; [reflexivity | congruence].
  - unfold process_invalid.
    match goal with |- context [record out "InvalidRecords" ?v ?u ?d ?l1 w0] =>
      destruct (record_returns "InvalidRecords" v u d l1 w0 Hans)
        as (m1 & w1 & -> & Hp1)
    end.
    exists (Rejected errors). unfold counted, counts.
    destruct (dlq_enabled env); rewrite ?Hid;
      (eexists _, _; split; [reflexivity |];
       split; [reflexivity | congruence]).
Qed.

(** The loop, when every record has its [recordId] and no call of
    [record_metric] raises. *)
Lemma process_records_counted records : forall l w,
  identified records ->
  MetricsSpec.cloudwatch_answers out ->
  exists l' w' failures,
    process_records rt isoformat out env records l w = (Ok l', w')
    /\ total_records l' = total_records l + Producer.len records
    /\ valid_records l' + invalid_records l'
       = valid_records l + invalid_records l + Producer.len records
    /\ valid_records l <= valid_records l'
    /\ failed_records l' = (failed_records l ++ failures)%list
    /\ (dlq_enabled env = true ->
        Producer.len failures = invalid_records l' - invalid_records l)
    /\ (dlq_enabled env = false ->
        forallb is_processing_error failures = true)
    /\ map fst failures `sublist_of` omap recordId records
    /\ publish_calls w' = publish_calls w.
Proof.
  unfold Producer.len.
  induction records as [| record_ records IH]; intros l w Hid Hans.
  - exists l, w, []. simpl. rewrite app_nil_r.
    repeat split; try done; lia.
  - apply Forall_cons in Hid as [Hi Hid].
    destruct (recordId record_) as [i |] eqn:Hrid; [| done].
    destruct (process_record_counted record_ i l w Hans Hrid)
      as (o & l1 & w1 & Hrun & Hcount & Hp1).
    destruct (IH l1 w1 Hid Hans)
      as (l2 & w2 & fs & Hrun2 & Ht & Hvi & Hv & Hf & Hdlq & Hpe & Hsub & Hp2).
    cbn [process_records]. rewrite Hrun, Hrun2.
    unfold counts, counted in Hcount.
    assert (exists f1,
              failed_records l1 = (failed_records l ++ f1)%list
              /\ total_records l1 = total_records l + 1
              /\ valid_records l1 + invalid_records l1
                 = valid_records l + invalid_records l + 1
              /\ valid_records l <= valid_records l1
              /\ (dlq_enabled env = true ->
                  Z.of_nat (length f1)
                  = invalid_records l1 - invalid_records l)
              /\ (dlq_enabled env = false ->
                  forallb is_processing_error f1 = true)
              /\ map fst f1 `sublist_of` [i]) as (f1 & Hf1 & Ht1 & Hvi1 & Hv1 & Hd1 & Hpe1 & Hs1).
    { destruct o as [| errors | e]; injection Hcount as -> -> -> ->.
      - exists []. rewrite app_nil_r.
        repeat split; try done; try (intros; simpl; lia).
        apply sublist_nil_l.
      - destruct (dlq_enabled env).
        + exists [(i, ValidationFailed errors)].
          repeat split; try done; try (intros; simpl; lia).
        + exists []. rewrite app_nil_r.
          repeat split; try done; try (intros; simpl; lia).
          apply sublist_nil_l.
      - exists [(i, ProcessingError e)].
        repeat split; try done; try (intros; simpl; lia). }
    exists l2, w2, (f1 ++ fs)%list. split; [done |].
    rewrite length_cons.
    split; [lia |]. split; [lia |]. split; [lia |].
    split; [by rewrite Hf, Hf1, app_assoc |].
    split; [intros Hd; rewrite length_app; specialize (Hdlq Hd);
            specialize (Hd1 Hd); lia |].
    split; [intros Hd; rewrite forallb_app, Hpe1, Hpe by done; done |].
    split; [| congruence].
    rewrite map_app. simpl omap. rewrite Hrid.
    exact (sublist_app _ [i] _ _ Hs1 Hsub).
Qed.

(** What follows the loop, when no call of [record_metric] raises. *)
Lemma finish_returns start_time l w :
  MetricsSpec.cloudwatch_answers out ->
  exists w',
    finish rt out env start_time l w = (Ok (failed_records l), w')
    /\ publish_calls w'
       = (publish_calls w
          ++ if (0 <? total_records l)%Z
                && (total_records l <? 10 * invalid_records l)%Z
             then alerts env
                    (HighErrorRate (invalid_records l) (total_records l))
             else [])%list.
Proof.
  intros Hans. unfold finish, Storage.flush, Metrics.flush.
  pose proof (_flush_buffer_services rt out (s3_writer l) w) as [_ Hp1].
  destruct (Storage._flush_buffer rt out (s3_writer l) w) as [s w1].
  simpl in Hp1. cbn [metrics set_s3_writer].
  pose proof (_publish_metrics_publish_calls out (metrics l) w1) as [Hp2 _].
  destruct (MetricsFacts._publish_metrics_conserves out (metrics l) w1 Hans)
    as (m & w2 & Hrun & _).
  rewrite Hrun in *. simpl in Hp2. unfold read_clock, record_final.
  match goal with |- context [record out "ProcessingTime" ?v ?u ?d ?l1 ?w3] =>
    destruct (record_returns "ProcessingTime" v u d l1 w3 Hans)
      as (m1 & w4 & -> & Hp3)
  end.
  match goal with |- context [record out "TotalRecords" ?v ?u ?d ?l1 w4] =>
    destruct (record_returns "TotalRecords" v u d l1 w4 Hans)
      as (m2 & w5 & -> & Hp4)
  end.
  match goal with |- context [record out "ValidRecords" ?v ?u ?d ?l1 w5] =>
    destruct (record_returns "ValidRecords" v u d l1 w5 Hans)
      as (m3 & w6 & -> & Hp5)
  end.
  match goal with |- context [record out "InvalidRecords" ?v ?u ?d ?l1 w6] =>
    destruct (record_returns "InvalidRecords" v u d l1 w6 Hans)
      as (m4 & w7 & -> & Hp6)
  end.
  cbn [total_records invalid_records failed_records set_metrics
         set_s3_writer].
  simpl in Hp3.
  assert (publish_calls w7 = publish_calls w) as Hp7 by congruence.
  destruct (Z.ltb_spec 0 (total_records l)) as [Hpos | Hnone]; simpl.
  - rewrite error_rate_high by done.
    destruct (_ <? _)%Z.
    + eexists. split; [reflexivity |].
      by rewrite (proj2 (proj2 (_send_alert_services _ _))), Hp7.
    + eexists. split; [reflexivity |]. by rewrite app_nil_r.
  - eexists. split; [reflexivity |]. by rewrite app_nil_r.
Qed.

Lemma process_records_app records1 records2 l w :
  process_records rt isoformat out env (records1 ++ records2) l w
  = match process_records rt isoformat out env records1 l w with
    | (Ok l1, w1) => process_records rt isoformat out env records2 l1 w1
    | (Raise e, w1) => (Raise e, w1)
    end.
Proof.
  revert l w. induction records1 as [| r records1 IH]; intros l w; [done |].
  simpl. destruct (process_record rt isoformat out env r l w)
    as [[l1 | e] w1]; [apply IH | done].
Qed.

(** The writer makes no call of its own: the calls of [put_object] are
    those of its flushes. *)
Lemma _send_alert_put_object_calls message w :
  put_object_calls (_send_alert out env message w) = put_object_calls w.
Proof. apply _send_alert_services. Qed.
End Loop.

End HandlerFacts.

Module HandlerTheorems.
Import Validator Enricher Aws Handler HandlerSpec HandlerFacts HandlerExamples.

Lemma poor_rejected current_time :
  exists quality_score errors,
    validate_record plain_runtime default_validator current_time poor
    = Ok (false, quality_score, errors).
Proof.
  unfold validate_record, check_required, check_price, check_volume,
    check_timestamp, check_exchange, check_field, poor. run.
  by eexists _, _.
Qed.

(** The run of the handler on one record that the validator rejects:
    one call of [put_metric_data], made by the flush, with the one metric of
    the loop. *)
Lemma poor_event_calls :
  exists m,
    put_metric_data_calls
      (lambda_handler plain_runtime isoformat_plain calm default_environment
         (event_of [with_id "a" (Ok poor)]) new_world).2
    = [{| Namespace := "CryptoAnalytics"; MetricData := [m] |}]
    /\ MetricName m = "InvalidRecords".
Proof.
  destruct (poor_rejected (Z.quot (now calm (tick new_world)) 1000))
    as (quality_score & errors & Hv).
  unfold lambda_handler, read_clock, event_of. cbn [Records].
  cbn [process_records]. unfold process_record, process, with_id.
  cbn [data]. cbn [validator initial count_total validator_config
                     default_environment].
  rewrite Hv. cbv iota.
  unfold process_invalid, record, Metrics.record_metric, read_clock.
  simpl. unfold finish, Storage.flush, Storage._flush_buffer. simpl.
  destruct (Rltb _ _), (reads_clock plain_runtime poor);
    eexists; split; reflexivity.
Qed.

(** X24: the four metrics of the summary ([ProcessingTime],
    [TotalRecords], [ValidRecords] and the final [InvalidRecords]) are
    recorded after the last flush of a [metrics] object that is local to the
    call.  When CloudWatch accepts every call, they are never sent: every
    metric of every call of [put_metric_data] that [lambda_handler] makes,
    whatever the event and however the handler ends, is one recorded in the
    loop, so none is named [ProcessingTime], [TotalRecords] or
    [ValidRecords]. *)
Theorem summary_metrics_are_not_sent rt isoformat out env event_ w call m :
  (forall n, cloudwatch out n = None) ->
  put_metric_data_calls w = [] ->
  call ∈ put_metric_data_calls
           (lambda_handler rt isoformat out env event_ w).2 ->
  m ∈ MetricData call ->
  MetricName m ∈ ["RecordsProcessed"; "DataQualityScore"; "InvalidRecords"]
  /\ MetricName m <> "ProcessingTime"
  /\ MetricName m <> "TotalRecords"
  /\ MetricName m <> "ValidRecords".
Proof.
  intros Hacc Hw Hcall Hm.
  assert (calls_live w) as Hc by (unfold calls_live; rewrite Hw; constructor).
  pose proof (lambda_handler_live rt isoformat out env event_ w Hacc Hc)
    as Hlive.
  unfold calls_live in Hlive. rewrite Forall_forall in Hlive.
  specialize (Hlive call Hcall). rewrite Forall_forall in Hlive.
  specialize (Hlive m Hm). unfold live, live_names in Hlive.
  split; [exact Hlive |].
  rewrite !elem_of_cons, elem_of_nil in Hlive.
  destruct Hlive as [-> | [-> | [-> | []]]]; done.
Qed.

Lemma summary_metrics_are_not_sent_witness :
  exists call m,
    call ∈ put_metric_data_calls
             (lambda_handler plain_runtime isoformat_plain calm
                default_environment (event_of [with_id "a" (Ok poor)])
                new_world).2
    /\ m ∈ MetricData call
    /\ MetricName m
       ∈ ["RecordsProcessed"; "DataQualityScore"; "InvalidRecords"]
    /\ MetricName m <> "ProcessingTime"
    /\ MetricName m <> "TotalRecords"
    /\ MetricName m <> "ValidRecords".
Proof.
  destruct poor_event_calls as (m & Hcalls & _).
  assert ({| Namespace := "CryptoAnalytics"; MetricData := [m] |}
          ∈ put_metric_data_calls
              (lambda_handler plain_runtime isoformat_plain calm
                 default_environment (event_of [with_id "a" (Ok poor)])
                 new_world).2) as Hcall
    by (rewrite Hcalls; apply list_elem_of_here).
  assert (m ∈ MetricData {| Namespace := "CryptoAnalytics";
                            MetricData := [m] |}) as Hm
    by apply list_elem_of_here.
  exists {| Namespace := "CryptoAnalytics"; MetricData := [m] |}, m.
  split; [exact Hcall |]. split; [exact Hm |].
  apply (summary_metrics_are_not_sent plain_runtime isoformat_plain calm
           default_environment (event_of [with_id "a" (Ok poor)]) new_world
           _ m (fun _ => eq_refl) eq_refl Hcall Hm).
Defined.

(** X25: when every record of the event has its [recordId] and no call
    of [record_metric] raises (CloudWatch answers, or refuses with
    [ClientError]), the loop ends normally and counts every record once:
    [total_records] grows by the number of records, and [valid_records] and
    [invalid_records] together by as much.  The entries added to
    [failed_records] carry identifiers of the event, in the order of the
    event; with the dead-letter queue enabled there is one per record
    counted invalid, and with it disabled they are only processing errors:
    a record that the validator rejects is then counted and dropped. *)
Theorem loop_counts_every_record rt isoformat out env records l w :
  identified records ->
  MetricsSpec.cloudwatch_answers out ->
  exists l' w' failures,
    process_records rt isoformat out env records l w = (Ok l', w')
    /\ total_records l' = total_records l + Producer.len records
    /\ valid_records l' + invalid_records l'
       = valid_records l + invalid_records l + Producer.len records
    /\ valid_records l <= valid_records l'
    /\ failed_records l' = (failed_records l ++ failures)%list
    /\ (dlq_enabled env = true ->
        Producer.len failures = invalid_records l' - invalid_records l)
    /\ (dlq_enabled env = false ->
        forallb is_processing_error failures = true)
    /\ map fst failures `sublist_of` omap recordId records.
Proof.
  intros Hid Hans.
  destruct (process_records_counted rt isoformat out env records l w Hid Hans)
    as (l' & w' & failures & H1 & H2 & H3 & H4 & H5 & H6 & H7 & H8 & _).
  by exists l', w', failures.
Qed.

Lemma loop_counts_every_record_witness :
  exists l' w' failures,
    process_records plain_runtime isoformat_plain calm default_environment
      [with_id "a" (Ok poor); with_id "b" (Raise JSONDecodeError);
       with_id "c" (Ok good)]
      (initial default_environment) new_world
    = (Ok l', w')
    /\ total_records l' = 3
    /\ valid_records l' + invalid_records l' = 3
    /\ 0 <= valid_records l'
    /\ failed_records l' = failures
    /\ (dlq_enabled default_environment = true ->
        Producer.len failures = invalid_records l' - 0)
    /\ (dlq_enabled default_environment = false ->
        forallb is_processing_error failures = true)
    /\ map fst failures `sublist_of` ["a"; "b"; "c"].
Proof.
  apply (loop_counts_every_record plain_runtime isoformat_plain calm
           default_environment
           [with_id "a" (Ok poor); with_id "b" (Raise JSONDecodeError);
            with_id "c" (Ok good)]
           (initial default_environment) new_world).
  - repeat constructor; discriminate.
  - intros n. by left.
Defined.

(** X26: the [except] of the loop reads [record['recordId']].  When the
    payload of a record cannot be decoded and the record has no
    [recordId], the [KeyError] leaves the loop: [lambda_handler] sends the alert of its outer [except] and raises
    [KeyError], whatever follows in the event.  The final flush is not
    reached: no call of [put_object] is made after the loop stopped. *)
Theorem failure_without_record_id rt isoformat out env event_ w
    before record_ after l w1 e :
  Records event_ = Some (before ++ record_ :: after)%list ->
  process_records rt isoformat out env before (initial env) (tick w)
  = (Ok l, w1) ->
  data record_ = Raise e ->
  recordId record_ = None ->
  exists w',
    lambda_handler rt isoformat out env event_ w = (Raise KeyError, w')
    /\ put_object_calls w' = put_object_calls w1
    /\ publish_calls w'
       = (publish_calls w1 ++ alerts env (FunctionFailed KeyError))%list.
Proof.
  intros Hev Hloop Hdata Hid.
  unfold lambda_handler, read_clock. rewrite Hev.
  rewrite process_records_app, Hloop. cbn [process_records].
  unfold process_record, process. rewrite Hdata, Hid.
  eexists. split; [reflexivity |].
  destruct (_send_alert_services out env (FunctionFailed KeyError) w1)
    as (_ & H1 & H2).
  by split.
Qed.

Lemma failure_without_record_id_witness :
  exists w',
    lambda_handler plain_runtime isoformat_plain calm alerting
      (event_of [without_id (Raise JSONDecodeError); with_id "b" (Ok good)])
      new_world
    = (Raise KeyError, w')
    /\ put_object_calls w' = []
    /\ publish_calls w'
       = [{| TopicArn := "arn:aws:sns:alerts";
             Message := FunctionFailed KeyError;
             Subject := "Crypto Analytics Alert" |}].
Proof.
  apply (failure_without_record_id plain_runtime isoformat_plain calm alerting
           (event_of [without_id (Raise JSONDecodeError); with_id "b" (Ok good)])
           new_world [] (without_id (Raise JSONDecodeError))
           [with_id "b" (Ok good)] (initial alerting) (tick new_world)
           JSONDecodeError); reflexivity.
Defined.

(** X27: when every record has its [recordId] and no call of
    [record_metric] raises, [lambda_handler] returns the entries of
    [failed_records] that the loop has made, and it sends one alert, to the
    configured topic, exactly when the event has a record and more than a
    tenth of its records were counted invalid; otherwise it publishes
    nothing. *)
Theorem alert_on_high_error_rate rt isoformat out env event_ records w :
  Records event_ = Some records ->
  identified records ->
  MetricsSpec.cloudwatch_answers out ->
  exists l w1 w',
    process_records rt isoformat out env records (initial env) (tick w)
    = (Ok l, w1)
    /\ total_records l = Producer.len records
    /\ lambda_handler rt isoformat out env event_ w
       = (Ok (failed_records l), w')
    /\ publish_calls w'
       = (publish_calls w
          ++ if (0 <? total_records l)%Z
                && (total_records l <? 10 * invalid_records l)%Z
             then alerts env
                    (HighErrorRate (invalid_records l) (total_records l))
             else [])%list.
Proof.
  intros Hev Hid Hans.
  destruct (process_records_counted rt isoformat out env records
              (initial env) (tick w) Hid Hans)
    as (l & w1 & failures & Hloop & Ht & _ & _ & _ & _ & _ & _ & Hp).
  destruct (finish_returns rt out env (now out w) l w1 Hans)
    as (w' & Hfin & Hp').
  exists l, w1, w'. split; [exact Hloop |]. split; [exact Ht |].
  unfold lambda_handler, read_clock. rewrite Hev, Hloop, Hfin.
  split; [reflexivity |]. rewrite Hp', Hp. reflexivity.
Qed.

Lemma alert_on_high_error_rate_witness :
  exists l w1 w',
    process_records plain_runtime isoformat_plain calm alerting
      [with_id "a" (Raise JSONDecodeError)] (initial alerting)
      (tick new_world)
    = (Ok l, w1)
    /\ total_records l = 1
    /\ lambda_handler plain_runtime isoformat_plain calm alerting
         (event_of [with_id "a" (Raise JSONDecodeError)]) new_world
       = (Ok (failed_records l), w')
    /\ publish_calls w'
       = (if (0 <? total_records l)%Z
             && (total_records l <? 10 * invalid_records l)%Z
          then alerts alerting
                 (HighErrorRate (invalid_records l) (total_records l))
          else [])%list.
Proof.
  apply (alert_on_high_error_rate plain_runtime isoformat_plain calm alerting
           (event_of [with_id "a" (Raise JSONDecodeError)])
           [with_id "a" (Raise JSONDecodeError)] new_world).
  - reflexivity.
  - repeat constructor; discriminate.
  - intros n. by left.
Defined.

Lemma good_accepted :
  validate_record plain_runtime default_validator 5000 good
  = Ok (true, 1%R, []).
Proof.
  unfold validate_record, check_required, check_price, check_volume,
    check_timestamp, check_exchange, check_field, good. run.
  do 2 f_equal. f_equal. rewrite Rmax_right; lra.
Qed.

(** X30: a record is counted as valid and handed to the S3 writer before
    its metrics are recorded.  When the record passes validation and
    enrichment and the call of [put_metric_data] that its first metric
    triggers (the buffer being one below its limit) raises another exception
    than [ClientError], the [except] of the loop counts the same record as
    invalid as well and lists it as a processing error: it is counted twice
    and reported as failed although the writer has it. *)
Theorem metric_error_counts_record_twice rt isoformat out env record_ i l w
    market_data quality_score errors price e :
  recordId record_ = Some i ->
  data record_ = Ok market_data ->
  validate_record rt (validator l) (Z.quot (now out w) 1000) market_data
  = Ok (true, quality_score, errors) ->
  EnricherMore.price_of rt market_data = Ok price ->
  hashable (EnricherMore.symbol_of market_data) = true ->
  Producer.len (Metrics.metrics_buffer (metrics l)) + 1
  = Metrics.max_buffer_size (metrics l) ->
  cloudwatch out (length (put_metric_data_calls w)) = Some e ->
  e <> ClientError ->
  exists l' w' enriched_data w1,
    process_record rt isoformat out env record_ l w = (Ok l', w')
    /\ total_records l' = total_records l + 1
    /\ valid_records l' = valid_records l + 1
    /\ invalid_records l' = invalid_records l + 1
    /\ failed_records l' = (failed_records l ++ [(i, ProcessingError e)])%list
    /\ enriched_data !! "quality_score" = Some (PFloat quality_score)
    /\ s3_writer l'
       = (Storage.add_record rt out enriched_data (s3_writer l) w1).1.
Proof.
  intros Hid Hdata Hval Hprice Hhash Hbuf Hcw He.
  unfold process_record, process. rewrite Hdata.
  cbn [validator count_total]. rewrite Hval. cbv iota.
  set (w0 := if reads_clock rt market_data then tick w else w).
  assert (put_metric_data_calls w0 = put_metric_data_calls w) as Hw0
    by (unfold w0; by destruct (reads_clock rt market_data)).
  unfold process_valid, read_clock. cbn [enricher count_total].
  destruct (EnricherMoreFacts.enrich_record_ok rt (isoformat (now out w0))
              (enricher l) market_data)
    as (enriched & enricher' & ->); [split; [by eexists | done] |].
  cbn [s3_writer set_enricher count_total].
  match goal with |- context [Storage.add_record rt out ?r ?s ?w1] =>
    pose proof (add_record_services rt out r s w1) as [Hs _];
    set (given := r) in *; set (w1' := w1) in *;
    destruct (Storage.add_record rt out given s w1') as [s' w2] eqn:Hadd
  end.
  unfold w1' in Hs. simpl in Hs.
  unfold record at 1, Metrics.record_metric, read_clock.
  cbn [metrics set_s3_writer set_enricher count_valid count_total
         Metrics.max_buffer_size Metrics.metrics_buffer Metrics.set_buffer].
  match goal with |- context [(?a <=? ?b)%Z] =>
    destruct (Z.leb_spec a b) as [_ | Hlt]
  end.
  2: { unfold Producer.len in *. rewrite length_app in Hlt. simpl in Hlt. lia. }
  unfold Metrics._publish_metrics. cbn [Metrics.metrics_buffer Metrics.set_buffer].
  destruct (Metrics.metrics_buffer (metrics l) ++ [_])%list as [| m0 ms] eqn:Hms;
    [by destruct (Metrics.metrics_buffer (metrics l)) |].
  unfold put_metric_data. cbn [put_metric_data_calls tick].
  rewrite Hs, Hw0, Hcw. cbn [answer].
  destruct (bool_decide (e = ClientError)) eqn:Hbd;
    [by apply bool_decide_eq_true in Hbd |].
  rewrite Hid.
  eexists _, _, given, w1'. split; [reflexivity |].
  rewrite Hadd. cbn.
  repeat split; try done.
  unfold given. unfold dict in *. by rewrite lookup_insert_eq.
Qed.

Lemma metric_error_counts_record_twice_witness :
  exists l' w' enriched_data w1,
    process_record plain_runtime isoformat_plain unreachable
      default_environment (with_id "a" (Ok good)) nearly_full new_world
    = (Ok l', w')
    /\ total_records l' = 9 + 1
    /\ valid_records l' = 9 + 1
    /\ invalid_records l' = 0 + 1
    /\ failed_records l' = [("a", ProcessingError OSError)]
    /\ enriched_data !! "quality_score" = Some (PFloat 1)
    /\ s3_writer l'
       = (Storage.add_record plain_runtime unreachable enriched_data
            Storage.new_writer w1).1.
Proof.
  apply (metric_error_counts_record_twice plain_runtime isoformat_plain
           unreachable default_environment (with_id "a" (Ok good)) "a"
           nearly_full new_world good 1 [] 100 OSError).
  - reflexivity.
  - reflexivity.
  - exact good_accepted.
  - reflexivity.
  - reflexivity.
  - reflexivity.
  - reflexivity.
  - discriminate.
Defined.

End HandlerTheorems.
